(** * REINFORCE training loop (src/reinforce.py): shallow embedding and properties

    The development follows the Python module function by function:
    [optimize], [get_policy_loss] and [reinforce].

    Number model.  Python floats handled by the loop itself (rewards summed
    with [sum], the exploration rate) are exact rationals [Q].  Tensor
    elements are exact reals extended with one non-finite value [NaN]
    ([tval]); rounding to float32, overflow and signed infinities are outside
    the model.  The only non-finite results that finite inputs can produce in
    [get_policy_loss] are the 0/0 forms of [mean] and [std], which IEEE
    arithmetic evaluates to NaN.

    Layout.  The embedding of the module comes first, then the vocabulary of
    the statements and a concrete set of collaborators to run the definitions
    on, then the properties, and last the runs on concrete inputs. *)

From Stdlib Require Import List ZArith QArith Qreals Reals Lra Lia Bool.
Import ListNotations.

(** ** Tensor elements *)

Inductive tval : Type :=
| Fin (x : R)
| NaN.

Definition is_finite (v : tval) : bool :=
  match v with Fin _ => true | NaN => false end.

Definition tlift2 (f : R -> R -> R) (a b : tval) : tval :=
  match a, b with
  | Fin x, Fin y => Fin (f x y)
  | _, _ => NaN
  end.

Definition tadd : tval -> tval -> tval := tlift2 Rplus.
Definition tsub : tval -> tval -> tval := tlift2 Rminus.
Definition tmul : tval -> tval -> tval := tlift2 Rmult.

(** A zero divisor gives a non-finite quotient. *)
Definition tdiv (a b : tval) : tval :=
  match a, b with
  | Fin x, Fin y => if Req_dec_T y 0 then NaN else Fin (x / y)
  | _, _ => NaN
  end.

Definition tsqrt (a : tval) : tval :=
  match a with
  | Fin x => if Rlt_dec x 0 then NaN else Fin (sqrt x)
  | NaN => NaN
  end.

(** ** One-dimensional tensors *)

(** [torch.FloatTensor(rewards)] *)
Definition FloatTensor (rewards : list Q) : list tval :=
  map (fun q => Fin (Q2R q)) rewards.

(** [t.sum()] *)
Definition t_sum (t : list tval) : tval := fold_left tadd t (Fin 0).

(** [t.mean()]: the sum over the number of elements; NaN on an empty tensor. *)
Definition t_mean (t : list tval) : tval :=
  tdiv (t_sum t) (Fin (INR (length t))).

(** [t.std()]: torch's default is the Bessel-corrected estimator, the square
    root of the squared deviations summed and divided by [max(0, N - 1)]. *)
Definition t_std (t : list tval) : tval :=
  let m := t_mean t in
  let sq := map (fun x => tmul (tsub x m) (tsub x m)) t in
  tsqrt (tdiv (t_sum sq) (Fin (INR (length t - 1)))).

(** [float(np.finfo(np.float32).eps)], that is 2^-23. *)
Definition eps : R := / 8388608.

(** ** Errors *)

Inductive exn : Type :=
| RuntimeError       (* torch: stack of an empty list, shapes that do not broadcast *)
| ZeroDivisionError  (* integer modulo by zero *)
| IndexError         (* val_reward[0] on an empty array *)
| ValueError         (* truth value of an array with several elements *)
| AttributeError.    (* val_env is None *)

Inductive outcome (A : Type) : Type :=
| Ok (a : A)
| Raise (e : exn)
| OutOfFuel.
Arguments Ok {A} a.
Arguments Raise {A} e.
Arguments OutOfFuel {A}.

Definition bind {A B} (m : outcome A) (k : A -> outcome B) : outcome B :=
  match m with
  | Ok a => k a
  | Raise e => Raise e
  | OutOfFuel => OutOfFuel
  end.

Notation "x <- m ;; k" := (bind m (fun x => k))
  (at level 61, m at next level, right associativity).

(** ** Shapes met in [get_policy_loss] *)

Inductive tensor : Type :=
| Scalar (x : tval)        (* zero-dimensional *)
| Vec (l : list tval).     (* one-dimensional *)

(** [torch.stack(log_probs).squeeze()] for one-element log-probabilities:
    an empty list is refused by [stack]; a single entry is squeezed down to
    a zero-dimensional tensor. *)
Definition stack_squeeze (l : list tval) : outcome tensor :=
  match l with
  | [] => Raise RuntimeError
  | [x] => Ok (Scalar x)
  | _ => Ok (Vec l)
  end.

Fixpoint zip_mul (a b : list tval) : list tval :=
  match a, b with
  | x :: a', y :: b' => tmul x y :: zip_mul a' b'
  | _, _ => []
  end.

(** [torch.mul(a, r)] with broadcasting; [r] is always one-dimensional. *)
Definition t_mul (a : tensor) (r : list tval) : outcome (list tval) :=
  match a with
  | Scalar x => Ok (map (tmul x) r)
  | Vec l =>
      if Nat.eqb (length l) (length r) then Ok (zip_mul l r)
      else match l, r with
           | [x], _ => Ok (map (tmul x) r)
           | _, [y] => Ok (map (fun x => tmul x y) l)
           | _, _ => Raise RuntimeError
           end
  end.

(** The second statement of [get_policy_loss]:
    [(r - r.mean()) / (r.std() + eps)]. *)
Definition standardize (r : list tval) : list tval :=
  let m := t_mean r in
  let d := tadd (t_std r) (Fin eps) in
  map (fun x => tdiv (tsub x m) d) r.

(** ** Loops

    [for _ in range(n)] whose body may leave the loop.  The recursion is on
    the binary representation of the bound, so that the default
    [max_episode_length] (2^31 - 1) costs nothing when the body leaves early. *)

Inductive ctl (S R : Type) : Type :=
| Continue (s : S)
| Stop (r : R).
Arguments Continue {S R} s.
Arguments Stop {S R} r.

Fixpoint for_pos {S R} (p : positive) (body : S -> ctl S R) (s : S) : ctl S R :=
  match p with
  | xH => body s
  | xO q =>
      match for_pos q body s with
      | Continue s1 => for_pos q body s1
      | Stop r => Stop r
      end
  | xI q =>
      match body s with
      | Continue s1 =>
          match for_pos q body s1 with
          | Continue s2 => for_pos q body s2
          | Stop r => Stop r
          end
      | Stop r => Stop r
      end
  end.

(** [range(n)] is empty for [n <= 0]. *)
Definition for_range {S R} (n : Z) (body : S -> ctl S R) (s : S) : ctl S R :=
  match n with
  | Zpos p => for_pos p body s
  | _ => Continue s
  end.

(** The same loop, one iteration at a time. *)
Fixpoint for_nat {S R} (n : nat) (body : S -> ctl S R) (s : S) : ctl S R :=
  match n with
  | O => Continue s
  | S k =>
      match body s with
      | Continue s1 => for_nat k body s1
      | Stop r => Stop r
      end
  end.

(** An iteration of a loop whose body may raise. *)
Definition lift_ctl {S R} (m : outcome (ctl S R)) : ctl S (outcome R) :=
  match m with
  | Ok (Continue s) => Continue s
  | Ok (Stop r) => Stop (Ok r)
  | Raise e => Stop (Raise e)
  | OutOfFuel => Stop OutOfFuel
  end.

(** ** Python numbers of the loop *)

(** [max(x, y)]: the first argument unless the second is strictly larger. *)
Definition pymax (x y : Q) : Q := if Qle_bool y x then x else y.

(** [x < y] *)
Definition Qltb (x y : Q) : bool := negb (Qle_bool y x).

(** [sum(l)] *)
Definition pysum (l : list Q) : Q := fold_left Qplus l 0%Q.

(** ** Collaborators

    The policy network, the optimizer, the environment and the action
    selector are parameters of the algorithm.  The module drives them through
    the calls below and relies on nothing else about them; they are taken to
    be total (they always return). *)

(** [policy_network]: its parameters (with their gradient buffers) and the
    mode flag that [train()] and [eval()] switch. *)
Record network (P : Type) : Type := Network {
  parameters : P;
  training : bool
}.
Arguments Network {P} _ _.
Arguments parameters {P} _.
Arguments training {P} _.

(** A scalar tensor built from log-probabilities: its value, and the tensors
    it was computed from (what [backward] differentiates through). *)
Record loss (L : Type) : Type := Loss {
  loss_item : tval;
  loss_inputs : list L
}.
Arguments Loss {L} _ _.
Arguments loss_item {L} _.
Arguments loss_inputs {L} _.

Class Collaborators : Type := {
  Obs : Type;                      (* what env.reset() and env.step() return as state *)
  Action : Type;
  Hidden : Type;                   (* recurrent state hx *)
  LogProb : Type;                  (* one-element tensor returned by act *)
  lp_item : LogProb -> tval;
  Params : Type;
  Optimizer : Type;
  Rng : Type;                      (* torch's global generator *)
  Env : Type;                      (* an environment object, that is its current state *)
  env_reset : Env -> Env * Obs;
  env_step : Env -> Action -> Env * (Obs * Q * bool);
  act : network Params -> Obs -> option Hidden -> bool -> Q -> Rng ->
        (Action * LogProb * option Hidden) * Rng;
  Adam : Params -> Q -> Q -> Optimizer;
  zero_grad : Params -> Params;
  backward : loss LogProb -> Params -> Params;
  opt_step : Optimizer -> Params -> Optimizer * Params
}.

Section Reinforce.
Context {C : Collaborators}.

(** What [print] is given at line 115-119. *)
Record report : Type := Report {
  rep_completed : Z;
  rep_actions : list Action;
  rep_sum : Q
}.

(** The objects shared by a call of [reinforce] and the validation call
    nested in it.  [optimize_calls] is a record of every loss [optimize] was
    called with; it is not program state. *)
Record World : Type := MkWorld {
  policy_network : network Params;
  rng : Rng;
  stdout : list report;
  optimize_calls : list (loss LogProb)
}.

(** [optimize(optimizer, loss)], lines 11-15. *)
Definition optimize (optimizer : Optimizer) (l : loss LogProb) (p : Params)
  : Optimizer * Params :=
  let p := zero_grad p in
  let p := backward l p in
  opt_step optimizer p.

(** [get_policy_loss(rewards, log_probs)], lines 18-24. *)
Definition get_policy_loss (rewards : list Q) (log_probs : list LogProb)
  : outcome (loss LogProb) :=
  let r := FloatTensor rewards in
  let r := standardize r in
  lp <- stack_squeeze (map lp_item log_probs) ;;
  prod <- t_mul lp r ;;
  Ok (Loss (t_sum (map (fun x => tmul x (Fin (-1))) prod)) log_probs).

(** The arguments of [reinforce] other than the objects it mutates. *)
Record Args : Type := MkArgs {
  alpha : Q;
  weight_decay : Q;
  exploration_rate : Q;
  exploration_decay : Q;
  exploration_min : Q;
  num_episodes : Z;
  max_episode_length : Z;
  train : bool;
  print_res : bool;
  print_freq : Z;
  recurrent : bool;
  early_stopping : bool;
  early_stopping_freq : Z
}.

(** The defaults of the signature (line 27). *)
Definition default_args : Args := {|
  alpha := 1 # 1000;
  weight_decay := 1 # 100000;
  exploration_rate := 1;
  exploration_decay := 9999 # 10000;
  exploration_min := 0;
  num_episodes := 1000;
  max_episode_length := 2147483647;
  train := true;
  print_res := true;
  print_freq := 100;
  recurrent := false;
  early_stopping := false;
  early_stopping_freq := 100
|}.

(** One call of [act] as the action selector sees it; kept per call of
    [reinforce], in call order.  It is a record of the run, not program
    state. *)
Record act_call : Type := ActCall {
  call_training : bool;
  call_state : Obs;
  call_hx : option Hidden;
  call_recurrent : bool;
  call_rate : Q
}.

(** The variables of the inner loop (lines 87-97). *)
Record Rollout : Type := MkRollout {
  ro_env : Env;
  ro_rng : Rng;
  ro_state : Obs;
  ro_hx : option Hidden;
  ro_done : bool;
  ro_actions : list Action;
  ro_rewards : list Q;
  ro_log_probs : list LogProb;
  ro_rate : Q;
  ro_calls : list act_call
}.

(** Lines 88-97, one pass. *)
Definition rollout_body (net : network Params) (rec : bool) (decay emin : Q)
  (s : Rollout) : ctl Rollout Rollout :=
  let '(action, log_prob, hx, g) :=
    act net (ro_state s) (ro_hx s) rec (ro_rate s) (ro_rng s) in
  let '(env, (state, reward, done)) := env_step (ro_env s) action in
  let calls :=
    ro_calls s ++ [ActCall (training net) (ro_state s) (ro_hx s) rec (ro_rate s)] in
  if done then
    Stop (MkRollout env g state hx done (ro_actions s) (ro_rewards s)
            (ro_log_probs s) (ro_rate s) calls)
  else
    Continue (MkRollout env g state hx done
                (ro_actions s ++ [action])
                (ro_rewards s ++ [reward])
                (ro_log_probs s ++ [log_prob])
                (pymax (ro_rate s * decay) emin) calls).

(** The variables of [reinforce] that live across outer iterations, the
    objects it mutates, and [act_calls], the calls of [act] made by this call
    of [reinforce] (not by a validation call nested in it). *)
Record Outer : Type := MkOuter {
  world : World;
  env : Env;
  val_env : option Env;
  optimizer : Optimizer;
  reward_history : list Q;
  action_history : list (list Action);
  total_rewards : list Q;
  total_actions : list Action;
  validation_rewards : list (list Q);
  completed_episodes_counter : Z;
  done : bool;
  state : Obs;
  cur_exploration_rate : Q;
  cur_exploration_min : Q;
  act_calls : list act_call
}.

(** What [reinforce] hands back: [np.array(reward_history)] and
    [np.array(action_history)], one entry per completed episode.  The arrays
    are lists here: what [np.array] makes of episodes of different lengths
    depends on the version of numpy and is outside the model. *)
Definition returned (o : Outer) : list Q * list (list Action) :=
  (reward_history o, action_history o).

(** The arguments of the validation call at line 122; whatever is not passed
    there takes its default. *)
Definition validation_args (a : Args) : Args := {|
  alpha := alpha default_args;
  weight_decay := weight_decay default_args;
  exploration_rate := 0;
  exploration_decay := exploration_decay default_args;
  exploration_min := 0;
  num_episodes := 1;
  max_episode_length := max_episode_length default_args;
  train := false;
  print_res := false;
  print_freq := print_freq default_args;
  recurrent := recurrent a;
  early_stopping := early_stopping default_args;
  early_stopping_freq := early_stopping_freq default_args
|}.

(** Lines 82-97: the fresh trajectory and the inner loop. *)
Definition rollout (a : Args) (s : Outer) : Rollout :=
  let init :=
    MkRollout (env s) (rng (world s)) (state s) None (done s) [] [] []
      (cur_exploration_rate s) (act_calls s) in
  match for_range (max_episode_length a)
          (rollout_body (policy_network (world s)) (recurrent a)
             (exploration_decay a) (cur_exploration_min s)) init with
  | Continue r => r
  | Stop r => r
  end.

(** Lines 99-101. *)
Definition train_step (a : Args) (s : Outer) (r : Rollout)
  : outcome (Optimizer * World) :=
  let w := world s in
  if train a then
    policy_loss <- get_policy_loss (ro_rewards r) (ro_log_probs r) ;;
    let '(opt, p) :=
      optimize (optimizer s) policy_loss (parameters (policy_network w)) in
    Ok (opt, MkWorld (Network p (training (policy_network w))) (ro_rng r)
               (stdout w) (optimize_calls w ++ [policy_loss]))
  else
    Ok (optimizer s,
        MkWorld (policy_network w) (ro_rng r) (stdout w) (optimize_calls w)).

(** Lines 114-119. *)
Definition print_step (a : Args) (s : Outer) : outcome Outer :=
  if done s && print_res a then
    if (print_freq a =? 0)%Z then Raise ZeroDivisionError
    else if ((completed_episodes_counter s - 1) mod print_freq a =? 0)%Z then
      let w := world s in
      let line :=
        Report (completed_episodes_counter s)
          (last (action_history s) []) (last (reward_history s) 0%Q) in
      Ok (MkOuter
            (MkWorld (policy_network w) (rng w) (stdout w ++ [line])
               (optimize_calls w))
            (env s) (val_env s) (optimizer s) (reward_history s)
            (action_history s) (total_rewards s) (total_actions s)
            (validation_rewards s) (completed_episodes_counter s) (done s)
            (state s) (cur_exploration_rate s) (cur_exploration_min s)
            (act_calls s))
    else Ok s
  else Ok s.

(** Line 123: [len(validation_rewards) > 0 and
    val_reward[0] < validation_rewards[-1]].  The right operand of [<] is the
    array appended by the previous validation; the truth value of an empty
    array is false. *)
Definition regressed (validation_rewards : list (list Q)) (val_reward : list Q)
  : outcome bool :=
  match validation_rewards with
  | [] => Ok false
  | _ :: _ =>
      match val_reward with
      | [] => Raise IndexError
      | x :: _ =>
          match last validation_rewards [] with
          | [] => Ok false
          | [p] => Ok (Qltb x p)
          | _ :: _ :: _ => Raise ValueError
          end
      end
  end.

(** Lines 121-125.  [self] is [reinforce] itself. *)
Definition early_stopping_step
  (self : Args -> Env -> option Env -> World -> outcome Outer)
  (a : Args) (s : Outer) : outcome (ctl Outer Outer) :=
  if done s && early_stopping a then
    if (early_stopping_freq a =? 0)%Z then Raise ZeroDivisionError
    else if (completed_episodes_counter s mod early_stopping_freq a =? 0)%Z then
      match val_env s with
      | None => Raise AttributeError
      | Some venv =>
          v <- self (validation_args a) venv None (world s) ;;
          let val_reward := reward_history v in
          let s1 :=
            MkOuter (world v) (env s) (Some (env v)) (optimizer s)
              (reward_history s) (action_history s) (total_rewards s)
              (total_actions s) (validation_rewards s)
              (completed_episodes_counter s) (done s) (state s)
              (cur_exploration_rate s) (cur_exploration_min s) (act_calls s) in
          stop <- regressed (validation_rewards s) val_reward ;;
          if stop : bool then Ok (Stop s1)
          else
            Ok (Continue
                  (MkOuter (world s1) (env s1) (val_env s1) (optimizer s1)
                     (reward_history s1) (action_history s1)
                     (total_rewards s1) (total_actions s1)
                     (validation_rewards s1 ++ [val_reward])
                     (completed_episodes_counter s1) (done s1) (state s1)
                     (cur_exploration_rate s1) (cur_exploration_min s1)
                     (act_calls s1)))
      end
    else Ok (Continue s)
  else Ok (Continue s).

(** Lines 103-112. *)
Definition bookkeeping (s : Outer) (r : Rollout) (opt : Optimizer) (w : World)
  : Outer :=
  let total_rewards := total_rewards s ++ ro_rewards r in
  let total_actions := total_actions s ++ ro_actions r in
  if ro_done r then
    let '(e, st) := env_reset (ro_env r) in
    MkOuter w e (val_env s) opt
      (reward_history s ++ [pysum total_rewards])
      (action_history s ++ [total_actions])
      [] [] (validation_rewards s)
      (completed_episodes_counter s + 1) true st
      (ro_rate r) (cur_exploration_min s) (ro_calls r)
  else
    MkOuter w (ro_env r) (val_env s) opt
      (reward_history s) (action_history s)
      total_rewards total_actions (validation_rewards s)
      (completed_episodes_counter s) false (ro_state r)
      (ro_rate r) (cur_exploration_min s) (ro_calls r).

(** One pass of the outer loop, lines 82-125.  [Stop] is the [return] of
    line 124. *)
Definition iteration
  (self : Args -> Env -> option Env -> World -> outcome Outer)
  (a : Args) (s : Outer) : outcome (ctl Outer Outer) :=
  let r := rollout a s in
  ow <- train_step a s r ;;
  let '(opt, w) := ow in
  s2 <- print_step a (bookkeeping s r opt w) ;;
  early_stopping_step self a s2.

(** Lines 57-79. *)
Definition setup (a : Args) (e : Env) (venv : option Env) (w : World) : Outer :=
  let net := policy_network w in
  let optimizer := Adam (parameters net) (alpha a) (weight_decay a) in
  let '(e, _) := env_reset e in
  let exploration_min := if train a then exploration_min a else 0%Q in
  let exploration_rate := if train a then exploration_rate a else exploration_min in
  let net := Network (parameters net) (train a) in
  let '(e, state) := env_reset e in
  MkOuter (MkWorld net (rng w) (stdout w) (optimize_calls w)) e venv optimizer
    [] [] [] [] [] 0 false state exploration_rate exploration_min [].

(** [reinforce], with the recursion of line 122 opened. *)
Definition reinforce_body
  (self : Args -> Env -> option Env -> World -> outcome Outer)
  (a : Args) (e : Env) (venv : option Env) (w : World) : outcome Outer :=
  match for_range (num_episodes a) (fun s => lift_ctl (iteration self a s))
          (setup a e venv w) with
  | Continue s => Ok s
  | Stop r => r
  end.

(** The nesting depth of calls is the fuel. *)
Fixpoint reinforce_fuel (fuel : nat) (a : Args) (e : Env) (venv : option Env)
  (w : World) : outcome Outer :=
  match fuel with
  | O => OutOfFuel
  | S k => reinforce_body (reinforce_fuel k) a e venv w
  end.

(** The validation call never validates in turn, so two levels are all that
    a call can use (lemma [reinforce_fuel_enough]). *)
Definition reinforce : Args -> Env -> option Env -> World -> outcome Outer :=
  reinforce_fuel 2.

End Reinforce.

(** ** Vocabulary of the statements *)

Section Vocabulary.
Context {C : Collaborators}.

(** The environment stepped through a list of actions: where it ends up, and
    the reward and [done] flag of every step. *)
Fixpoint replay (e : Env) (actions : list Action) : Env * list (Q * bool) :=
  match actions with
  | [] => (e, [])
  | a :: rest =>
      let '(e1, (_, reward, d)) := env_step e a in
      let '(e2, l) := replay e1 rest in
      (e2, (reward, d) :: l)
  end.

(** An episode in progress that emits the rewards [rs], one per step whatever
    the action, and signals [done] at the step after the last of them. *)
Fixpoint runs_script (rs : list Q) (e : Env) : Prop :=
  match rs with
  | [] => forall a, snd (snd (env_step e a)) = true
  | r :: rs' =>
      forall a, snd (env_step e a) = (fst (fst (snd (env_step e a))), r, false)
                /\ runs_script rs' (fst (env_step e a))
  end.

(** The inner loop went from [s0] to [r] recording [acts], [rws] and [lps]:
    the three lists have one entry per recorded step, and the environment,
    stepped from where it was through the recorded actions, emits the
    recorded rewards, none of these steps being terminal. *)
Definition trajectory_of (s0 r : Rollout) (acts : list Action) (rws : list Q)
  (lps : list LogProb) : Prop :=
  ro_actions r = ro_actions s0 ++ acts /\
  ro_rewards r = ro_rewards s0 ++ rws /\
  ro_log_probs r = ro_log_probs s0 ++ lps /\
  length rws = length acts /\ length lps = length acts /\
  snd (replay (ro_env s0) acts) = map (fun x => (x, false)) rws.

(** [a] and [lp] are the action and the log-probability that the call [c]
    of [act] returned, for the state in which it found the random
    generator. *)
Definition returned_by (net : network Params) (c : act_call) (a : Action)
  (lp : LogProb) : Prop :=
  exists g,
    fst (fst (act net (call_state c) (call_hx c) (call_recurrent c)
                (call_rate c) g)) = (a, lp).

(** The recorded actions and log-probabilities against the calls of [act],
    in order: the i-th action and the i-th log-probability are what the i-th
    call returned. *)
Inductive recorded_from (net : network Params)
  : list act_call -> list Action -> list LogProb -> Prop :=
| recorded_nil : recorded_from net [] [] []
| recorded_cons c a lp cs acts lps :
    returned_by net c a lp -> recorded_from net cs acts lps ->
    recorded_from net (c :: cs) (a :: acts) (lp :: lps).

(** The rates of a list of calls of [act], in call order. *)
Definition rates (calls : list act_call) : list Q := map call_rate calls.

(** Each rate is at most every rate before it. *)
Definition nonincreasing (l : list Q) : Prop :=
  forall i j x y, (i <= j)%nat -> nth_error l i = Some x ->
                  nth_error l j = Some y -> (y <= x)%Q.

(** The exploration rate and the rates already handed to [act]: the current
    rate is within [lo, hi] and not negative, every earlier call got a rate
    within [lo, hi], and the sequence of rates, the current one last, never
    goes up. *)
Definition rate_inv (lo hi : Q) (calls : list act_call) (rate : Q) : Prop :=
  (lo <= rate)%Q /\ (rate <= hi)%Q /\ (0 <= rate)%Q /\
  nonincreasing (rates calls ++ [rate]) /\
  Forall (fun q => (lo <= q)%Q /\ (q <= hi)%Q) (rates calls).

(** The variables of the outer loop that lines 114-125 leave alone. *)
Definition core (s : Outer) :=
  (env s, optimizer s, reward_history s, action_history s, total_rewards s,
   total_actions s, completed_episodes_counter s, done s, state s,
   cur_exploration_rate s, cur_exploration_min s, act_calls s).

(** The two histories have one entry per completed episode. *)
Definition histories_aligned (s : Outer) : Prop :=
  length (reward_history s) = length (action_history s) /\
  Z.of_nat (length (reward_history s)) = completed_episodes_counter s.

(** The environment, stepped from [e0] through [acts], emits the rewards
    [rws], none of these steps being terminal, and is then [e]. *)
Definition steps_through (e0 : Env) (acts : list Action) (rws : list Q)
  (e : Env) : Prop :=
  length rws = length acts /\
  replay e0 acts = (e, map (fun x => (x, false)) rws).

(** [acts] and [x] are the record of one completed episode: starting from an
    environment that was just reset, the actions [acts] were taken in this
    order and none of them ended the episode, [x] is the sum of the rewards
    they earned, and the step taken after them was terminal. *)
Definition completed_episode (acts : list Action) (x : Q) : Prop :=
  exists e_prev rws e_end a_last,
    steps_through (fst (env_reset e_prev)) acts rws e_end /\
    x = pysum rws /\
    snd (snd (env_step e_end a_last)) = true.

(** Every pair of entries of the two histories is the record of one completed
    episode, and the running totals are the episode in progress: the steps
    taken since the last [reset], which lead to the current environment. *)
Definition episodes_recorded (s : Outer) : Prop :=
  Forall2 completed_episode (action_history s) (reward_history s) /\
  exists e_prev,
    steps_through (fst (env_reset e_prev)) (total_actions s) (total_rewards s)
      (env s).

(** [exploration_min] and [exploration_rate] as they stand after lines
    67-72. *)
Definition effective_min (a : Args) : Q :=
  if train a then exploration_min a else 0%Q.

Definition effective_rate (a : Args) : Q :=
  if train a then exploration_rate a else 0%Q.

(** Between [w] and [w'] no call of [optimize] was made and the parameters
    of the policy network did not change. *)
Definition untrained (w w' : World) : Prop :=
  optimize_calls w' = optimize_calls w /\
  parameters (policy_network w') = parameters (policy_network w).

(** The episode that [reinforce] starts on [e] (after the two [reset]s of
    lines 65 and 75) emits the rewards [rs] and then terminates: it
    terminates after exactly [length rs + 1] steps. *)
Definition first_episode (rs : list Q) (e : Env) : Prop :=
  runs_script rs (fst (env_reset (fst (env_reset e)))).



(** Sum of a list of reals. *)
Definition Rsum (l : list R) : R := fold_right Rplus 0%R l.


(** On its next [n] validation calls, whatever the state of the policy, the
    validation environment [v] completes its episode, and the reward of each
    call is strictly below that of the call before ([bound] is the reward of
    the call before the first of them, if there was one). *)
Fixpoint validation_decreases (a : Args) (n : nat) (bound : option Q) (v : Env)
  : Prop :=
  match n with
  | O => True
  | S k =>
      forall w, exists o x,
        reinforce (validation_args a) v None w = Ok o /\
        reward_history o = [x] /\
        match bound with Some b => (x < b)%Q | None => True end /\
        validation_decreases a k (Some x) (env o)
  end.

(** Where the outer loop stands with respect to validation when every
    validation reward is below the one before: either no episode is
    completed yet, or one is and its validation reward is recorded. *)
Definition before_regression (a : Args) (s : Outer) : Prop :=
  (validation_rewards s = [] /\ reward_history s = [] /\
   exists v, val_env s = Some v /\ validation_decreases a 2 None v)
  \/
  (exists x v, validation_rewards s = [[x]] /\
               length (reward_history s) = 1%nat /\
               val_env s = Some v /\ validation_decreases a 1 (Some x) v).

(** [rate] multiplied [n] times by [decay]. *)
Fixpoint decayed (rate decay : Q) (n : nat) : Q :=
  match n with
  | O => rate
  | S k => (decayed rate decay k * decay)%Q
  end.

(** After [j] passes of [max_episode_length] steps each on an episode with
    the rewards [rs] that is not yet over: the rewards and actions collected
    so far are in the running totals, nothing is in the histories. *)
Definition in_progress (a : Args) (rs : list Q) (j : nat) (s : Outer) : Prop :=
  runs_script (skipn (j * Z.to_nat (max_episode_length a)) rs) (env s) /\
  total_rewards s = firstn (j * Z.to_nat (max_episode_length a)) rs /\
  length (total_actions s) = (j * Z.to_nat (max_episode_length a))%nat /\
  reward_history s = [] /\ action_history s = [] /\ done s = false.

(** A report is about a completed episode whose number is one more than a
    multiple of [print_freq], and shows the entries of that episode in the
    histories. *)
Definition report_ok (a : Args) (s : Outer) (r : report) : Prop :=
  ((rep_completed r - 1) mod print_freq a = 0)%Z /\
  (1 <= rep_completed r <= completed_episodes_counter s)%Z /\
  nth_error (reward_history s) (Z.to_nat (rep_completed r - 1))
  = Some (rep_sum r) /\
  nth_error (action_history s) (Z.to_nat (rep_completed r - 1))
  = Some (rep_actions r).

(** The histories are aligned and what was printed since [w] is in order. *)
Definition reports_ok (a : Args) (w : World) (s : Outer) : Prop :=
  histories_aligned s /\
  exists new, stdout (world s) = stdout w ++ new /\
              Forall (report_ok a s) new.

(** Every completed episode whose number is one more than a multiple of
    [print_freq] has its report among those printed since [w]. *)
Definition reports_complete (a : Args) (w : World) (s : Outer) : Prop :=
  exists new,
    stdout (world s) = stdout w ++ new /\
    forall c, (1 <= c <= completed_episodes_counter s)%Z ->
              ((c - 1) mod print_freq a = 0)%Z ->
              exists r, In r new /\ rep_completed r = c.

End Vocabulary.

(** ** A concrete set of collaborators

    A scripted environment and a trivial policy, used to run the definitions
    on concrete inputs. *)
Module Toy.

(** [reset] starts episode number [epoch] of [gen] and moves on to the next
    number; [step] emits the rewards of the episode in turn, whatever the
    action, and then signals [done]. *)
Record env_state : Type := MkEnv {
  gen : nat -> list Q;
  epoch : nat;
  cursor : list Q
}.

Definition reset (e : env_state) : env_state * nat :=
  (MkEnv (gen e) (S (epoch e)) (gen e (epoch e)), O).

Definition step (e : env_state) (a : nat) : env_state * (nat * Q * bool) :=
  match cursor e with
  | [] => (e, (O, 0%Q, true))
  | r :: rest => (MkEnv (gen e) (epoch e) rest, (length rest, r, false))
  end.

(** The action is the number of the call ([rng] counts them); the hidden
    state counts the calls since it was last absent. *)
Definition select (net : network nat) (st : nat) (hx : option nat) (rec : bool)
  (rate : Q) (g : nat) : (nat * Q * option nat) * nat :=
  ((g, (-1)%Q, Some (match hx with None => O | Some h => S h end)), S g).

#[export] Instance collaborators : Collaborators := {|
  Obs := nat;
  Action := nat;
  Hidden := nat;
  LogProb := Q;
  lp_item := fun q => Fin (Q2R q);
  Params := nat;
  Optimizer := nat;
  Rng := nat;
  Env := env_state;
  env_reset := reset;
  env_step := step;
  act := select;
  Adam := fun _ _ _ => O;
  zero_grad := fun p => p;
  backward := fun _ p => p;
  opt_step := fun o p => (S o, S p)
|}.

(** An environment every episode of which has the rewards [rs]. *)
Definition fixed (rs : list Q) : env_state := MkEnv (fun _ => rs) O [].

(** An environment whose episode number [n] has the single reward [-n]. *)
Definition countdown : env_state :=
  MkEnv (fun n => [inject_Z (- Z.of_nat n)]) O [].

Definition world0 : World := MkWorld (Network O true) O [] [].

(** The defaults, but for the arguments given. *)
Definition args (n len : Z) (tr es : bool) (rate decay emin : Q) : Args := {|
  alpha := alpha default_args;
  weight_decay := weight_decay default_args;
  exploration_rate := rate;
  exploration_decay := decay;
  exploration_min := emin;
  num_episodes := n;
  max_episode_length := len;
  train := tr;
  print_res := print_res default_args;
  print_freq := print_freq default_args;
  recurrent := recurrent default_args;
  early_stopping := es;
  early_stopping_freq := 1
|}.

(** The state of a training call after its second completed episode, the
    first validation having recorded the reward 0. *)
Definition second_episode_done : Outer :=
  MkOuter world0 (fixed [1; 2]%Q) (Some countdown) O [3%Q; 3%Q]
    [[O; 1%nat]; [2%nat; 3%nat]] [] [] [[0%Q]] 2 true O (1 # 4) (1 # 10) [].

End Toy.

(** ** Properties *)

(** *** Loops *)

Section Loops.
Context {S R : Type} (body : S -> ctl S R).

Lemma for_nat_add (n m : nat) (s : S) :
  for_nat (n + m) body s =
  match for_nat n body s with
  | Continue s1 => for_nat m body s1
  | Stop r => Stop r
  end.
Proof.
  revert s; induction n as [|n IH]; intros s; simpl; [reflexivity|].
  destruct (body s) as [s1|r]; [apply IH|reflexivity].
Qed.

Lemma for_pos_nat (p : positive) (s : S) :
  for_pos p body s = for_nat (Pos.to_nat p) body s.
Proof.
  revert s; induction p as [q IH|q IH|]; intros s.
  - rewrite Pos2Nat.inj_xI. simpl for_pos.
    change (Datatypes.S (2 * Pos.to_nat q)) with (1 + 2 * Pos.to_nat q)%nat.
    replace (1 + 2 * Pos.to_nat q)%nat
      with (1 + (Pos.to_nat q + Pos.to_nat q))%nat by lia.
    simpl for_nat. destruct (body s) as [s1|r]; [|reflexivity].
    rewrite for_nat_add, <- IH.
    destruct (for_pos q body s1); [apply IH|reflexivity].
  - rewrite Pos2Nat.inj_xO. simpl for_pos.
    replace (2 * Pos.to_nat q)%nat with (Pos.to_nat q + Pos.to_nat q)%nat by lia.
    rewrite for_nat_add, <- IH.
    destruct (for_pos q body s); [apply IH|reflexivity].
  - simpl. destruct (body s); reflexivity.
Qed.

Lemma for_range_nat (n : Z) (s : S) :
  for_range n body s = for_nat (Z.to_nat n) body s.
Proof.
  destruct n as [|p|p]; simpl; try reflexivity. apply for_pos_nat.
Qed.

(** Invariants: [I] holds of the state between iterations, [P] of whatever
    the loop is left with. *)
Lemma for_nat_inv (I : S -> Prop) (P : R -> Prop) :
  (forall s, I s ->
     match body s with Continue s1 => I s1 | Stop r => P r end) ->
  forall n s, I s ->
    match for_nat n body s with Continue s1 => I s1 | Stop r => P r end.
Proof.
  intros Hbody n; induction n as [|n IH]; intros s Hs; simpl; [exact Hs|].
  specialize (Hbody s Hs). destruct (body s) as [s1|r]; [apply IH|]; exact Hbody.
Qed.

Lemma for_range_inv (I : S -> Prop) (P : R -> Prop) :
  (forall s, I s ->
     match body s with Continue s1 => I s1 | Stop r => P r end) ->
  forall n s, I s ->
    match for_range n body s with Continue s1 => I s1 | Stop r => P r end.
Proof.
  intros Hbody n s Hs. rewrite for_range_nat. now apply for_nat_inv.
Qed.

End Loops.

(** *** The inner loop *)

Section RolloutFacts.
Context {C : Collaborators}.
Variables (net : network Params) (rec : bool) (decay emin : Q).

Let body := rollout_body net rec decay emin.

Lemma rollout_loop_spec (n : nat) (s0 : Rollout) :
  match for_nat n body s0 with
  | Continue r =>
      exists acts rws lps,
        trajectory_of s0 r acts rws lps /\ length acts = n /\
        ro_env r = fst (replay (ro_env s0) acts) /\
        ((0 < n)%nat -> ro_done r = false) /\ (n = O -> r = s0)
  | Stop r =>
      exists acts rws lps,
        trajectory_of s0 r acts rws lps /\ (length acts < n)%nat /\
        ro_done r = true /\
        exists a_last rw,
          env_step (fst (replay (ro_env s0) acts)) a_last =
          (ro_env r, (ro_state r, rw, true))
  end.
Proof.
  revert s0; induction n as [|n IH]; intros s0.
  - simpl. exists [], [], []. unfold trajectory_of. rewrite !app_nil_r.
    simpl. repeat split; auto; lia.
  - simpl. unfold body at 1, rollout_body.
    destruct (act net (ro_state s0) (ro_hx s0) rec (ro_rate s0) (ro_rng s0))
      as [[[a lp] hx] g] eqn:Hact.
    destruct (env_step (ro_env s0) a) as [e1 [[st rw] d]] eqn:Hstep.
    destruct d.
    + exists [], [], []. unfold trajectory_of. simpl. rewrite !app_nil_r.
      repeat split; auto; try lia. exists a, rw. exact Hstep.
    + match goal with |- match for_nat n body ?s1 with _ => _ end =>
        specialize (IH s1); destruct (for_nat n body s1) as [r|r] end.
      * destruct IH as (acts & rws & lps & Htr & Hlen & Henv & Hdone & Hz).
        destruct Htr as (Ha & Hr & Hl & Hl1 & Hl2 & Hrep). simpl in *.
        exists (a :: acts), (rw :: rws), (lp :: lps). unfold trajectory_of.
        simpl. rewrite Hstep.
        destruct (replay e1 acts) as [e2 l] eqn:Hre. simpl in *.
        rewrite Ha, Hr, Hl, <- !app_assoc. simpl.
        repeat split; auto; try congruence; try lia.
        intros _. destruct n; [rewrite (Hz eq_refl); reflexivity|apply Hdone; lia].
      * destruct IH as (acts & rws & lps & Htr & Hlen & Hdone & a_last & rw' & Hlast).
        destruct Htr as (Ha & Hr & Hl & Hl1 & Hl2 & Hrep). simpl in *.
        exists (a :: acts), (rw :: rws), (lp :: lps). unfold trajectory_of.
        simpl. rewrite Hstep.
        destruct (replay e1 acts) as [e2 l] eqn:Hre. simpl in *.
        rewrite Ha, Hr, Hl, <- !app_assoc. simpl.
        repeat split; auto; try congruence; try lia.
        exists a_last, rw'. exact Hlast.
Qed.

(** The calls of [act] against what the inner loop records: one call per
    recorded step, in order, and one more, recorded nowhere, when the loop is
    left on [done]. *)
Lemma rollout_loop_calls (n : nat) (s0 : Rollout) :
  match for_nat n body s0 with
  | Continue r =>
      exists acts lps calls,
        ro_actions r = ro_actions s0 ++ acts /\
        ro_log_probs r = ro_log_probs s0 ++ lps /\
        ro_calls r = ro_calls s0 ++ calls /\
        recorded_from net calls acts lps
  | Stop r =>
      exists acts lps calls c a_last lp rw,
        ro_actions r = ro_actions s0 ++ acts /\
        ro_log_probs r = ro_log_probs s0 ++ lps /\
        ro_calls r = ro_calls s0 ++ calls ++ [c] /\
        recorded_from net calls acts lps /\
        returned_by net c a_last lp /\
        env_step (fst (replay (ro_env s0) acts)) a_last =
        (ro_env r, (ro_state r, rw, true))
  end.
Proof.
  revert s0; induction n as [|n IH]; intros s0.
  - cbn [for_nat]. exists [], [], []. rewrite !app_nil_r.
    repeat split; constructor.
  - cbn [for_nat]. unfold body at 1, rollout_body.
    destruct (act net (ro_state s0) (ro_hx s0) rec (ro_rate s0) (ro_rng s0))
      as [[[a lp] hx] g] eqn:Hact.
    destruct (env_step (ro_env s0) a) as [e1 [[st rw] d]] eqn:Hstep.
    assert (Hret : returned_by net
                     (ActCall (training net) (ro_state s0) (ro_hx s0) rec
                        (ro_rate s0)) a lp).
    { exists (ro_rng s0). cbn [call_state call_hx call_recurrent call_rate].
      now rewrite Hact. }
    destruct d.
    + exists [], [], [],
        (ActCall (training net) (ro_state s0) (ro_hx s0) rec (ro_rate s0)),
        a, lp, rw.
      cbn [ro_actions ro_log_probs ro_calls ro_env ro_state replay fst app].
      rewrite !app_nil_r.
      split; [reflexivity|]. split; [reflexivity|]. split; [reflexivity|].
      split; [constructor|]. split; [exact Hret|exact Hstep].
    + match goal with |- match for_nat n body ?s1 with _ => _ end =>
        specialize (IH s1); destruct (for_nat n body s1) as [r|r] end.
      * destruct IH as (acts & lps & calls & Ha & Hl & Hc & Hrec).
        cbn [ro_actions ro_log_probs ro_calls] in Ha, Hl, Hc.
        exists (a :: acts), (lp :: lps),
          (ActCall (training net) (ro_state s0) (ro_hx s0) rec (ro_rate s0)
           :: calls).
        rewrite Ha, Hl, Hc, <- !app_assoc.
        split; [reflexivity|]. split; [reflexivity|]. split; [reflexivity|].
        now constructor.
      * destruct IH as (acts & lps & calls & c & a_last & lp' & rw' &
                        Ha & Hl & Hc & Hrec & Hlast & Hterm).
        cbn [ro_actions ro_log_probs ro_calls ro_env] in Ha, Hl, Hc, Hterm.
        exists (a :: acts), (lp :: lps),
          (ActCall (training net) (ro_state s0) (ro_hx s0) rec (ro_rate s0)
           :: calls), c, a_last, lp', rw'.
        rewrite Ha, Hl, Hc, <- !app_assoc.
        split; [reflexivity|]. split; [reflexivity|]. split; [reflexivity|].
        split; [now constructor|]. split; [exact Hlast|].
        cbn [replay]. rewrite Hstep.
        destruct (replay e1 acts) as [e2 l]. exact Hterm.
Qed.

End RolloutFacts.

(** *** The exploration schedule *)

Lemma pymax_lower (x y : Q) : (y <= pymax x y)%Q.
Proof.
  unfold pymax. destruct (Qle_bool y x) eqn:E.
  - now apply Qle_bool_iff. - apply Qle_refl.
Qed.

Lemma pymax_left (x y : Q) : (x <= pymax x y)%Q.
Proof.
  unfold pymax. destruct (Qle_bool y x) eqn:E.
  - apply Qle_refl.
  - apply Qlt_le_weak, Qnot_le_lt. intros H. apply Qle_bool_iff in H. congruence.
Qed.

Lemma pymax_upper (x y z : Q) : (x <= z)%Q -> (y <= z)%Q -> (pymax x y <= z)%Q.
Proof. unfold pymax. now destruct (Qle_bool y x). Qed.

Lemma decay_shrinks (rate decay : Q) :
  (0 <= rate)%Q -> (0 < decay)%Q -> (decay <= 1)%Q ->
  (0 <= rate * decay)%Q /\ (rate * decay <= rate)%Q.
Proof.
  intros Hr Hd0 Hd1. split.
  - apply Qmult_le_0_compat; [exact Hr|now apply Qlt_le_weak].
  - rewrite <- (Qmult_1_r rate) at 2. rewrite !(Qmult_comm rate).
    now apply Qmult_le_compat_r.
Qed.

Lemma nonincreasing_snoc (l : list Q) (x y : Q) :
  nonincreasing (l ++ [x]) -> (y <= x)%Q -> nonincreasing ((l ++ [x]) ++ [y]).
Proof.
  intros Hl Hyx i j u v Hij Hi Hj.
  assert (Hlen : length (l ++ [x]) = S (length l))
    by (rewrite length_app; simpl; lia).
  assert (Hlast : nth_error (l ++ [x]) (length l) = Some x)
    by (rewrite nth_error_app2, Nat.sub_diag; [reflexivity|lia]).
  destruct (Nat.lt_ge_cases j (S (length l))) as [Hjl|Hjl].
  - rewrite nth_error_app1 in Hi by lia. rewrite nth_error_app1 in Hj by lia.
    exact (Hl i j u v Hij Hi Hj).
  - assert (Hv : v = y).
    { rewrite nth_error_app2 in Hj by lia. rewrite Hlen in Hj.
      destruct (j - S (length l))%nat as [|k] eqn:E; simpl in Hj.
      - congruence. - now destruct k. }
    subst v. destruct (Nat.lt_ge_cases i (S (length l))) as [Hil|Hil].
    + rewrite nth_error_app1 in Hi by lia.
      apply Qle_trans with x; [exact Hyx|].
      apply (Hl i (length l) u x); [lia|exact Hi|exact Hlast].
    + rewrite nth_error_app2 in Hi by lia. rewrite Hlen in Hi.
      destruct (i - S (length l))%nat as [|k] eqn:E; simpl in Hi.
      * injection Hi as <-. apply Qle_refl.
      * now destruct k.
Qed.

Section Schedule.
Context {C : Collaborators}.
Variables (net : network Params) (rec : bool) (decay lo hi : Q).
Hypothesis decay_pos : (0 < decay)%Q.
Hypothesis decay_le_1 : (decay <= 1)%Q.

Lemma rollout_body_rate_inv (s : Rollout) :
  rate_inv lo hi (ro_calls s) (ro_rate s) ->
  match rollout_body net rec decay lo s with
  | Continue r | Stop r => rate_inv lo hi (ro_calls r) (ro_rate r)
  end.
Proof.
  intros (Hlo & Hhi & H0 & Hmono & Hall). unfold rollout_body.
  destruct (act net (ro_state s) (ro_hx s) rec (ro_rate s) (ro_rng s))
    as [[[a lp] hx] g].
  destruct (env_step (ro_env s) a) as [e1 [[st rw] d]].
  destruct (decay_shrinks (ro_rate s) decay H0 decay_pos decay_le_1) as [Hd0 Hd1].
  assert (Hall' : Forall (fun q => (lo <= q)%Q /\ (q <= hi)%Q)
                    (rates (ro_calls s ++
                       [ActCall (training net) (ro_state s) (ro_hx s) rec (ro_rate s)]))).
  { unfold rates. rewrite map_app. apply Forall_app. split; [exact Hall|].
    constructor; [split; assumption|constructor]. }
  destruct d; unfold rate_inv; simpl; unfold rates in *; rewrite map_app; simpl.
  - repeat split; auto.
    + apply nonincreasing_snoc; [exact Hmono|apply Qle_refl].
    + rewrite map_app in Hall'. exact Hall'.
  - repeat split.
    + apply pymax_lower.
    + apply pymax_upper.
      * apply Qle_trans with (ro_rate s); assumption.
      * apply Qle_trans with (ro_rate s); assumption.
    + apply Qle_trans with (ro_rate s * decay)%Q; [exact Hd0|apply pymax_left].
    + apply nonincreasing_snoc; [exact Hmono|].
      apply pymax_upper; assumption.
    + rewrite map_app in Hall'. exact Hall'.
Qed.

End Schedule.

(** *** Fuel *)

Section Fuel.
Context {C : Collaborators}.

Lemma for_nat_ext {S R} (f g : S -> ctl S R) :
  (forall s, f s = g s) -> forall n s, for_nat n f s = for_nat n g s.
Proof.
  intros H n; induction n as [|n IH]; intros s; simpl; [reflexivity|].
  rewrite H. destruct (g s); [apply IH|reflexivity].
Qed.

Lemma early_stopping_step_off self (a : Args) (s : Outer) :
  early_stopping a = false -> early_stopping_step self a s = Ok (Continue s).
Proof.
  intros H. unfold early_stopping_step. rewrite H, andb_false_r. reflexivity.
Qed.

Lemma validation_args_off (a : Args) : early_stopping (validation_args a) = false.
Proof. reflexivity. Qed.

(** The body uses [self] on [validation_args] only. *)
Lemma iteration_ext self self' (a : Args) (s : Outer) :
  (forall e v w, self (validation_args a) e v w = self' (validation_args a) e v w) ->
  iteration self a s = iteration self' a s.
Proof.
  intros H. unfold iteration.
  destruct (train_step a s (rollout a s)) as [[opt w]| |]; simpl; try reflexivity.
  destruct (print_step a (bookkeeping s (rollout a s) opt w)) as [s2| |];
    simpl; try reflexivity.
  unfold early_stopping_step.
  destruct (done s2 && early_stopping a); [|reflexivity].
  destruct (early_stopping_freq a =? 0)%Z; [reflexivity|].
  destruct (completed_episodes_counter s2 mod early_stopping_freq a =? 0)%Z;
    [|reflexivity].
  destruct (val_env s2); [|reflexivity]. now rewrite H.
Qed.

Lemma reinforce_body_ext self self' (a : Args) e v w :
  (forall e v w, self (validation_args a) e v w = self' (validation_args a) e v w) ->
  reinforce_body self a e v w = reinforce_body self' a e v w.
Proof.
  intros H. unfold reinforce_body. rewrite !for_range_nat.
  rewrite (for_nat_ext (fun s => lift_ctl (iteration self a s))
             (fun s => lift_ctl (iteration self' a s))); [reflexivity|].
  intros s. now rewrite (iteration_ext self self').
Qed.

Lemma reinforce_body_off self self' (a : Args) e v w :
  early_stopping a = false ->
  reinforce_body self a e v w = reinforce_body self' a e v w.
Proof.
  intros H. unfold reinforce_body. rewrite !for_range_nat.
  rewrite (for_nat_ext (fun s => lift_ctl (iteration self a s))
             (fun s => lift_ctl (iteration self' a s))); [reflexivity|].
  intros s. unfold iteration.
  destruct (train_step a s (rollout a s)) as [[opt w']| |]; simpl; try reflexivity.
  destruct (print_step a (bookkeeping s (rollout a s) opt w')) as [s2| |];
    simpl; try reflexivity.
  now rewrite !early_stopping_step_off.
Qed.

(** More fuel than two levels changes nothing. *)
Lemma reinforce_fuel_enough (k : nat) (a : Args) e v w :
  reinforce_fuel (2 + k) a e v w = reinforce a e v w.
Proof.
  unfold reinforce. simpl. apply reinforce_body_ext. intros e' v' w'.
  destruct k; [reflexivity|]. simpl.
  apply reinforce_body_off, validation_args_off.
Qed.

Lemma train_step_fuel (a : Args) (s : Outer) (r : Rollout) :
  train_step a s r <> OutOfFuel.
Proof.
  unfold train_step. destruct (train a); [|discriminate].
  unfold get_policy_loss.
  destruct (stack_squeeze (map lp_item (ro_log_probs r))) as [t| |] eqn:E1;
    simpl; try discriminate.
  - destruct (t_mul t (standardize (FloatTensor (ro_rewards r)))) as [t2| |] eqn:E2;
      simpl; try discriminate.
    + destruct optimize; discriminate.
    + unfold t_mul in E2. destruct t; [discriminate|].
      destruct (length l =? _)%nat; [discriminate|].
      destruct l as [|? [|? ?]]; try discriminate;
        destruct (standardize _) as [|? [|? ?]]; discriminate.
  - unfold stack_squeeze in E1. destruct (map _ _) as [|? [|? ?]]; discriminate.
Qed.

Lemma print_step_fuel (a : Args) (s : Outer) : print_step a s <> OutOfFuel.
Proof.
  unfold print_step. destruct (done s && print_res a); [|discriminate].
  destruct (print_freq a =? 0)%Z; [discriminate|].
  destruct (_ =? 0)%Z; discriminate.
Qed.

Lemma regressed_fuel l v : regressed l v <> OutOfFuel.
Proof.
  unfold regressed. destruct l; [discriminate|]. destruct v; [discriminate|].
  destruct (last _ _) as [|? [|? ?]]; discriminate.
Qed.

Lemma iteration_fuel self (a : Args) (s : Outer) :
  (forall e v w, self (validation_args a) e v w <> OutOfFuel) ->
  iteration self a s <> OutOfFuel.
Proof.
  intros H. unfold iteration.
  pose proof (train_step_fuel a s (rollout a s)) as H1.
  destruct (train_step a s (rollout a s)) as [[opt w]| |]; simpl;
    try discriminate; try congruence.
  pose proof (print_step_fuel a (bookkeeping s (rollout a s) opt w)) as H2.
  destruct (print_step a _) as [s2| |]; simpl; try discriminate; try congruence.
  unfold early_stopping_step.
  destruct (done s2 && early_stopping a); [|discriminate].
  destruct (early_stopping_freq a =? 0)%Z; [discriminate|].
  destruct (_ =? 0)%Z; [|discriminate].
  destruct (val_env s2) as [venv|]; [|discriminate].
  specialize (H venv None (world s2)).
  destruct (self (validation_args a) venv None (world s2)) as [o| |]; simpl;
    try discriminate; try congruence.
  pose proof (regressed_fuel (validation_rewards s2) (reward_history o)) as H3.
  destruct (regressed _ _) as [[|]| |]; simpl; try discriminate; congruence.
Qed.

Lemma reinforce_body_fuel self (a : Args) e v w :
  (forall e v w, self (validation_args a) e v w <> OutOfFuel) ->
  reinforce_body self a e v w <> OutOfFuel.
Proof.
  intros H. unfold reinforce_body.
  assert (Hinv := for_range_inv (fun s => lift_ctl (iteration self a s))
                    (fun _ => True) (fun r => r <> OutOfFuel)).
  simpl in Hinv.
  assert (Hbody : forall s : Outer, True ->
            match lift_ctl (iteration self a s) with
            | Continue _ => True
            | Stop r => r <> OutOfFuel
            end).
  { intros s _. pose proof (iteration_fuel self a s H) as Hs.
    destruct (iteration self a s) as [[s1|r]| |]; simpl;
      try exact I; try discriminate; congruence. }
  specialize (Hinv Hbody (num_episodes a) (setup a e v w) I).
  destruct (for_range _ _ _); [discriminate|exact Hinv].
Qed.

(** A call of [reinforce] never runs out of fuel: the model is total. *)
Lemma reinforce_total (a : Args) e v w : reinforce a e v w <> OutOfFuel.
Proof.
  unfold reinforce. simpl. apply reinforce_body_fuel. intros e' v' w'.
  rewrite (reinforce_body_off _ (fun _ _ _ _ => Raise RuntimeError))
    by apply validation_args_off.
  apply reinforce_body_fuel. discriminate.
Qed.

End Fuel.

(** *** One pass of the outer loop *)

Section IterationFacts.
Context {C : Collaborators}.

Lemma print_step_core (a : Args) (s : Outer) :
  match print_step a s with
  | Ok s' =>
      core s' = core s /\ val_env s' = val_env s /\
      validation_rewards s' = validation_rewards s /\
      policy_network (world s') = policy_network (world s) /\
      optimize_calls (world s') = optimize_calls (world s)
  | _ => True
  end.
Proof.
  unfold print_step. destruct (done s && print_res a); [|now repeat split].
  destruct (print_freq a =? 0)%Z; [exact I|].
  destruct (_ =? 0)%Z; now repeat split.
Qed.

Lemma early_stopping_step_core self (a : Args) (s : Outer) :
  match early_stopping_step self a s with
  | Ok (Continue s') | Ok (Stop s') => core s' = core s
  | _ => True
  end.
Proof.
  unfold early_stopping_step. destruct (done s && early_stopping a); [|reflexivity].
  destruct (early_stopping_freq a =? 0)%Z; [exact I|].
  destruct (_ =? 0)%Z; [|reflexivity].
  destruct (val_env s) as [venv|]; [|exact I].
  destruct (self (validation_args a) venv None (world s)) as [o| |]; simpl;
    try exact I.
  destruct (regressed _ _) as [[|]| |]; simpl; try exact I; reflexivity.
Qed.

Lemma iteration_core self (a : Args) (s : Outer) :
  match iteration self a s with
  | Ok (Continue s') | Ok (Stop s') =>
      exists opt w, core s' = core (bookkeeping s (rollout a s) opt w)
  | _ => True
  end.
Proof.
  unfold iteration.
  destruct (train_step a s (rollout a s)) as [[opt w]| |]; simpl; try exact I.
  pose proof (print_step_core a (bookkeeping s (rollout a s) opt w)) as Hp.
  destruct (print_step a _) as [s2| |]; simpl; try exact I.
  destruct Hp as [Hp _].
  pose proof (early_stopping_step_core self a s2) as He.
  destruct (early_stopping_step self a s2) as [[s3|s3]| |]; try exact I;
    exists opt, w; congruence.
Qed.

Lemma bookkeeping_calls (s : Outer) r opt w :
  act_calls (bookkeeping s r opt w) = ro_calls r /\
  cur_exploration_rate (bookkeeping s r opt w) = ro_rate r /\
  cur_exploration_min (bookkeeping s r opt w) = cur_exploration_min s.
Proof.
  unfold bookkeeping. destruct (ro_done r); [destruct env_reset|]; now repeat split.
Qed.

Lemma bookkeeping_histories (s : Outer) r opt w :
  let s' := bookkeeping s r opt w in
  if ro_done r then
    reward_history s' = reward_history s ++ [pysum (total_rewards s ++ ro_rewards r)] /\
    action_history s' = action_history s ++ [total_actions s ++ ro_actions r] /\
    total_rewards s' = [] /\ total_actions s' = [] /\
    completed_episodes_counter s' = (completed_episodes_counter s + 1)%Z
  else
    reward_history s' = reward_history s /\
    action_history s' = action_history s /\
    total_rewards s' = total_rewards s ++ ro_rewards r /\
    total_actions s' = total_actions s ++ ro_actions r /\
    completed_episodes_counter s' = completed_episodes_counter s.
Proof.
  unfold bookkeeping. destruct (ro_done r); [destruct env_reset|]; now repeat split.
Qed.

(** The inner loop in terms of single passes. *)
Lemma rollout_nat (a : Args) (s : Outer) :
  rollout a s =
  match for_nat (Z.to_nat (max_episode_length a))
          (rollout_body (policy_network (world s)) (recurrent a)
             (exploration_decay a) (cur_exploration_min s))
          (MkRollout (env s) (rng (world s)) (state s) None (done s) [] [] []
             (cur_exploration_rate s) (act_calls s)) with
  | Continue r => r
  | Stop r => r
  end.
Proof. unfold rollout. now rewrite for_range_nat. Qed.

End IterationFacts.

(** *** Trajectories *)

Section Trajectories.
Context {C : Collaborators}.

(** C7. The inner loop leaves at the first [done] without recording that
    step: the rewards recorded are those of the steps the environment took
    on the recorded actions, none of which was terminal; when the loop was
    left on [done], the terminal step is one more step, taken after them and
    recorded nowhere; otherwise the loop ran [max_episode_length] passes.
    In both cases the action, reward and log-probability lists have the same
    length.  The recorded actions and log-probabilities are, in order, what
    the calls of [act] of this run of the loop returned, one call per
    recorded step; the call of the terminal step, when there is one, comes
    after them, and what it returned is in none of the lists. *)
Theorem rollout_stops_before_terminal_step (a : Args) (s : Outer) :
  let r := rollout a s in
  length (ro_rewards r) = length (ro_actions r) /\
  length (ro_log_probs r) = length (ro_rewards r) /\
  snd (replay (env s) (ro_actions r)) = map (fun x => (x, false)) (ro_rewards r) /\
  ((ro_done r = true /\
    (Z.of_nat (length (ro_actions r)) < max_episode_length a)%Z /\
    exists a_last rw,
      env_step (fst (replay (env s) (ro_actions r))) a_last =
      (ro_env r, (ro_state r, rw, true)))
   \/
   (Z.of_nat (length (ro_actions r)) = Z.max 0 (max_episode_length a) /\
    ro_env r = fst (replay (env s) (ro_actions r)) /\
    ((max_episode_length a <= 0)%Z \/ ro_done r = false))) /\
  (exists calls rest,
     ro_calls r = act_calls s ++ calls ++ rest /\
     recorded_from (policy_network (world s)) calls
       (ro_actions r) (ro_log_probs r) /\
     ((rest = [] /\ ro_env r = fst (replay (env s) (ro_actions r)))
      \/
      (exists c a_last lp rw,
         rest = [c] /\
         returned_by (policy_network (world s)) c a_last lp /\
         env_step (fst (replay (env s) (ro_actions r))) a_last =
         (ro_env r, (ro_state r, rw, true))))).
Proof.
  intros r. subst r. rewrite rollout_nat.
  match goal with |- context [for_nat ?n (rollout_body ?net ?rc ?dc ?em) ?s0] =>
    pose proof (rollout_loop_spec net rc dc em n s0) as H;
    pose proof (rollout_loop_calls net rc dc em n s0) as Hc;
    destruct (for_nat n (rollout_body net rc dc em) s0) as [r|r] end.
  - destruct H as (acts & rws & lps & Htr & Hlen & Henv & Hdone & _).
    destruct Htr as (Ha & Hr & Hl & Hl1 & Hl2 & Hrep).
    destruct Hc as (acts' & lps' & calls & Ha' & Hl' & Hcalls & Hrec).
    simpl in *. subst acts' lps'. rewrite Ha, Hl in Hrec.
    rewrite Ha, Hr, Hl. repeat split; try congruence.
    + right. repeat split; auto.
      * rewrite Hlen. lia.
      * destruct (Z.to_nat (max_episode_length a)) eqn:E; [left; lia|].
        right. apply Hdone. lia.
    + exists calls, []. rewrite app_nil_r.
      split; [exact Hcalls|]. split; [exact Hrec|].
      left. split; [reflexivity|exact Henv].
  - destruct H as (acts & rws & lps & Htr & Hlen & Hdone & a_last & rw & Hlast).
    destruct Htr as (Ha & Hr & Hl & Hl1 & Hl2 & Hrep).
    destruct Hc as (acts' & lps' & calls & c & a_last' & lp' & rw' &
                    Ha' & Hl' & Hcalls & Hrec & Hret & Hterm).
    simpl in *. subst acts' lps'. rewrite Ha, Hl in Hrec.
    rewrite Ha, Hr, Hl. repeat split; try congruence.
    + left. repeat split; auto; [lia|]. exists a_last, rw. exact Hlast.
    + rewrite Ha in Hterm.
      exists calls, [c]. split; [exact Hcalls|]. split; [exact Hrec|].
      right. exists c, a_last', lp', rw'. repeat split; assumption.
Qed.

End Trajectories.

(** *** Invariants of a call *)

Section CallInvariants.
Context {C : Collaborators}.

(** A property of the outer state that holds after [setup] and that every
    pass keeps holds of whatever the call returns. *)
Lemma reinforce_body_inv self (a : Args) e v w (I : Outer -> Prop) :
  I (setup a e v w) ->
  (forall s, I s ->
     match iteration self a s with
     | Ok (Continue s') | Ok (Stop s') => I s'
     | _ => True
     end) ->
  match reinforce_body self a e v w with Ok o => I o | _ => True end.
Proof.
  intros H0 Hstep. unfold reinforce_body.
  pose proof (for_range_inv (fun s => lift_ctl (iteration self a s)) I
                (fun r => match r with Ok o => I o | _ => True end)) as Hinv.
  simpl in Hinv.
  assert (Hbody : forall s, I s ->
            match lift_ctl (iteration self a s) with
            | Continue s1 => I s1
            | Stop r => match r with Ok o => I o | _ => True end
            end).
  { intros s Hs. specialize (Hstep s Hs).
    destruct (iteration self a s) as [[s1|s1]| |]; simpl; auto. }
  specialize (Hinv Hbody (num_episodes a) (setup a e v w) H0).
  destruct (for_range _ _ _) as [s|r]; [exact Hinv|].
  destruct r; auto.
Qed.

Lemma setup_fields (a : Args) e v w :
  let s := setup a e v w in
  reward_history s = [] /\ action_history s = [] /\
  total_rewards s = [] /\ total_actions s = [] /\
  validation_rewards s = [] /\ completed_episodes_counter s = 0%Z /\
  done s = false /\ act_calls s = [] /\ val_env s = v /\
  cur_exploration_rate s = effective_rate a /\
  cur_exploration_min s = effective_min a /\
  policy_network (world s) = Network (parameters (policy_network w)) (train a) /\
  optimize_calls (world s) = optimize_calls w.
Proof.
  unfold setup, effective_rate, effective_min.
  destruct (env_reset e) as [e1 st1]. destruct (env_reset e1) as [e2 st2].
  destruct (train a); simpl; now repeat split.
Qed.

Lemma rollout_calls_loop net rec decay emin (n : nat) (s0 : Rollout) :
  match for_nat n (rollout_body net rec decay emin) s0 with
  | Continue r | Stop r =>
      exists new,
        ro_calls r = ro_calls s0 ++ new /\
        ((n = O /\ new = []) \/
         exists c rest, new = c :: rest /\ call_hx c = ro_hx s0 /\
                        call_rate c = ro_rate s0 /\ call_state c = ro_state s0)
  end.
Proof.
  revert s0; induction n as [|n IH]; intros s0; simpl.
  - exists []. rewrite app_nil_r. auto.
  - unfold rollout_body at 1.
    destruct (act net (ro_state s0) (ro_hx s0) rec (ro_rate s0) (ro_rng s0))
      as [[[a lp] hx] g].
    destruct (env_step (ro_env s0) a) as [e1 [[st rw] d]].
    destruct d.
    + eexists. split; [reflexivity|]. right. eexists _, _. now repeat split.
    + match goal with |- match for_nat n _ ?s1 with _ => _ end =>
        specialize (IH s1); destruct (for_nat n _ s1) as [r|r] end;
        destruct IH as (new & Hnew & _); simpl in Hnew; rewrite Hnew,
          <- app_assoc; (eexists; split; [reflexivity|]); right;
          eexists _, _; now repeat split.
Qed.

(** C10. Every pass of the outer loop starts its inner loop with [hx] set
    to [None]: the first call of [act] made in the pass, if there is one,
    gets no hidden state, whatever the state the previous pass ended in (a
    truncated episode included); and the calls of [act] of the pass are
    those of its inner loop. *)
Theorem hidden_state_reset_each_iteration self (a : Args) (s : Outer) :
  (exists new,
     ro_calls (rollout a s) = act_calls s ++ new /\
     (((max_episode_length a <= 0)%Z /\ new = []) \/
      exists c rest, new = c :: rest /\ call_hx c = None)) /\
  match iteration self a s with
  | Ok (Continue s') | Ok (Stop s') => act_calls s' = ro_calls (rollout a s)
  | _ => True
  end.
Proof.
  split.
  - rewrite rollout_nat.
    match goal with |- context [for_nat ?n (rollout_body ?net ?rc ?dc ?em) ?s0] =>
      pose proof (rollout_calls_loop net rc dc em n s0) as H;
      destruct (for_nat n (rollout_body net rc dc em) s0) as [r|r] end;
      destruct H as (new & Hnew & Hcase); exists new; (split; [exact Hnew|]);
      (destruct Hcase as [[Hn ->]|(c & rest & -> & Hhx & _)];
       [left; split; [lia|reflexivity]|right; exists c, rest; now split]).
  - pose proof (iteration_core self a s) as H.
    destruct (iteration self a s) as [[s'|s']| |]; try exact I;
      destruct H as (opt & w & H);
      destruct (bookkeeping_calls s (rollout a s) opt w) as (Hc & _);
      unfold core in H; congruence.
Qed.

End CallInvariants.

(** *** The exploration rate over a call *)

Section ExplorationRate.
Context {C : Collaborators}.

Lemma nonincreasing_single (x : Q) : nonincreasing [x].
Proof.
  intros i j u v Hij Hi Hj.
  destruct j as [|j]; [|now destruct j].
  assert (i = O) by lia. subst i. simpl in *.
  injection Hi as <-. injection Hj as <-. apply Qle_refl.
Qed.

Lemma rollout_rate_inv (a : Args) (s : Outer) (hi : Q) :
  (0 < exploration_decay a)%Q -> (exploration_decay a <= 1)%Q ->
  rate_inv (cur_exploration_min s) hi (act_calls s) (cur_exploration_rate s) ->
  rate_inv (cur_exploration_min s) hi (ro_calls (rollout a s)) (ro_rate (rollout a s)).
Proof.
  intros Hd0 Hd1 Hinv. rewrite rollout_nat.
  match goal with |- context [for_nat ?n ?b ?s0] =>
    pose proof (for_nat_inv b
      (fun r => rate_inv (cur_exploration_min s) hi (ro_calls r) (ro_rate r))
      (fun r => rate_inv (cur_exploration_min s) hi (ro_calls r) (ro_rate r)))
      as H;
    specialize (H (fun r Hr =>
      rollout_body_rate_inv _ _ _ _ hi Hd0 Hd1 r Hr) n s0 Hinv);
    destruct (for_nat n b s0) end; exact H.
Qed.

(** C8, as the code has it. With the decay factor in (0,1] and an initial
    rate that is not negative and at least [exploration_min], the rates
    handed to [act] during a call never go up from one call of [act] to the
    next, the rate left at the end is at most all of them, and each lies
    between the minimum and the initial rate, these two being the configured
    ones when [train] is true and both 0 when it is false (lines 67-69). *)
Theorem exploration_rate_bounded_nonincreasing (a : Args) e venv w :
  (0 < exploration_decay a)%Q -> (exploration_decay a <= 1)%Q ->
  (0 <= effective_rate a)%Q -> (effective_min a <= effective_rate a)%Q ->
  match reinforce a e venv w with
  | Ok o =>
      nonincreasing (rates (act_calls o) ++ [cur_exploration_rate o]) /\
      Forall (fun q => (effective_min a <= q)%Q /\ (q <= effective_rate a)%Q)
        (rates (act_calls o)) /\
      (effective_min a <= cur_exploration_rate o)%Q /\
      (cur_exploration_rate o <= effective_rate a)%Q
  | _ => True
  end.
Proof.
  intros Hd0 Hd1 H0 Hle.
  pose proof (reinforce_body_inv (reinforce_fuel 1) a e venv w
    (fun s => cur_exploration_min s = effective_min a /\
              rate_inv (effective_min a) (effective_rate a)
                (act_calls s) (cur_exploration_rate s))) as H.
  change (reinforce a e venv w)
    with (reinforce_body (reinforce_fuel 1) a e venv w).
  destruct (reinforce_body (reinforce_fuel 1) a e venv w) as [o| |]; try exact I.
  destruct H as (_ & Hlo & Hhi & _ & Hmono & Hall); [| |now repeat split].
  - destruct (setup_fields a e venv w) as
      (_ & _ & _ & _ & _ & _ & _ & Hc & _ & Hr & Hm & _).
    rewrite Hc, Hr, Hm. split; [reflexivity|].
    split; [exact Hle|]. split; [apply Qle_refl|]. split; [exact H0|].
    split; [apply nonincreasing_single|constructor].
  - intros s [Hm Hinv].
    pose proof (iteration_core (reinforce_fuel 1) a s) as Hcore.
    destruct (iteration (reinforce_fuel 1) a s) as [[s'|s']| |]; try exact I;
      destruct Hcore as (opt & w' & Hcore);
      destruct (bookkeeping_calls s (rollout a s) opt w') as (Hc & Hr & Hmin);
      unfold core in Hcore;
      assert (E1 : act_calls s' = ro_calls (rollout a s)) by congruence;
      assert (E2 : cur_exploration_rate s' = ro_rate (rollout a s)) by congruence;
      assert (E3 : cur_exploration_min s' = cur_exploration_min s) by congruence;
      rewrite E1, E2, E3; (split; [exact Hm|]);
      rewrite <- Hm; apply rollout_rate_inv; auto; rewrite Hm; exact Hinv.
Qed.

End ExplorationRate.

(** *** Evaluation mode *)

Section EvaluationMode.
Context {C : Collaborators}.

Lemma untrained_trans (w1 w2 w3 : World) :
  untrained w1 w2 -> untrained w2 w3 -> untrained w1 w3.
Proof. intros [A B] [A' B']. split; congruence. Qed.

Lemma bookkeeping_world (s : Outer) r opt w :
  world (bookkeeping s r opt w) = w /\
  val_env (bookkeeping s r opt w) = val_env s /\
  validation_rewards (bookkeeping s r opt w) = validation_rewards s.
Proof.
  unfold bookkeeping. destruct (ro_done r); [destruct env_reset|]; now repeat split.
Qed.

Lemma iteration_untrained self (a : Args) (s : Outer) :
  train a = false ->
  (forall e v w,
     match self (validation_args a) e v w with
     | Ok o => untrained w (world o)
     | _ => True
     end) ->
  match iteration self a s with
  | Ok (Continue s') | Ok (Stop s') => untrained (world s) (world s')
  | _ => True
  end.
Proof.
  intros Ht Hself. unfold iteration, train_step. rewrite Ht. simpl.
  match goal with |- context [bookkeeping s ?r ?o ?w] =>
    pose proof (print_step_core a (bookkeeping s r o w)) as Hp;
    destruct (bookkeeping_world s r o w) as (Hw & _);
    destruct (print_step a (bookkeeping s r o w)) as [s2| |] end;
    simpl; try exact I.
  destruct Hp as (_ & _ & _ & Hn & Ho). rewrite Hw in Hn, Ho. simpl in Hn, Ho.
  assert (H2 : untrained (world s) (world s2)) by (split; congruence).
  unfold early_stopping_step.
  destruct (done s2 && early_stopping a); [|exact H2].
  destruct (early_stopping_freq a =? 0)%Z; [exact I|].
  destruct (_ =? 0)%Z; [|exact H2].
  destruct (val_env s2) as [venv|]; [|exact I].
  specialize (Hself venv None (world s2)).
  destruct (self (validation_args a) venv None (world s2)) as [o| |]; simpl;
    try exact I.
  destruct (regressed _ _) as [[|]| |]; simpl; try exact I;
    now apply untrained_trans with (world s2).
Qed.

Lemma reinforce_body_untrained self (a : Args) e v w :
  train a = false ->
  (forall e v w,
     match self (validation_args a) e v w with
     | Ok o => untrained w (world o)
     | _ => True
     end) ->
  match reinforce_body self a e v w with
  | Ok o => untrained w (world o)
  | _ => True
  end.
Proof.
  intros Ht Hself.
  apply (reinforce_body_inv self a e v w (fun s => untrained w (world s))).
  - destruct (setup_fields a e v w) as (_&_&_&_&_&_&_&_&_&_&_& Hn & Ho).
    split; [exact Ho|]. now rewrite Hn.
  - intros s Hs. pose proof (iteration_untrained self a s Ht Hself) as H.
    destruct (iteration self a s) as [[s'|s']| |]; try exact I;
      now apply untrained_trans with (world s).
Qed.

Lemma pymax_zero (x decay : Q) : (x == 0)%Q -> (pymax (x * decay) 0 == 0)%Q.
Proof.
  intros Hx. assert (Hz : (x * decay == 0)%Q) by (rewrite Hx; apply Qmult_0_l).
  unfold pymax. destruct (Qle_bool 0 (x * decay)); [exact Hz|reflexivity].
Qed.

Lemma rollout_body_zero_rate net rec decay (s : Rollout) :
  (ro_rate s == 0)%Q /\ Forall (fun c => (call_rate c == 0)%Q) (ro_calls s) ->
  match rollout_body net rec decay 0%Q s with
  | Continue r | Stop r =>
      (ro_rate r == 0)%Q /\ Forall (fun c => (call_rate c == 0)%Q) (ro_calls r)
  end.
Proof.
  intros [Hr Hall]. unfold rollout_body.
  destruct (act net (ro_state s) (ro_hx s) rec (ro_rate s) (ro_rng s))
    as [[[a lp] hx] g].
  destruct (env_step (ro_env s) a) as [e1 [[st rw] d]].
  assert (Hall' : Forall (fun c => (call_rate c == 0)%Q)
            (ro_calls s ++
             [ActCall (training net) (ro_state s) (ro_hx s) rec (ro_rate s)])).
  { apply Forall_app. split; [exact Hall|]. constructor; [exact Hr|constructor]. }
  destruct d; simpl; split; auto. now apply pymax_zero.
Qed.

(** C4, as the code has it. In a call with [train=False] every call of
    [act] is handed an exploration rate equal to 0, whatever the configured
    initial rate and whatever the configured [exploration_min] (line 68
    overwrites it with 0); [optimize] is never called, in the call or in a
    validation call nested in it, and the parameters of the policy network
    are the same after the call as before. *)
Theorem eval_mode_zero_exploration_no_update (a : Args) e venv w :
  train a = false ->
  match reinforce a e venv w with
  | Ok o =>
      Forall (fun c => (call_rate c == 0)%Q) (act_calls o) /\
      optimize_calls (world o) = optimize_calls w /\
      parameters (policy_network (world o)) = parameters (policy_network w)
  | _ => True
  end.
Proof.
  intros Ht.
  assert (Hw : match reinforce a e venv w with
               | Ok o => untrained w (world o) | _ => True end).
  { unfold reinforce. simpl. apply reinforce_body_untrained; [exact Ht|].
    intros e' v' w'. apply reinforce_body_untrained; [reflexivity|].
    intros; exact I. }
  pose proof (reinforce_body_inv (reinforce_fuel 1) a e venv w
    (fun s => cur_exploration_min s = 0%Q /\ (cur_exploration_rate s == 0)%Q /\
              Forall (fun c => (call_rate c == 0)%Q) (act_calls s))) as H.
  change (reinforce a e venv w)
    with (reinforce_body (reinforce_fuel 1) a e venv w) in *.
  destruct (reinforce_body (reinforce_fuel 1) a e venv w) as [o| |]; try exact I.
  destruct Hw as [Ho Hp].
  destruct H as (_ & _ & Hall); [| |now repeat split].
  - destruct (setup_fields a e venv w) as
      (_ & _ & _ & _ & _ & _ & _ & Hc & _ & Hr & Hm & _).
    rewrite Hc, Hr, Hm. unfold effective_rate, effective_min. rewrite Ht.
    split; [reflexivity|]. split; [reflexivity|constructor].
  - intros s (Hm & Hr & Hall).
    assert (Hro : (ro_rate (rollout a s) == 0)%Q /\
                  Forall (fun c => (call_rate c == 0)%Q) (ro_calls (rollout a s))).
    { rewrite rollout_nat, Hm.
      match goal with |- context [for_nat ?n ?b ?s0] =>
        pose proof (for_nat_inv b
          (fun r => (ro_rate r == 0)%Q /\
                    Forall (fun c => (call_rate c == 0)%Q) (ro_calls r))
          (fun r => (ro_rate r == 0)%Q /\
                    Forall (fun c => (call_rate c == 0)%Q) (ro_calls r))
          (rollout_body_zero_rate _ _ _) n s0 (conj Hr Hall)) as H;
        destruct (for_nat n b s0) end; exact H. }
    pose proof (iteration_core (reinforce_fuel 1) a s) as Hcore.
    destruct (iteration (reinforce_fuel 1) a s) as [[s'|s']| |]; try exact I;
      destruct Hcore as (opt & w' & Hcore);
      destruct (bookkeeping_calls s (rollout a s) opt w') as (Hc & Hr' & Hmin);
      unfold core in Hcore;
      assert (E1 : act_calls s' = ro_calls (rollout a s)) by congruence;
      assert (E2 : cur_exploration_rate s' = ro_rate (rollout a s)) by congruence;
      assert (E3 : cur_exploration_min s' = cur_exploration_min s) by congruence;
      rewrite E1, E2, E3; (split; [exact Hm|exact Hro]).
Qed.

End EvaluationMode.

(** *** The two histories *)

Section Histories.
Context {C : Collaborators}.

Lemma iteration_histories self (a : Args) (s : Outer) :
  match iteration self a s with
  | Ok (Continue s') | Ok (Stop s') =>
      if ro_done (rollout a s) then
        reward_history s' =
          reward_history s ++
          [pysum (total_rewards s ++ ro_rewards (rollout a s))] /\
        action_history s' =
          action_history s ++ [total_actions s ++ ro_actions (rollout a s)] /\
        total_rewards s' = [] /\ total_actions s' = [] /\
        completed_episodes_counter s' = (completed_episodes_counter s + 1)%Z
      else
        reward_history s' = reward_history s /\
        action_history s' = action_history s /\
        total_rewards s' = total_rewards s ++ ro_rewards (rollout a s) /\
        total_actions s' = total_actions s ++ ro_actions (rollout a s) /\
        completed_episodes_counter s' = completed_episodes_counter s
  | _ => True
  end.
Proof.
  pose proof (iteration_core self a s) as Hcore.
  destruct (iteration self a s) as [[s'|s']| |]; try exact I;
    destruct Hcore as (opt & w & Hcore);
    pose proof (bookkeeping_histories s (rollout a s) opt w) as Hb;
    simpl in Hb; unfold core in Hcore;
    injection Hcore as _ _ E1 E2 E3 E4 E5 _ _ _ _ _;
    rewrite E1, E2, E3, E4, E5; exact Hb.
Qed.

Lemma iteration_aligned self (a : Args) (s : Outer) :
  histories_aligned s ->
  match iteration self a s with
  | Ok (Continue s') | Ok (Stop s') => histories_aligned s'
  | _ => True
  end.
Proof.
  intros [H1 H2]. pose proof (iteration_histories self a s) as H.
  destruct (iteration self a s) as [[s'|s']| |]; try exact I;
    unfold histories_aligned;
    (destruct (ro_done (rollout a s));
     destruct H as (E1 & E2 & _ & _ & E5); rewrite E1, E2, E5;
     [rewrite !length_app; simpl; split; lia|split; assumption]).
Qed.

Lemma replay_app (e : Env) (a1 a2 : list Action) :
  replay e (a1 ++ a2) =
  (fst (replay (fst (replay e a1)) a2),
   snd (replay e a1) ++ snd (replay (fst (replay e a1)) a2)).
Proof.
  revert e; induction a1 as [|x a1 IH]; intros e.
  - cbn [app replay fst snd]. now destruct (replay e a2).
  - cbn [app replay]. destruct (env_step e x) as [e1 [[st rw] d]].
    rewrite IH. destruct (replay e1 a1) as [e2 l]. reflexivity.
Qed.

Lemma steps_through_app (e0 e1 e2 : Env) (a1 a2 : list Action) (r1 r2 : list Q) :
  steps_through e0 a1 r1 e1 -> steps_through e1 a2 r2 e2 ->
  steps_through e0 (a1 ++ a2) (r1 ++ r2) e2.
Proof.
  intros [L1 H1] [L2 H2]. split.
  - rewrite !length_app. lia.
  - rewrite replay_app, H1. cbn [fst snd]. rewrite H2. cbn [fst snd].
    now rewrite map_app.
Qed.

(** What one run of the inner loop does to the environment. *)
Lemma rollout_steps (a : Args) (s : Outer) :
  let r := rollout a s in
  exists e_end,
    steps_through (env s) (ro_actions r) (ro_rewards r) e_end /\
    ((ro_done r = true /\ (0 < max_episode_length a)%Z /\
      exists a_last,
        snd (snd (env_step e_end a_last)) = true /\
        fst (env_step e_end a_last) = ro_env r)
     \/
     (ro_env r = e_end /\
      (ro_done r = false \/
       ((max_episode_length a <= 0)%Z /\ ro_done r = done s)))).
Proof.
  intros r. subst r. rewrite rollout_nat.
  match goal with |- context [for_nat ?n (rollout_body ?net ?rc ?dc ?em) ?s0] =>
    pose proof (rollout_loop_spec net rc dc em n s0) as H;
    destruct (for_nat n (rollout_body net rc dc em) s0) as [r|r] end.
  - destruct H as (acts & rws & lps & Htr & Hlen & Henv & Hdone & Hz).
    destruct Htr as (Ha & Hr & Hl & Hl1 & Hl2 & Hrep).
    cbn [ro_actions ro_rewards ro_env app] in Ha, Hr, Hrep, Henv.
    exists (fst (replay (env s) acts)). rewrite Ha, Hr. split.
    + split; [exact Hl1|]. rewrite <- Hrep. apply surjective_pairing.
    + right. split; [exact Henv|].
      destruct (Z.to_nat (max_episode_length a)) eqn:E.
      * right. split; [lia|]. now rewrite (Hz eq_refl).
      * left. apply Hdone. lia.
  - destruct H as (acts & rws & lps & Htr & Hlen & Hdone & a_last & rw & Hlast).
    destruct Htr as (Ha & Hr & Hl & Hl1 & Hl2 & Hrep).
    cbn [ro_actions ro_rewards ro_env app] in Ha, Hr, Hrep, Hlast.
    exists (fst (replay (env s) acts)). rewrite Ha, Hr. split.
    + split; [exact Hl1|]. rewrite <- Hrep. apply surjective_pairing.
    + left. split; [exact Hdone|]. split; [lia|].
      exists a_last. now rewrite Hlast.
Qed.

(** A pass of the outer loop keeps the histories made of completed episodes
    and the running totals those of the episode in progress.  [done] can be
    left over from an earlier pass only where the inner loop has no pass at
    all, and then it has never been set. *)
Lemma iteration_episodes self (a : Args) (s : Outer) :
  episodes_recorded s /\ ((max_episode_length a <= 0)%Z -> done s = false) ->
  match iteration self a s with
  | Ok (Continue s') | Ok (Stop s') =>
      episodes_recorded s' /\ ((max_episode_length a <= 0)%Z -> done s' = false)
  | _ => True
  end.
Proof.
  intros [[Hh (e_prev & Hrun)] Hstale].
  pose proof (iteration_core self a s) as Hcore.
  destruct (rollout_steps a s) as (e_end & Hsteps & Hend).
  assert (Hbook : forall opt w,
            let b := bookkeeping s (rollout a s) opt w in
            episodes_recorded b /\
            ((max_episode_length a <= 0)%Z -> done b = false)).
  { intros opt w. unfold bookkeeping.
    destruct Hend as [(Hd & Hpos & a_last & Hlast & Hnext)|(Henv & Hd)].
    - rewrite Hd. destruct (env_reset (ro_env (rollout a s))) as [e1 st1] eqn:Hreset.
      cbn [episodes_recorded action_history reward_history total_actions
           total_rewards env done]. unfold episodes_recorded.
      cbn [action_history reward_history total_actions total_rewards env done].
      split; [split|intros; lia].
      + apply Forall2_app; [exact Hh|]. constructor; [|constructor].
        exists e_prev, (total_rewards s ++ ro_rewards (rollout a s)), e_end, a_last.
        split; [|split; [reflexivity|exact Hlast]].
        eapply steps_through_app; eassumption.
      + exists (ro_env (rollout a s)). rewrite Hreset. split; reflexivity.
    - assert (Hf : ro_done (rollout a s) = false).
      { destruct Hd as [Hd|[Hle Hd]]; [exact Hd|]. rewrite Hd. now apply Hstale. }
      rewrite Hf. unfold episodes_recorded.
      cbn [action_history reward_history total_actions total_rewards env done].
      split; [split|reflexivity].
      + exact Hh.
      + exists e_prev. rewrite Henv. eapply steps_through_app; eassumption. }
  destruct (iteration self a s) as [[s'|s']| |]; try exact I;
    destruct Hcore as (opt & w & Hcore);
    specialize (Hbook opt w); cbv zeta in Hbook;
    unfold core in Hcore;
    injection Hcore as E0 _ E1 E2 E3 E4 _ E6 _ _ _ _;
    unfold episodes_recorded in *;
    rewrite E0, E1, E2, E3, E4, E6; exact Hbook.
Qed.

(** C9. Between any two passes of the outer loop, and in what the call
    returns, [reward_history] and [action_history] have the same length,
    which is the number of completed episodes, and every pair of entries is
    the record of one completed episode: the actions taken from a [reset]
    up to, and without, the terminal step, and the sum of the rewards they
    earned.  Both histories and both running totals are empty when the loop
    starts.  A pass whose inner loop ends on [done] appends to each history
    the entry of the episode just completed and empties the running totals;
    a pass that ends without [done] appends nothing: what it collected is
    added to the running totals, which are not returned, and reaches a
    history only if a later pass completes the episode. *)
Theorem histories_stay_aligned (a : Args) e venv w :
  (forall j : nat,
     match for_nat j (fun s => lift_ctl (iteration (reinforce_fuel 1) a s))
             (setup a e venv w) with
     | Continue s | Stop (Ok s) => histories_aligned s /\ episodes_recorded s
     | Stop _ => True
     end) /\
  match reinforce a e venv w with
  | Ok o =>
      length (fst (returned o)) = length (snd (returned o)) /\
      Z.of_nat (length (fst (returned o))) = completed_episodes_counter o /\
      Forall2 completed_episode (snd (returned o)) (fst (returned o))
  | _ => True
  end /\
  (reward_history (setup a e venv w) = [] /\
   action_history (setup a e venv w) = [] /\
   total_rewards (setup a e venv w) = [] /\
   total_actions (setup a e venv w) = []) /\
  (forall self (s : Outer),
     match iteration self a s with
     | Ok (Continue s') | Ok (Stop s') =>
         if ro_done (rollout a s) then
           reward_history s' =
             reward_history s ++
             [pysum (total_rewards s ++ ro_rewards (rollout a s))] /\
           action_history s' =
             action_history s ++ [total_actions s ++ ro_actions (rollout a s)] /\
           total_rewards s' = [] /\ total_actions s' = []
         else
           reward_history s' = reward_history s /\
           action_history s' = action_history s /\
           total_rewards s' = total_rewards s ++ ro_rewards (rollout a s) /\
           total_actions s' = total_actions s ++ ro_actions (rollout a s)
     | _ => True
     end).
Proof.
  set (Inv := fun s : Outer =>
              histories_aligned s /\ episodes_recorded s /\
              ((max_episode_length a <= 0)%Z -> done s = false)).
  destruct (setup_fields a e venv w)
    as (E1 & E2 & E3 & E4 & _ & E5 & E6 & _).
  assert (H0 : Inv (setup a e venv w)).
  { unfold Inv, histories_aligned, episodes_recorded.
    rewrite E1, E2, E3, E4, E5, E6. repeat split.
    - constructor.
    - exists (fst (env_reset e)). unfold setup.
      destruct (env_reset e) as [e1 st1]. cbn [fst].
      destruct (env_reset e1) as [e2 st2]. split; reflexivity. }
  assert (Hstep : forall self s, Inv s ->
            match iteration self a s with
            | Ok (Continue s') | Ok (Stop s') => Inv s'
            | _ => True
            end).
  { intros self s (Ha & He & Hs).
    pose proof (iteration_aligned self a s Ha) as Hi.
    pose proof (iteration_episodes self a s (conj He Hs)) as Hj.
    destruct (iteration self a s) as [[s'|s']| |]; try exact I;
      (split; [exact Hi|exact Hj]). }
  split; [|split; [|split]].
  - intros j.
    pose proof (for_nat_inv (fun s => lift_ctl (iteration (reinforce_fuel 1) a s))
      Inv (fun r => match r with Ok s => Inv s | _ => True end)) as H.
    cbv beta in H.
    assert (Hbody : forall s, Inv s ->
              match lift_ctl (iteration (reinforce_fuel 1) a s) with
              | Continue s1 => Inv s1
              | Stop r => match r with Ok o => Inv o | _ => True end
              end).
    { intros s Hs. specialize (Hstep (reinforce_fuel 1) s Hs).
      destruct (iteration (reinforce_fuel 1) a s) as [[s1|s1]| |]; simpl; auto. }
    specialize (H Hbody j _ H0).
    destruct (for_nat j _ _) as [s|[s| |]]; auto;
      destruct H as (Ha & He & _); split; assumption.
  - pose proof (reinforce_body_inv (reinforce_fuel 1) a e venv w Inv H0
                  (Hstep (reinforce_fuel 1))) as H.
    change (reinforce a e venv w)
      with (reinforce_body (reinforce_fuel 1) a e venv w).
    destruct (reinforce_body (reinforce_fuel 1) a e venv w) as [o| |]; auto.
    destruct H as ([Ha1 Ha2] & [He _] & _). unfold returned. cbn [fst snd].
    repeat split; assumption.
  - repeat split; assumption.
  - intros self s. pose proof (iteration_histories self a s) as H.
    destruct (iteration self a s) as [[s'|s']| |]; try exact I;
      destruct (ro_done (rollout a s));
      destruct H as (F1 & F2 & F3 & F4 & _); repeat split; assumption.
Qed.

End Histories.

(** *** Scripted episodes *)

Section ScriptedEpisodes.
Context {C : Collaborators}.

Lemma rollout_script net rec decay emin (rs : list Q) :
  forall (n : nat) (s0 : Rollout),
    runs_script rs (ro_env s0) -> (length rs < n)%nat ->
    exists r acts lps,
      for_nat n (rollout_body net rec decay emin) s0 = Stop r /\
      ro_done r = true /\
      ro_rewards r = ro_rewards s0 ++ rs /\
      ro_actions r = ro_actions s0 ++ acts /\ length acts = length rs /\
      ro_log_probs r = ro_log_probs s0 ++ lps /\ length lps = length rs.
Proof.
  induction rs as [|x rs IH]; intros n s0 Hscript Hn;
    (destruct n as [|n]; [simpl in Hn; lia|]); simpl for_nat;
    unfold rollout_body at 1;
    destruct (act net (ro_state s0) (ro_hx s0) rec (ro_rate s0) (ro_rng s0))
      as [[[a lp] hx] g]; simpl in Hscript; specialize (Hscript a);
    destruct (env_step (ro_env s0) a) as [e1 [[st rw] d]] eqn:Hstep;
    simpl in Hscript.
  - subst d. eexists _, [], []. simpl. rewrite !app_nil_r. now repeat split.
  - destruct Hscript as [Heq Hrest]. injection Heq as -> ->.
    match goal with |- context [for_nat n _ ?s1] =>
      destruct (IH n s1 Hrest ltac:(simpl in Hn; lia))
        as (r & acts & lps & Hfor & Hdone & Hr & Ha & Hla & Hl & Hll) end.
    simpl in *. exists r, (a :: acts), (lp :: lps). rewrite Hfor.
    rewrite Hr, Ha, Hl, <- !app_assoc. simpl. repeat split; auto.
Qed.

Lemma standardize_length (t : list tval) : length (standardize t) = length t.
Proof. unfold standardize. apply length_map. Qed.

Lemma t_mul_same_length (l r : list tval) :
  length l = length r -> t_mul (Vec l) r = Ok (zip_mul l r).
Proof. intros H. unfold t_mul. now rewrite H, Nat.eqb_refl. Qed.

Lemma get_policy_loss_ok (rewards : list Q) (log_probs : list LogProb) :
  length log_probs = length rewards -> log_probs <> [] ->
  exists l, get_policy_loss rewards log_probs = Ok l.
Proof.
  intros Hlen Hne. unfold get_policy_loss.
  destruct log_probs as [|p [|q lps]]; [congruence| |].
  - eexists; reflexivity.
  - assert (E : stack_squeeze (map lp_item (p :: q :: lps)) =
                Ok (Vec (map lp_item (p :: q :: lps)))) by reflexivity.
    rewrite E. cbv beta iota delta [bind].
    rewrite t_mul_same_length.
    + eexists; reflexivity.
    + rewrite standardize_length. unfold FloatTensor. rewrite !length_map.
      exact Hlen.
Qed.

Lemma get_policy_loss_empty (rewards : list Q) :
  get_policy_loss rewards [] = Raise RuntimeError.
Proof. reflexivity. Qed.

Lemma train_step_empty (a : Args) (s : Outer) (r : Rollout) :
  train a = true -> ro_log_probs r = [] ->
  train_step a s r = Raise RuntimeError.
Proof.
  intros Ht Hempty. unfold train_step. rewrite Ht, Hempty.
  rewrite get_policy_loss_empty. reflexivity.
Qed.

(** C3, what the code does. When [train] is true and the inner loop of a
    pass collected nothing (the episode ended on the first step of the pass,
    or [max_episode_length] is not positive), the pass does call
    [get_policy_loss], on two empty lists, and [torch.stack] raises: lines
    99-101 fail, and with them the pass and the call of [reinforce], with
    [RuntimeError]. *)
Theorem empty_trajectory_raises self (a : Args) (s : Outer) :
  train a = true -> ro_log_probs (rollout a s) = [] ->
  get_policy_loss (ro_rewards (rollout a s)) (ro_log_probs (rollout a s))
  = Raise RuntimeError /\
  iteration self a s = Raise RuntimeError.
Proof.
  intros Ht Hempty. split.
  - rewrite Hempty. apply get_policy_loss_empty.
  - unfold iteration. now rewrite train_step_empty.
Qed.

Lemma for_nat_first_stop {S R} (body : S -> ctl S R) (n : nat) s r :
  (0 < n)%nat -> body s = Stop r -> for_nat n body s = Stop r.
Proof. intros Hn Hb. destruct n; [lia|]. simpl. now rewrite Hb. Qed.

Lemma setup_env (a : Args) e v w :
  env (setup a e v w) = fst (env_reset (fst (env_reset e))).
Proof.
  unfold setup. destruct (env_reset e) as [e1 st1].
  simpl. destruct (env_reset e1) as [e2 st2]. reflexivity.
Qed.

Lemma rollout_first_episode (a : Args) e v w (rs : list Q) :
  first_episode rs e -> (Z.of_nat (length rs) < max_episode_length a)%Z ->
  let r := rollout a (setup a e v w) in
  ro_done r = true /\ ro_rewards r = rs /\
  length (ro_actions r) = length rs /\ length (ro_log_probs r) = length rs.
Proof.
  intros Hfirst Hlen. rewrite rollout_nat.
  match goal with |- context [for_nat ?n (rollout_body ?net ?rc ?dc ?em) ?s0] =>
    destruct (rollout_script net rc dc em rs n s0)
      as (r & acts & lps & Hfor & Hdone & Hr & Ha & Hla & Hl & Hll) end.
  - simpl. rewrite setup_env. exact Hfirst.
  - lia.
  - rewrite Hfor. simpl in *. rewrite Ha, Hl. now repeat split.
Qed.

(** C2, where the code fails. For an environment whose episode terminates
    on its very first step (k = 1, no reward before the terminal step), a
    call with [train] true, at least one episode and [max_episode_length] at
    least 1 does not return a history with one entry equal to 0: it raises
    [RuntimeError] from [get_policy_loss] on the empty trajectory. *)
Theorem immediate_termination_raises (a : Args) e venv w :
  first_episode [] e -> train a = true ->
  (1 <= num_episodes a)%Z -> (1 <= max_episode_length a)%Z ->
  reinforce a e venv w = Raise RuntimeError.
Proof.
  intros Hfirst Ht Hn Hm.
  change (reinforce a e venv w)
    with (reinforce_body (reinforce_fuel 1) a e venv w).
  unfold reinforce_body. rewrite for_range_nat.
  rewrite (for_nat_first_stop _ _ _ (Raise RuntimeError)); [reflexivity|lia|].
  destruct (rollout_first_episode a e venv w [] Hfirst ltac:(simpl; lia))
    as (_ & _ & _ & Hl).
  unfold iteration. rewrite train_step_empty; [reflexivity|exact Ht|].
  now apply length_zero_iff_nil.
Qed.

(** The same call on an episode with at least one reward before the terminal
    step (or with [train] false), printing and early stopping aside, returns
    one entry in each history: the sum of the rewards, and as many actions as
    rewards. *)
Lemma scripted_episode_history (a : Args) e venv w (rs : list Q) :
  first_episode rs e -> (train a = false \/ rs <> []) ->
  num_episodes a = 1%Z -> (Z.of_nat (length rs) < max_episode_length a)%Z ->
  early_stopping a = false -> (print_res a = false \/ print_freq a <> 0%Z) ->
  exists o acts,
    reinforce a e venv w = Ok o /\
    reward_history o = [pysum rs] /\
    action_history o = [acts] /\ length acts = length rs.
Proof.
  intros Hfirst Hcase Hn Hlen Hes Hprint.
  change (reinforce a e venv w)
    with (reinforce_body (reinforce_fuel 1) a e venv w).
  unfold reinforce_body. rewrite Hn. unfold for_range, for_pos. cbv beta.
  destruct (rollout_first_episode a e venv w rs Hfirst Hlen)
    as (Hdone & Hr & Hla & Hll).
  pose proof (iteration_histories (reinforce_fuel 1) a (setup a e venv w)) as Hh.
  rewrite Hdone in Hh.
  destruct (setup_fields a e venv w) as (E1 & E2 & E3 & E4 & _).
  rewrite E1, E2, E3, E4, Hr in Hh. rewrite !app_nil_l in Hh.
  assert (Hok : exists x, iteration (reinforce_fuel 1) a (setup a e venv w)
                          = Ok (Continue x)).
  { unfold iteration.
    assert (Htrain : exists ow, train_step a (setup a e venv w)
                       (rollout a (setup a e venv w)) = Ok ow).
    { unfold train_step. destruct (train a) eqn:Ht; [|eexists; reflexivity].
      destruct Hcase as [Hc|Hc]; [discriminate|].
      destruct (get_policy_loss_ok (ro_rewards (rollout a (setup a e venv w)))
                  (ro_log_probs (rollout a (setup a e venv w)))) as [l Hl].
      - rewrite Hr. exact Hll.
      - intros Hnil. rewrite Hnil in Hll. destruct rs; [congruence|discriminate].
      - rewrite Hl. simpl. destruct optimize. eexists; reflexivity. }
    destruct Htrain as [[opt w'] ->]. simpl.
    assert (Hp : exists s2, print_step a
              (bookkeeping (setup a e venv w) (rollout a (setup a e venv w)) opt w')
              = Ok s2).
    { unfold print_step. destruct (_ && _) eqn:Hb; [|eexists; reflexivity].
      destruct Hprint as [Hp|Hp].
      - rewrite Hp, andb_false_r in Hb. discriminate.
      - apply Z.eqb_neq in Hp. rewrite Hp. clear Hp.
        destruct (_ =? 0)%Z; eexists; reflexivity. }
    destruct Hp as [s2 ->]. simpl.
    rewrite early_stopping_step_off by exact Hes. eexists; reflexivity. }
  destruct Hok as [x Hx]. rewrite Hx in Hh. rewrite Hx. simpl.
  destruct Hh as (H1 & H2 & _).
  exists x, (ro_actions (rollout a (setup a e venv w))).
  repeat split; auto.
Qed.

End ScriptedEpisodes.

(** *** The loss *)

Section LossFacts.
Local Open Scope R_scope.

Lemma fold_left_tadd_fin (l : list R) (a : R) :
  fold_left tadd (map Fin l) (Fin a) = Fin (a + Rsum l).
Proof.
  revert a; induction l as [|x l IH]; intros a; simpl.
  - f_equal. ring.
  - change (tadd (Fin a) (Fin x)) with (Fin (a + x)). rewrite IH. f_equal. ring.
Qed.

Lemma t_sum_fin (l : list R) : t_sum (map Fin l) = Fin (Rsum l).
Proof. unfold t_sum. rewrite fold_left_tadd_fin. f_equal. ring. Qed.

Lemma tdiv_fin (x y : R) : y <> 0 -> tdiv (Fin x) (Fin y) = Fin (x / y).
Proof. intros H. unfold tdiv. destruct (Req_dec_T y 0); [contradiction|reflexivity]. Qed.

Lemma tdiv_zero (x : R) : tdiv (Fin x) (Fin 0) = NaN.
Proof. unfold tdiv. destruct (Req_dec_T 0 0); [reflexivity|congruence]. Qed.


Lemma t_mean_fin (l : list R) :
  l <> [] -> t_mean (map Fin l) = Fin (Rsum l / INR (length l)).
Proof.
  intros H. unfold t_mean. rewrite t_sum_fin, length_map. apply tdiv_fin.
  apply not_0_INR. destruct l; [congruence|discriminate].
Qed.



Lemma deviations_fin (l : list R) (m : R) :
  map (fun x => tmul (tsub x (Fin m)) (tsub x (Fin m))) (map Fin l) =
  map Fin (map (fun x => (x - m) * (x - m)) l).
Proof. rewrite !map_map. reflexivity. Qed.


Lemma t_std_short (l : list R) : (length l <= 1)%nat -> t_std (map Fin l) = NaN.
Proof.
  intros H. destruct l as [|x [|y l]]; [| |simpl in H; lia].
  - unfold t_std, t_mean, t_sum. simpl.
    destruct (Req_dec_T 0 0); [reflexivity|congruence].
  - unfold t_std. rewrite t_mean_fin by discriminate.
    rewrite deviations_fin, t_sum_fin. simpl length. simpl INR.
    rewrite tdiv_zero. reflexivity.
Qed.

End LossFacts.

(** *** The loss and the normalized rewards *)

Section LossFormula.
Context {C : Collaborators}.
Local Open Scope R_scope.





Lemma FloatTensor_fin (rewards : list Q) :
  FloatTensor rewards = map Fin (map Q2R rewards).
Proof. unfold FloatTensor. now rewrite map_map. Qed.







(** C5, what the code does. On a single reward [r.std()] is NaN (the
    Bessel-corrected estimator divides zero by zero), adding [eps] keeps it
    NaN, and the normalized reward is NaN: [get_policy_loss] raises nothing,
    and the loss it returns is not a finite number. *)
Theorem single_reward_not_finite (x : Q) (lp : LogProb) :
  standardize (FloatTensor [x]) = [NaN] /\
  exists l, get_policy_loss [x] [lp] = Ok l /\ is_finite (loss_item l) = false.
Proof.
  assert (E : standardize (FloatTensor [x]) = [NaN]).
  { rewrite FloatTensor_fin. unfold standardize.
    rewrite t_std_short by (simpl; lia).
    rewrite t_mean_fin by discriminate. reflexivity. }
  split; [exact E|].
  unfold get_policy_loss. rewrite E. simpl.
  eexists. split; [reflexivity|]. simpl.
  destruct (lp_item lp); reflexivity.
Qed.

End LossFormula.

(** *** Early stopping *)

Section EarlyStopping.
Context {C : Collaborators}.

Lemma validation_call_fuel (a : Args) v w :
  reinforce_fuel 1 (validation_args a) v None w =
  reinforce (validation_args a) v None w.
Proof.
  unfold reinforce. simpl. apply reinforce_body_off, validation_args_off.
Qed.

#[local] Arguments reinforce_fuel : simpl never.

Lemma bookkeeping_done (s : Outer) r opt w :
  done (bookkeeping s r opt w) = ro_done r.
Proof.
  unfold bookkeeping. destruct (ro_done r); [destruct env_reset|]; reflexivity.
Qed.

Lemma Qltb_lt (x y : Q) : Qltb x y = true <-> (x < y)%Q.
Proof.
  unfold Qltb. rewrite negb_true_iff. split.
  - intros H. apply Qnot_le_lt. intros Hle. apply Qle_bool_iff in Hle. congruence.
  - intros H. destruct (Qle_bool y x) eqn:E; [|reflexivity].
    apply Qle_bool_iff in E. exfalso. exact (Qlt_not_le _ _ H E).
Qed.

(** Line 123-124: a validation reward below the previous one makes the pass
    return at once, with the histories as they stand. *)
Lemma regression_returns self (a : Args) (s : Outer) venv o x p prev :
  done s = true -> early_stopping a = true ->
  (early_stopping_freq a <> 0)%Z ->
  (completed_episodes_counter s mod early_stopping_freq a = 0)%Z ->
  val_env s = Some venv ->
  self (validation_args a) venv None (world s) = Ok o ->
  reward_history o = [x] -> validation_rewards s = prev ++ [[p]] ->
  (x < p)%Q ->
  exists s', early_stopping_step self a s = Ok (Stop s') /\
             returned s' = returned s.
Proof.
  intros Hd He Hf Hm Hv Ho Hx Hp Hlt. unfold early_stopping_step.
  rewrite Hd, He. simpl. apply Z.eqb_neq in Hf. rewrite Hf.
  apply Z.eqb_eq in Hm. rewrite Hm, Hv, Ho. simpl. rewrite Hx, Hp.
  unfold regressed. destruct (prev ++ [[p]]) eqn:E.
  - destruct prev; discriminate.
  - rewrite <- E, last_last. apply Qltb_lt in Hlt. rewrite Hlt. simpl.
    eexists. split; reflexivity.
Qed.

Lemma iteration_before_regression (a : Args) (s : Outer) :
  early_stopping a = true -> early_stopping_freq a = 1%Z ->
  before_regression a s ->
  match iteration (reinforce_fuel 1) a s with
  | Ok (Continue s') => before_regression a s'
  | Ok (Stop s') => length (reward_history s') = 2%nat
  | _ => True
  end.
Proof.
  intros He Hf Hs. unfold iteration.
  destruct (train_step a s (rollout a s)) as [[opt w]| |]; simpl; try exact I.
  pose proof (print_step_core a (bookkeeping s (rollout a s) opt w)) as Hp.
  destruct (print_step a _) as [s2| |]; simpl; try exact I.
  destruct Hp as (Hcore & Hv & Hvr & _).
  destruct (bookkeeping_world s (rollout a s) opt w) as (_ & Hv' & Hvr').
  rewrite Hv' in Hv. rewrite Hvr' in Hvr.
  pose proof (bookkeeping_histories s (rollout a s) opt w) as Hh. simpl in Hh.
  pose proof (bookkeeping_done s (rollout a s) opt w) as Hd.
  unfold core in Hcore. injection Hcore as _ _ Erh _ _ _ _ Ed _ _ _ _.
  rewrite <- Erh in Hh. rewrite <- Ed in Hd. clear Erh Ed.
  unfold early_stopping_step. rewrite He, Hf, andb_true_r. simpl.
  rewrite Z.mod_1_r. simpl.
  destruct (done s2) eqn:Hdone.
  - rewrite <- Hd in Hh. destruct Hh as (Hrh & _).
    destruct Hs as [(Hvs & Hr0 & v & Hvenv & Hdec)
                   |(x & v & Hvs & Hr1 & Hvenv & Hdec)];
      rewrite Hv, Hvenv; destruct (Hdec (world s2)) as (o & y & Ho & Hy & Hb & Hnext);
      rewrite validation_call_fuel, Ho; simpl; rewrite Hvr, Hvs, Hy; simpl.
    + right. exists y, (env o). simpl. repeat split; auto.
      rewrite Hrh, Hr0. reflexivity.
    + apply Qltb_lt in Hb. rewrite Hb. simpl.
      rewrite Hrh, length_app, Hr1. reflexivity.
  - rewrite <- Hd in Hh. destruct Hh as (Hrh & _).
    destruct Hs as [(Hvs & Hr0 & v & Hvenv & Hdec)
                   |(x & v & Hvs & Hr1 & Hvenv & Hdec)].
    + left. split; [congruence|]. split; [congruence|].
      exists v. split; [congruence|exact Hdec].
    + right. exists x, v. split; [congruence|]. split; [congruence|].
      split; [congruence|exact Hdec].
Qed.

(** C6, as the code has it. With early stopping on, a validation after
    every completed episode and a validation environment whose reward goes
    strictly down from one validation to the next, the call returns in the
    pass that completes the second episode: the history it returns has at
    most two entries, so fewer than [num_episodes] whenever [num_episodes] is
    at least 3.  And in any pass, a validation reward strictly below the one
    recorded just before makes the pass return at once, with the histories
    as they stand. *)
Theorem early_stopping_halts_at_second_validation (a : Args) e v w :
  early_stopping a = true -> early_stopping_freq a = 1%Z ->
  validation_decreases a 2 None v ->
  match reinforce a e (Some v) w with
  | Ok o =>
      (length (reward_history o) <= 2)%nat /\
      ((num_episodes a < 3)%Z \/
       (Z.of_nat (length (reward_history o)) < num_episodes a)%Z)
  | _ => True
  end /\
  (forall self (s : Outer) venv o x p prev,
     done s = true ->
     val_env s = Some venv ->
     self (validation_args a) venv None (world s) = Ok o ->
     reward_history o = [x] -> validation_rewards s = prev ++ [[p]] ->
     (x < p)%Q ->
     exists s', early_stopping_step self a s = Ok (Stop s') /\
                returned s' = returned s).
Proof.
  intros He Hf Hdec. split.
  - change (reinforce a e (Some v) w)
      with (reinforce_body (reinforce_fuel 1) a e (Some v) w).
    unfold reinforce_body.
    pose proof (for_range_inv (fun s => lift_ctl (iteration (reinforce_fuel 1) a s))
      (before_regression a)
      (fun r => match r with
                | Ok o => length (reward_history o) = 2%nat
                | _ => True
                end)) as Hinv.
    simpl in Hinv.
    assert (Hbody : forall s, before_regression a s ->
              match lift_ctl (iteration (reinforce_fuel 1) a s) with
              | Continue s1 => before_regression a s1
              | Stop r => match r with
                          | Ok o => length (reward_history o) = 2%nat
                          | _ => True
                          end
              end).
    { intros s Hs. pose proof (iteration_before_regression a s He Hf Hs) as Hi.
      destruct (iteration (reinforce_fuel 1) a s) as [[s1|s1]| |]; simpl; auto. }
    assert (H0 : before_regression a (setup a e (Some v) w)).
    { destruct (setup_fields a e (Some v) w) as
        (E1 & _ & _ & _ & E5 & _ & _ & _ & E9 & _).
      left. split; [exact E5|]. split; [exact E1|].
      exists v. split; assumption. }
    specialize (Hinv Hbody (num_episodes a) _ H0).
    destruct (for_range _ _ _) as [s|[o| |]]; try exact I.
    + assert (Hl : (length (reward_history s) <= 1)%nat).
      { destruct Hinv as [(_ & Hr & _)|(x & v' & _ & Hr & _)]; rewrite Hr;
          simpl; lia. }
      split; [lia|]. destruct (Z.lt_ge_cases (num_episodes a) 3); [left|right]; lia.
    + rewrite Hinv. split; [lia|].
      destruct (Z.lt_ge_cases (num_episodes a) 3); [left|right]; simpl; lia.
  - intros self s venv o x p prev Hd Hv Ho Hx Hp Hlt.
    apply (regression_returns self a s venv o x p prev); auto.
    + rewrite Hf. discriminate.
    + rewrite Hf. apply Z.mod_1_r.
Qed.

End EarlyStopping.

(** *** Concrete runs *)

Section ConcreteRuns.
Import Toy.

(** The countdown environment gives a strictly lower reward at every
    validation, for ever. *)
Lemma countdown_decreases (a : Args) (n : nat) :
  forall (k : nat) (cur : list Q) (bound : option Q),
    match bound with
    | Some b => (0 + inject_Z (- Z.of_nat (S k)) < b)%Q
    | None => True
    end ->
    validation_decreases (C := collaborators) a n bound (MkEnv (gen countdown) k cur).
Proof.
  induction n as [|n IH]; intros k cur bound Hb; [exact I|].
  intros [[p t] g out calls].
  eexists. exists (0 + inject_Z (- Z.of_nat (S k)))%Q.
  split; [vm_compute; reflexivity|].
  split; [vm_compute; reflexivity|].
  split; [exact Hb|].
  match goal with |- validation_decreases (C := collaborators) _ _ _ ?e =>
    replace e with (MkEnv (gen countdown) (3 + k) (gen countdown (2 + k)%nat))
      by (vm_compute; reflexivity) end.
  apply IH. unfold Qlt. simpl Qnum. simpl Qden. lia.
Qed.



Lemma immediate_termination_raises_witness :
  reinforce (C := collaborators) (args 1 10 true false 1 (1 # 2) 0) (fixed []) None world0
  = Raise RuntimeError.
Proof.
  apply immediate_termination_raises.
  - intros a. reflexivity.
  - reflexivity.
  - simpl. lia.
  - simpl. lia.
Defined.

Lemma empty_trajectory_raises_witness :
  iteration (C := collaborators) (reinforce (C := collaborators))
    (args 1 10 true false 1 (1 # 2) 0)
    (setup (C := collaborators) (args 1 10 true false 1 (1 # 2) 0) (fixed [])
       None world0)
  = Raise RuntimeError.
Proof.
  apply (empty_trajectory_raises (C := collaborators)
           (reinforce (C := collaborators)) (args 1 10 true false 1 (1 # 2) 0)
           (setup (C := collaborators) (args 1 10 true false 1 (1 # 2) 0)
              (fixed []) None world0) eq_refl eq_refl).
Defined.

Lemma eval_mode_witness :
  exists o,
    reinforce (C := collaborators) (args 2 10 false false 1 (1 # 2) (1 # 2)) (fixed [1; 2]%Q) None world0
    = Ok o /\
    Forall (fun c => (call_rate c == 0)%Q) (act_calls o) /\
    optimize_calls (world o) = optimize_calls world0 /\
    parameters (policy_network (world o)) = parameters (policy_network world0).
Proof.
  pose proof (eval_mode_zero_exploration_no_update (C := collaborators)
                (args 2 10 false false 1 (1 # 2) (1 # 2)) (fixed [1; 2]%Q)
                None world0 eq_refl) as H.
  match type of H with match ?t with _ => _ end =>
    destruct t as [o| |] eqn:E end.
  - exists o. split; [first [exact E|reflexivity]|exact H].
  - vm_compute in E. discriminate.
  - vm_compute in E. discriminate.
Defined.

(** C4 as stated fails: in a call with [train=False] and a configured
    [exploration_min] of 1/2, [act] is handed the rate 0, not 1/2. *)
Lemma eval_rate_differs_from_configured_min :
  exists o c,
    reinforce (C := collaborators) (args 1 10 false false 1 (1 # 2) (1 # 2)) (fixed [1; 2]%Q) None world0
    = Ok o /\
    train (args 1 10 false false 1 (1 # 2) (1 # 2)) = false /\
    In c (act_calls o) /\
    ~ (call_rate c == exploration_min (args 1 10 false false 1 (1 # 2) (1 # 2)))%Q.
Proof.
  eexists. eexists. split; [vm_compute; reflexivity|].
  split; [reflexivity|]. split; [left; reflexivity|].
  vm_compute. discriminate.
Qed.

Lemma exploration_rate_witness :
  exists o,
    reinforce (C := collaborators) (args 3 10 true false 1 (1 # 2) (1 # 10)) (fixed [1; 2]%Q) None world0
    = Ok o /\
    nonincreasing (rates (act_calls o) ++ [cur_exploration_rate o]) /\
    Forall (fun q => (1 # 10 <= q)%Q /\ (q <= 1)%Q) (rates (act_calls o)) /\
    (1 # 10 <= cur_exploration_rate o)%Q /\ (cur_exploration_rate o <= 1)%Q.
Proof.
  pose proof (exploration_rate_bounded_nonincreasing (C := collaborators)
                (args 3 10 true false 1 (1 # 2) (1 # 10)) (fixed [1; 2]%Q)
                None world0) as H.
  match type of H with _ -> _ -> _ -> _ -> match ?t with _ => _ end =>
    destruct t as [o| |] eqn:E end.
  - exists o. split; [first [exact E|reflexivity]|]. apply H.
    + reflexivity.
    + vm_compute. discriminate.
    + vm_compute. discriminate.
    + vm_compute. discriminate.
  - vm_compute in E. discriminate.
  - vm_compute in E. discriminate.
Defined.

(** C8 as stated fails: with a decay factor of 1/2 and an initial rate of 1,
    at least the configured [exploration_min] of 1/2, a call with
    [train=False] hands [act] the rate 0, below [exploration_min]. *)
Lemma eval_rate_below_configured_min :
  (0 < exploration_decay (args 1 10 false false 1 (1 # 2) (1 # 2)))%Q /\
  (exploration_decay (args 1 10 false false 1 (1 # 2) (1 # 2)) <= 1)%Q /\
  (exploration_min (args 1 10 false false 1 (1 # 2) (1 # 2)) <=
   exploration_rate (args 1 10 false false 1 (1 # 2) (1 # 2)))%Q /\
  exists o c,
    reinforce (C := collaborators) (args 1 10 false false 1 (1 # 2) (1 # 2)) (fixed [1; 2]%Q) None world0
    = Ok o /\
    In c (act_calls o) /\
    (call_rate c < exploration_min (args 1 10 false false 1 (1 # 2) (1 # 2)))%Q.
Proof.
  split; [reflexivity|]. split; [vm_compute; discriminate|].
  split; [vm_compute; discriminate|].
  eexists. eexists. split; [vm_compute; reflexivity|].
  split; [left; reflexivity|]. reflexivity.
Qed.

(** Without the condition that the initial rate is not negative the rate can
    go up: from -1 the decay factor 1/2 leads to -1/2. *)
Lemma negative_rate_goes_up :
  exists o,
    reinforce (C := collaborators) (args 1 10 true false (-1) (1 # 2) (-2)) (fixed [1; 2]%Q) None world0
    = Ok o /\
    ~ nonincreasing (rates (act_calls o)).
Proof.
  eexists. split; [vm_compute; reflexivity|].
  intros H. specialize (H 0%nat 1%nat (-1)%Q (-1 # 2)%Q).
  simpl in H. specialize (H ltac:(lia) eq_refl eq_refl).
  vm_compute in H. apply H. reflexivity.
Qed.

Lemma early_stopping_witness :
  (exists o,
     reinforce (C := collaborators) (args 5 10 true true 1 (1 # 2) (1 # 10))
       (fixed [1; 2]%Q) (Some countdown) world0 = Ok o /\
     (length (reward_history o) <= 2)%nat /\
     (Z.of_nat (length (reward_history o)) < 5)%Z) /\
  (exists s',
     early_stopping_step (C := collaborators) (reinforce (C := collaborators))
       (args 5 10 true true 1 (1 # 2) (1 # 10)) second_episode_done
     = Ok (Stop s') /\
     returned s' = returned second_episode_done).
Proof.
  pose proof (countdown_decreases (args 5 10 true true 1 (1 # 2) (1 # 10))
                2 0 [] None I) as D.
  destruct (early_stopping_halts_at_second_validation (C := collaborators)
              (args 5 10 true true 1 (1 # 2) (1 # 10)) (fixed [1; 2]%Q)
              countdown world0 eq_refl eq_refl D) as [A B].
  split.
  - match type of A with match ?t with _ => _ end =>
      destruct t as [o| |] eqn:E end.
    + exists o. split; [first [exact E|reflexivity]|]. destruct A as [A1 [A2|A2]].
      * simpl in A2. lia.
      * split; [exact A1|exact A2].
    + vm_compute in E. discriminate.
    + vm_compute in E. discriminate.
  - eapply (B (reinforce (C := collaborators)) second_episode_done countdown
              _ _ 0%Q []).
    + reflexivity.
    + reflexivity.
    + vm_compute. reflexivity.
    + reflexivity.
    + reflexivity.
    + reflexivity.
Defined.

(** C6 as stated fails: with [num_episodes] = 2 the call does stop at the
    second validation, but by then the history has two entries, not fewer
    than [num_episodes]. *)
Lemma early_stopping_uses_whole_budget :
  early_stopping (args 2 10 true true 1 (1 # 2) (1 # 10)) = true /\
  early_stopping_freq (args 2 10 true true 1 (1 # 2) (1 # 10)) = 1%Z /\
  (forall n, validation_decreases (C := collaborators) (args 2 10 true true 1 (1 # 2) (1 # 10)) n
               None countdown) /\
  exists o,
    reinforce (C := collaborators) (args 2 10 true true 1 (1 # 2) (1 # 10)) (fixed [1; 2]%Q)
      (Some countdown) world0 = Ok o /\
    Z.of_nat (length (reward_history o)) =
    num_episodes (args 2 10 true true 1 (1 # 2) (1 # 10)).
Proof.
  split; [reflexivity|]. split; [reflexivity|]. split.
  - intros n. exact (countdown_decreases _ n 0 [] None I).
  - eexists. split; [vm_compute; reflexivity|]. reflexivity.
Qed.

(** An episode of four steps cut into passes of two: every pass starts
    without hidden state, and the one entry of the history is the sum over
    the whole episode. *)
Example truncated_episode_run :
  exists o,
    reinforce (C := collaborators) (args 3 2 false false 1 (1 # 2) 0) (fixed [1; 2; 3]%Q) None world0
    = Ok o /\
    map call_hx (act_calls o) = [None; Some O; None; Some O; None; Some O] /\
    reward_history o = [6%Q] /\ action_history o = [[O; 1%nat; 2%nat]].
Proof. eexists. split; [vm_compute; reflexivity|]. repeat split. Qed.

End ConcreteRuns.

(** ** Further properties *)

(** *** The loss: failures *)

Section LossShapes.
Context {C : Collaborators}.

(** X1. [get_policy_loss] fails exactly when [torch.stack] or [torch.mul]
    does: on an empty list of log-probabilities, or on two or more
    log-probabilities whose number differs from the number of rewards, unless
    there is exactly one reward (which broadcasts).  The error is
    [RuntimeError]; in every other case a loss over the given log-probabilities
    is returned, a single log-probability being broadcast over the rewards. *)
Theorem get_policy_loss_raises_iff (rewards : list Q) (log_probs : list LogProb) :
  (get_policy_loss rewards log_probs = Raise RuntimeError <->
   log_probs = [] \/
   ((2 <= length log_probs)%nat /\ length log_probs <> length rewards /\
    length rewards <> 1%nat)) /\
  (get_policy_loss rewards log_probs = Raise RuntimeError \/
   exists l, get_policy_loss rewards log_probs = Ok l /\
             loss_inputs l = log_probs).
Proof.
  unfold get_policy_loss.
  destruct log_probs as [|p [|q lps]].
  - split; [split; [now left|reflexivity]|now left].
  - split.
    + split; [discriminate|].
      intros [H|(H & _)]; [discriminate|simpl in H; lia].
    + right. eexists. split; reflexivity.
  - assert (E : stack_squeeze (map lp_item (p :: q :: lps)) =
                Ok (Vec (map lp_item (p :: q :: lps)))) by reflexivity.
    rewrite E. cbv beta iota delta [bind]. unfold t_mul.
    pose proof (standardize_length (FloatTensor rewards)) as Hl.
    unfold FloatTensor in Hl at 2. rewrite length_map in Hl.
    rewrite !length_map, Hl.
    destruct (Nat.eqb_spec (length (p :: q :: lps)) (length rewards)) as [He|He].
    + split.
      * split; [discriminate|].
        intros [H|(_ & H & _)]; [discriminate|contradiction].
      * right. eexists. split; reflexivity.
    + cbn [map].
      destruct (standardize (FloatTensor rewards)) as [|y [|y' t]] eqn:Es;
        simpl in Hl.
      * split; [split; [intros _; right|reflexivity]|now left].
        repeat split; [simpl; lia|exact He|lia].
      * split.
        -- split; [discriminate|].
           intros [H|(_ & _ & H)]; [discriminate|congruence].
        -- right. eexists. split; reflexivity.
      * split; [split; [intros _; right|reflexivity]|now left].
        repeat split; [simpl; lia|exact He|lia].
Qed.

End LossShapes.

(** *** Passes in numbers *)

Section CountedLoops.
Context {S R : Type} (body : S -> ctl S R).

(** Invariants that know how many passes were made. *)
Lemma for_nat_inv_count (I : nat -> S -> Prop) (P : nat -> R -> Prop) :
  (forall j s, I j s ->
     match body s with Continue s1 => I (Datatypes.S j) s1 | Stop r => P j r end) ->
  forall n j s, I j s ->
    match for_nat n body s with
    | Continue s1 => I (j + n)%nat s1
    | Stop r => exists i, (j <= i < j + n)%nat /\ P i r
    end.
Proof.
  intros Hbody n; induction n as [|n IH]; intros j s Hs; simpl.
  - now rewrite Nat.add_0_r.
  - specialize (Hbody j s Hs). destruct (body s) as [s1|r].
    + specialize (IH (Datatypes.S j) s1 Hbody).
      destruct (for_nat n body s1) as [s2|r].
      * now replace (j + Datatypes.S n)%nat with (Datatypes.S j + n)%nat by lia.
      * destruct IH as (i & Hi & HP). exists i. split; [lia|exact HP].
    + exists j. split; [lia|exact Hbody].
Qed.

End CountedLoops.

Section PassFacts.
Context {C : Collaborators}.

(** How many calls of [act] the inner loop makes: one per recorded step,
    and one more for the terminal step when it is left on [done]. *)
Lemma rollout_calls_count net rec decay emin (n : nat) (s0 : Rollout) :
  match for_nat n (rollout_body net rec decay emin) s0 with
  | Continue r =>
      length (ro_calls r) = (length (ro_calls s0) + n)%nat /\
      length (ro_actions r) = (length (ro_actions s0) + n)%nat
  | Stop r =>
      exists k, (k < n)%nat /\
        length (ro_calls r) = (length (ro_calls s0) + k + 1)%nat /\
        length (ro_actions r) = (length (ro_actions s0) + k)%nat
  end.
Proof.
  revert s0; induction n as [|n IH]; intros s0; simpl.
  - split; lia.
  - unfold rollout_body at 1.
    destruct (act net (ro_state s0) (ro_hx s0) rec (ro_rate s0) (ro_rng s0))
      as [[[a lp] hx] g].
    destruct (env_step (ro_env s0) a) as [e1 [[st rw] d]].
    destruct d.
    + exists O. simpl. rewrite length_app. simpl. repeat split; lia.
    + match goal with |- match for_nat n _ ?s1 with _ => _ end =>
        specialize (IH s1); destruct (for_nat n _ s1) as [r|r] end.
      * destruct IH as [H1 H2]. simpl in H1, H2.
        rewrite !length_app in *. simpl in *. split; lia.
      * destruct IH as (k & Hk & H1 & H2). simpl in H1, H2.
        rewrite !length_app in *. simpl in *. exists (Datatypes.S k).
        repeat split; lia.
Qed.

(** The inner loop of a pass, in numbers: [k] steps recorded, and either
    the loop was left on [done] after one more call of [act], or it ran its
    [max_episode_length] passes and [done] is false (it is the [done] of the
    state before when [max_episode_length] is not positive). *)
Lemma rollout_count (a : Args) (s : Outer) :
  let r := rollout a s in
  exists k,
    length (ro_actions r) = k /\
    ((ro_done r = true /\ (Z.of_nat k < max_episode_length a)%Z /\
      length (ro_calls r) = (length (act_calls s) + k + 1)%nat)
     \/
     (Z.of_nat k = Z.max 0 (max_episode_length a) /\
      length (ro_calls r) = (length (act_calls s) + k)%nat /\
      ro_done r = (if (0 <? max_episode_length a)%Z then false else done s))).
Proof.
  intros r. subst r. rewrite rollout_nat.
  match goal with |- context [for_nat ?n (rollout_body ?net ?rc ?dc ?em) ?s0] =>
    pose proof (rollout_calls_count net rc dc em n s0) as Hc;
    pose proof (rollout_loop_spec net rc dc em n s0) as Hs;
    destruct (for_nat n (rollout_body net rc dc em) s0) as [r|r] end.
  - destruct Hc as [H1 H2]. simpl in H1, H2.
    destruct Hs as (_ & _ & _ & _ & _ & _ & Hd & Hz).
    eexists. split; [reflexivity|]. right. rewrite H2. repeat split; try lia.
    destruct (Z.ltb_spec 0 (max_episode_length a)) as [Hp|Hp].
    + apply Hd. lia.
    + rewrite (Hz ltac:(lia)). reflexivity.
  - destruct Hc as (k & Hk & H1 & H2). simpl in H1, H2.
    destruct Hs as (_ & _ & _ & _ & _ & Hd & _).
    eexists. split; [reflexivity|]. left. rewrite H2. repeat split; auto; lia.
Qed.

(** A pass that does not fail went through lines 99-125 in order. *)
Lemma iteration_steps self (a : Args) (s : Outer) :
  match iteration self a s with
  | Ok c =>
      exists opt w s2,
        train_step a s (rollout a s) = Ok (opt, w) /\
        print_step a (bookkeeping s (rollout a s) opt w) = Ok s2 /\
        early_stopping_step self a s2 = Ok c
  | _ => True
  end.
Proof.
  unfold iteration.
  destruct (train_step a s (rollout a s)) as [[opt w]| |]; simpl; try exact I.
  destruct (print_step a (bookkeeping s (rollout a s) opt w)) as [s2| |] eqn:E;
    simpl; try exact I.
  destruct (early_stopping_step self a s2) as [c| |] eqn:E2; try exact I.
  exists opt, w, s2. now repeat split.
Qed.

(** Lines 121-125, case by case: either no validation was due and nothing
    changed, or one ran; then the network, the generator and the validation
    environment are as the validation call left them, and the pass goes on,
    recording the validation reward, unless that reward is strictly below the
    one recorded before, in which case it returns. *)
Lemma early_stopping_step_cases self (a : Args) (s : Outer) :
  match early_stopping_step self a s with
  | Ok c =>
      c = Continue s \/
      exists venv v,
        done s = true /\ early_stopping a = true /\
        val_env s = Some venv /\
        self (validation_args a) venv None (world s) = Ok v /\
        match c with
        | Continue s' =>
            world s' = world v /\ val_env s' = Some (env v) /\
            core s' = core s /\
            validation_rewards s' = validation_rewards s ++ [reward_history v]
        | Stop s' =>
            world s' = world v /\ val_env s' = Some (env v) /\
            core s' = core s /\
            validation_rewards s' = validation_rewards s /\
            exists x rest p prev,
              reward_history v = x :: rest /\
              validation_rewards s = prev ++ [[p]] /\ (x < p)%Q
        end
  | _ => True
  end.
Proof.
  unfold early_stopping_step.
  destruct (done s) eqn:Hd; [|now left].
  destruct (early_stopping a) eqn:He; [|now left]. simpl.
  destruct (early_stopping_freq a =? 0)%Z; [exact I|].
  destruct (_ =? 0)%Z; [|now left].
  destruct (val_env s) as [venv|] eqn:Hv; [|exact I].
  destruct (self (validation_args a) venv None (world s)) as [v| |] eqn:Hself;
    simpl; try exact I.
  destruct (regressed (validation_rewards s) (reward_history v)) as [[|]| |] eqn:Hr;
    simpl; try exact I; right; exists venv, v;
    (split; [reflexivity|]); (split; [reflexivity|]); (split; [reflexivity|]);
    (split; [exact Hself|]);
    (split; [reflexivity|]); (split; [reflexivity|]);
    (split; [unfold core; simpl; now rewrite Hd|]); [|reflexivity].
  split; [reflexivity|].
  unfold regressed in Hr.
  destruct (validation_rewards s) as [|vr0 vrs] eqn:Hvr; [discriminate|].
  destruct (reward_history v) as [|x rest]; [discriminate|].
  assert (Hne : vr0 :: vrs <> []) by discriminate.
  destruct (exists_last Hne) as (prev & lst & Hl).
  rewrite Hl, last_last in Hr.
  destruct lst as [|p [|p' t]]; try discriminate.
  injection Hr as Hr. exists x, rest, p, prev. rewrite Hl.
  repeat split; auto. now apply Qltb_lt.
Qed.

End PassFacts.

Section CallAccounting.
Context {C : Collaborators}.

Lemma reinforce_body_inv_count self (a : Args) e v w
  (I : nat -> Outer -> Prop) (P : nat -> Outer -> Prop) :
  I O (setup a e v w) ->
  (forall j s, I j s ->
     match iteration self a s with
     | Ok (Continue s') => I (S j) s'
     | Ok (Stop s') => P j s'
     | _ => True
     end) ->
  match reinforce_body self a e v w with
  | Ok o =>
      I (Z.to_nat (num_episodes a)) o \/
      exists i, (i < Z.to_nat (num_episodes a))%nat /\ P i o
  | _ => True
  end.
Proof.
  intros H0 Hstep. unfold reinforce_body. rewrite for_range_nat.
  pose proof (for_nat_inv_count (fun s => lift_ctl (iteration self a s)) I
                (fun j r => match r with Ok o => P j o | _ => True end)) as Hinv.
  simpl in Hinv.
  assert (Hbody : forall j s, I j s ->
            match lift_ctl (iteration self a s) with
            | Continue s1 => I (S j) s1
            | Stop r => match r with Ok o => P j o | _ => True end
            end).
  { intros j s Hs. specialize (Hstep j s Hs).
    destruct (iteration self a s) as [[s1|s1]| |]; simpl; auto. }
  specialize (Hinv Hbody (Z.to_nat (num_episodes a)) O _ H0).
  destruct (for_nat _ _ _) as [s|r]; [now left|].
  destruct Hinv as (i & Hi & HP). destruct r as [o| |]; auto.
  right. exists i. split; [lia|exact HP].
Qed.

(** The fields of the state a pass ends in, as lines 103-112 set them. *)
Lemma iteration_fields self (a : Args) (s : Outer) :
  match iteration self a s with
  | Ok (Continue s') | Ok (Stop s') =>
      let r := rollout a s in
      act_calls s' = ro_calls r /\ done s' = ro_done r /\
      cur_exploration_rate s' = ro_rate r /\
      cur_exploration_min s' = cur_exploration_min s /\
      if ro_done r then
        reward_history s' =
          reward_history s ++ [pysum (total_rewards s ++ ro_rewards r)] /\
        action_history s' =
          action_history s ++ [total_actions s ++ ro_actions r] /\
        total_rewards s' = [] /\ total_actions s' = [] /\
        completed_episodes_counter s' = (completed_episodes_counter s + 1)%Z
      else
        reward_history s' = reward_history s /\
        action_history s' = action_history s /\
        total_rewards s' = total_rewards s ++ ro_rewards r /\
        total_actions s' = total_actions s ++ ro_actions r /\
        completed_episodes_counter s' = completed_episodes_counter s
  | _ => True
  end.
Proof.
  pose proof (iteration_core self a s) as Hcore.
  destruct (iteration self a s) as [[s'|s']| |]; try exact I;
    destruct Hcore as (opt & w & Hcore);
    pose proof (bookkeeping_histories s (rollout a s) opt w) as Hb;
    destruct (bookkeeping_calls s (rollout a s) opt w) as (Hc & Hr & Hm);
    pose proof (bookkeeping_done s (rollout a s) opt w) as Hd;
    simpl in Hb; unfold core in Hcore;
    injection Hcore as _ _ E1 E2 E3 E4 E5 E6 _ E7 E8 E9;
    rewrite E1, E2, E3, E4, E5, E6, E7, E8, E9; cbv zeta; auto.
Qed.

Lemma concat_snoc {A} (l : list (list A)) (x : list A) :
  concat (l ++ [x]) = concat l ++ x.
Proof. rewrite concat_app. simpl. now rewrite app_nil_r. Qed.

(** X4. Every call of [act] is accounted for: at the end of a call of
    [reinforce] the number of calls of [act] it made is the number of actions
    in [action_history], plus the actions of the episode still running, plus
    one terminal step, recorded nowhere, for every completed episode. *)
Theorem act_calls_accounted (a : Args) e venv w :
  match reinforce a e venv w with
  | Ok o =>
      length (act_calls o) =
      (length (concat (action_history o)) + length (total_actions o) +
       length (reward_history o))%nat
  | _ => True
  end.
Proof.
  pose proof (reinforce_body_inv (reinforce_fuel 1) a e venv w
    (fun s => length (act_calls s) =
              (length (concat (action_history s)) + length (total_actions s) +
               length (reward_history s))%nat /\
              ((0 <? max_episode_length a)%Z = false -> done s = false))) as H.
  change (reinforce a e venv w)
    with (reinforce_body (reinforce_fuel 1) a e venv w).
  destruct (reinforce_body (reinforce_fuel 1) a e venv w) as [o| |]; try exact I.
  apply H.
  - destruct (setup_fields a e venv w) as
      (E1 & E2 & _ & E4 & _ & _ & E7 & E8 & _).
    rewrite E1, E2, E4, E7, E8. split; reflexivity.
  - intros s [Hacc Hdone].
    pose proof (iteration_fields (reinforce_fuel 1) a s) as Hf.
    destruct (iteration (reinforce_fuel 1) a s) as [[s'|s']| |]; try exact I;
      cbv zeta in Hf; destruct Hf as (Ec & Ed & _ & _ & Hh);
      destruct (rollout_count a s) as (k & Hk & Hcase);
      rewrite Ec, Ed;
      (destruct Hcase as [(Hd & Hlt & Hcalls)|(Hkm & Hcalls & Hd)];
       [rewrite Hd in Hh |-*; destruct Hh as (E1 & E2 & _ & E4 & _);
        rewrite E1, E2, E4, concat_snoc, !length_app, Hcalls, Hk; simpl;
        split; [lia|intros Hz; apply Z.ltb_ge in Hz; lia]
       |destruct (0 <? max_episode_length a)%Z eqn:Hpos;
        [|rewrite (Hdone eq_refl) in Hd]; rewrite Hd in Hh |-*;
        destruct Hh as (E1 & E2 & _ & E4 & _);
        rewrite E1, E2, E4, !length_app, Hcalls, Hk;
        (split; [lia|reflexivity])]).
Qed.

End CallAccounting.

Section CallBudget.
Context {C : Collaborators}.

Lemma iteration_budget self (a : Args) (s : Outer) :
  match iteration self a s with
  | Ok (Continue s') | Ok (Stop s') =>
      (length (act_calls s') <=
       length (act_calls s) + Z.to_nat (max_episode_length a))%nat /\
      (length (reward_history s') <= length (reward_history s) + 1)%nat
  | _ => True
  end.
Proof.
  pose proof (iteration_fields self a s) as Hf.
  destruct (iteration self a s) as [[s'|s']| |]; try exact I;
    cbv zeta in Hf; destruct Hf as (Ec & _ & _ & _ & Hh);
    destruct (rollout_count a s) as (k & Hk & Hcase); rewrite Ec;
    (split;
     [destruct Hcase as [(_ & Hlt & Hcalls)|(Hkm & Hcalls & _)]; lia
     |destruct (ro_done (rollout a s)); destruct Hh as (E1 & _); rewrite E1;
      rewrite ?length_app; simpl; lia]).
Qed.

(** X5. A call of [reinforce] stays within its budget: it calls [act], and
    so steps the environment, at most [num_episodes * max_episode_length]
    times (validation calls apart), a bound not positive counting as 0. *)
Theorem act_calls_within_budget (a : Args) e venv w :
  match reinforce a e venv w with
  | Ok o =>
      (length (act_calls o) <=
       Z.to_nat (num_episodes a) * Z.to_nat (max_episode_length a))%nat
  | _ => True
  end.
Proof.
  pose proof (reinforce_body_inv_count (reinforce_fuel 1) a e venv w
    (fun j s => (length (act_calls s) <=
                 j * Z.to_nat (max_episode_length a))%nat)
    (fun j s => (length (act_calls s) <=
                 S j * Z.to_nat (max_episode_length a))%nat)) as H.
  change (reinforce a e venv w)
    with (reinforce_body (reinforce_fuel 1) a e venv w).
  destruct (reinforce_body (reinforce_fuel 1) a e venv w) as [o| |]; try exact I.
  destruct H as [H|(i & Hi & H)].
  - destruct (setup_fields a e venv w) as (_&_&_&_&_&_&_& E8 & _).
    rewrite E8. simpl. lia.
  - intros j s Hs. pose proof (iteration_budget (reinforce_fuel 1) a s) as Hb.
    destruct (iteration (reinforce_fuel 1) a s) as [[s'|s']| |]; try exact I;
      destruct Hb as [Hb _]; simpl; lia.
  - exact H.
  - nia.
Qed.

(** X6. Each pass of the outer loop completes at most one episode: the
    histories returned have at most [num_episodes] entries. *)
Theorem history_within_budget (a : Args) e venv w :
  match reinforce a e venv w with
  | Ok o =>
      (length (reward_history o) <= Z.to_nat (num_episodes a))%nat /\
      (length (action_history o) <= Z.to_nat (num_episodes a))%nat
  | _ => True
  end.
Proof.
  pose proof (reinforce_body_inv_count (reinforce_fuel 1) a e venv w
    (fun j s => histories_aligned s /\ (length (reward_history s) <= j)%nat)
    (fun j s => histories_aligned s /\ (length (reward_history s) <= S j)%nat))
    as H.
  change (reinforce a e venv w)
    with (reinforce_body (reinforce_fuel 1) a e venv w).
  destruct (reinforce_body (reinforce_fuel 1) a e venv w) as [o| |]; try exact I.
  destruct H as [[[Ha _] H]|(i & Hi & [Ha _] & H)].
  - destruct (setup_fields a e venv w) as (E1 & E2 & _ & _ & _ & E6 & _).
    unfold histories_aligned. rewrite E1, E2, E6. simpl. repeat split; lia.
  - intros j s [Hal Hs].
    pose proof (iteration_budget (reinforce_fuel 1) a s) as Hb.
    pose proof (iteration_aligned (reinforce_fuel 1) a s Hal) as Hal'.
    destruct (iteration (reinforce_fuel 1) a s) as [[s'|s']| |]; try exact I;
      destruct Hb as [_ Hb]; (split; [exact Hal'|lia]).
  - rewrite <- Ha. split; exact H.
  - rewrite <- Ha. split; lia.
Qed.

End CallBudget.

Section TrainingSteps.
Context {C : Collaborators}.

Lemma validation_untrained (a : Args) venv w :
  match reinforce_fuel 1 (validation_args a) venv None w with
  | Ok v => untrained w (world v)
  | _ => True
  end.
Proof.
  simpl. apply reinforce_body_untrained; [reflexivity|]. intros; exact I.
Qed.

Lemma train_step_world (a : Args) (s : Outer) (r : Rollout) :
  match train_step a s r with
  | Ok (opt, w) =>
      training (policy_network w) = training (policy_network (world s)) /\
      stdout w = stdout (world s) /\
      length (optimize_calls w) =
      (length (optimize_calls (world s)) + (if train a then 1 else 0))%nat
  | _ => True
  end.
Proof.
  unfold train_step. destruct (train a).
  - destruct (get_policy_loss _ _) as [l| |]; simpl; try exact I.
    destruct optimize as [opt p]. simpl. rewrite length_app. simpl.
    repeat split.
  - simpl. repeat split. lia.
Qed.

(** A call with [train] false and no early stopping leaves the network in
    evaluation mode. *)
Lemma eval_call_mode (k : nat) (a : Args) e v w :
  train a = false -> early_stopping a = false ->
  match reinforce_fuel (S k) a e v w with
  | Ok o => training (policy_network (world o)) = false
  | _ => True
  end.
Proof.
  intros Ht He. cbn [reinforce_fuel].
  apply (reinforce_body_inv (reinforce_fuel k) a e v w
           (fun x => training (policy_network (world x)) = false)).
  - destruct (setup_fields a e v w) as (_&_&_&_&_&_&_&_&_&_&_& En & _).
    rewrite En. exact Ht.
  - intros x Hx.
    pose proof (iteration_steps (reinforce_fuel k) a x) as Hi.
    destruct (iteration (reinforce_fuel k) a x) as [c'| |]; try exact I.
    destruct Hi as (opt' & w' & x2 & Ht' & Hp' & He').
    rewrite early_stopping_step_off in He' by exact He.
    injection He' as <-.
    pose proof (train_step_world a x (rollout a x)) as Hw'.
    rewrite Ht' in Hw'. destruct Hw' as (Hw1' & _).
    pose proof (print_step_core a (bookkeeping x (rollout a x) opt' w')) as Hpc'.
    rewrite Hp' in Hpc'. destruct Hpc' as (_ & _ & _ & Hn' & _).
    destruct (bookkeeping_world x (rollout a x) opt' w') as (Ew' & _).
    rewrite Ew' in Hn'. rewrite Hn', Hw1'. exact Hx.
Qed.

(** What a pass does to the shared objects: the training step, and then
    either nothing more, or a validation call. *)
Lemma iteration_world (a : Args) (s : Outer) :
  match iteration (reinforce_fuel 1) a s with
  | Ok c =>
      let s' := match c with Continue s' | Stop s' => s' end in
      length (optimize_calls (world s')) =
        (length (optimize_calls (world s)) + (if train a then 1 else 0))%nat /\
      ((training (policy_network (world s')) =
          training (policy_network (world s)) /\
        validation_rewards s' = validation_rewards s /\
        val_env s' = val_env s /\ c = Continue s')
       \/
       (early_stopping a = true /\
        training (policy_network (world s')) = false /\
        validation_rewards s' <> []))
  | _ => True
  end.
Proof.
  pose proof (iteration_steps (reinforce_fuel 1) a s) as H.
  destruct (iteration (reinforce_fuel 1) a s) as [c| |]; try exact I.
  destruct H as (opt & w & s2 & Ht & Hp & He).
  pose proof (train_step_world a s (rollout a s)) as Hw. rewrite Ht in Hw.
  destruct Hw as (Hw1 & _ & Hw3).
  pose proof (print_step_core a (bookkeeping s (rollout a s) opt w)) as Hpc.
  rewrite Hp in Hpc. destruct Hpc as (_ & Hv & Hvr & Hn & Ho).
  destruct (bookkeeping_world s (rollout a s) opt w) as (Ew & Ev & Evr).
  rewrite Ew in Hn, Ho. rewrite Ev in Hv. rewrite Evr in Hvr.
  pose proof (early_stopping_step_cases (reinforce_fuel 1) a s2) as Hc.
  rewrite He in Hc. cbv zeta.
  destruct Hc as [->|(venv & v & _ & Hes & _ & Hself & Hc)].
  - split; [congruence|]. left. rewrite Hn. now repeat split.
  - pose proof (validation_untrained a venv (world s2)) as Hu.
    pose proof (eval_call_mode O (validation_args a) venv None (world s2)
                  eq_refl eq_refl) as Hmode.
    rewrite Hself in Hu, Hmode. destruct Hu as [Hu _].
    destruct c as [s'|s'].
    + destruct Hc as (Ewv & _ & _ & Evr').
      rewrite Ewv. split; [congruence|]. right. repeat split; auto.
      rewrite Evr'. intros Hnil. apply app_eq_nil in Hnil. destruct Hnil; discriminate.
    + destruct Hc as (Ewv & _ & _ & Evr' & x & rest & p & prev & _ & Hprev & _).
      rewrite Ewv. split; [congruence|]. right. repeat split; auto.
      rewrite Evr', Hprev. intros Hnil. apply app_eq_nil in Hnil.
      destruct Hnil; discriminate.
Qed.


(** X8. A validation call switches the policy network to evaluation mode
    (line 70) and nothing switches it back: a training call returns with the
    network in the mode [train] asked for only as long as no validation ran;
    once a validation reward is recorded the network is, and stays, in
    evaluation mode. *)
Theorem validation_leaves_eval_mode (a : Args) e venv w :
  match reinforce a e venv w with
  | Ok o =>
      match validation_rewards o with
      | [] => training (policy_network (world o)) = train a
      | _ :: _ => training (policy_network (world o)) = false
      end
  | _ => True
  end.
Proof.
  pose proof (reinforce_body_inv (reinforce_fuel 1) a e venv w
    (fun s => match validation_rewards s with
              | [] => training (policy_network (world s)) = train a
              | _ :: _ => training (policy_network (world s)) = false
              end)) as H.
  change (reinforce a e venv w)
    with (reinforce_body (reinforce_fuel 1) a e venv w).
  destruct (reinforce_body (reinforce_fuel 1) a e venv w) as [o| |]; try exact I.
  apply H.
  - destruct (setup_fields a e venv w) as (_&_&_&_& E5 &_&_&_&_&_&_& En & _).
    rewrite E5, En. reflexivity.
  - intros s Hs. pose proof (iteration_world a s) as Hw.
    destruct (iteration (reinforce_fuel 1) a s) as [[s'|s']| |]; try exact I;
      cbv zeta in Hw; destruct Hw as [_ [(Hm & Hvr & _)|(_ & Hm & Hvr)]];
      try (rewrite Hvr, Hm; exact Hs);
      (destruct (validation_rewards s'); [congruence|exact Hm]).
Qed.

(** X9. Without early stopping the validation environment is never
    touched and no validation reward is recorded. *)
Theorem no_early_stopping_no_validation (a : Args) e venv w :
  early_stopping a = false ->
  match reinforce a e venv w with
  | Ok o => val_env o = venv /\ validation_rewards o = []
  | _ => True
  end.
Proof.
  intros He.
  pose proof (reinforce_body_inv (reinforce_fuel 1) a e venv w
    (fun s => val_env s = venv /\ validation_rewards s = [])) as H.
  change (reinforce a e venv w)
    with (reinforce_body (reinforce_fuel 1) a e venv w).
  destruct (reinforce_body (reinforce_fuel 1) a e venv w) as [o| |]; try exact I.
  apply H.
  - destruct (setup_fields a e venv w) as (_&_&_&_& E5 &_&_&_& E9 & _).
    now split.
  - intros s [Hv Hvr]. pose proof (iteration_world a s) as Hw.
    destruct (iteration (reinforce_fuel 1) a s) as [[s'|s']| |]; try exact I;
      cbv zeta in Hw; destruct Hw as [_ [(_ & Hvr' & Hv' & _)|(He' & _)]];
      try congruence; split; congruence.
Qed.

(** X10. A pass returns early only on a regression: when a pass ends the call
    through line 124, early stopping is on, a validation call has just
    returned a reward, and that reward is strictly below the validation reward
    recorded last; an equal or higher reward, or no earlier reward, never
    ends the call. *)
Theorem early_return_only_on_regression self (a : Args) (s : Outer) :
  match iteration self a s with
  | Ok (Stop s') =>
      early_stopping a = true /\
      exists venv w v x rest p prev,
        self (validation_args a) venv None w = Ok v /\
        reward_history v = x :: rest /\
        validation_rewards s = prev ++ [[p]] /\ (x < p)%Q /\
        validation_rewards s' = validation_rewards s
  | _ => True
  end.
Proof.
  pose proof (iteration_steps self a s) as H.
  destruct (iteration self a s) as [[s'|s']| |]; try exact I.
  destruct H as (opt & w & s2 & Ht & Hp & He).
  pose proof (print_step_core a (bookkeeping s (rollout a s) opt w)) as Hpc.
  rewrite Hp in Hpc. destruct Hpc as (_ & _ & Hvr & _).
  destruct (bookkeeping_world s (rollout a s) opt w) as (_ & _ & Evr).
  rewrite Evr in Hvr.
  pose proof (early_stopping_step_cases self a s2) as Hc. rewrite He in Hc.
  destruct Hc as [Hc|(venv & v & _ & Hes & _ & Hself & Hc)]; [discriminate|].
  destruct Hc as (_ & _ & _ & Evr' & x & rest & p & prev & Hx & Hprev & Hlt).
  split; [exact Hes|].
  exists venv, (world s2), v, x, rest, p, prev.
  repeat split; auto; congruence.
Qed.

End TrainingSteps.

(** *** Episodes longer than a pass *)

Section TruncatedEpisodes.
Context {C : Collaborators}.

Lemma firstn_plus {A} (n m : nat) (l : list A) :
  firstn (n + m) l = firstn n l ++ firstn m (skipn n l).
Proof.
  revert l; induction n as [|n IH]; intros l; [reflexivity|].
  destruct l as [|x l]; simpl; [now rewrite firstn_nil|]. now rewrite IH.
Qed.

Lemma skipn_plus {A} (n m : nat) (l : list A) :
  skipn (n + m) l = skipn m (skipn n l).
Proof.
  revert l; induction n as [|n IH]; intros l; [reflexivity|].
  destruct l as [|x l]; simpl; [now rewrite skipn_nil|]. apply IH.
Qed.

(** The inner loop on a scripted episode that is longer than the loop. *)
Lemma rollout_script_prefix net rec decay emin (n : nat) :
  forall (rs : list Q) (s0 : Rollout),
    runs_script rs (ro_env s0) -> (n <= length rs)%nat ->
    exists r acts lps,
      for_nat n (rollout_body net rec decay emin) s0 = Continue r /\
      ro_rewards r = ro_rewards s0 ++ firstn n rs /\
      ro_actions r = ro_actions s0 ++ acts /\ length acts = n /\
      ro_log_probs r = ro_log_probs s0 ++ lps /\ length lps = n /\
      runs_script (skipn n rs) (ro_env r) /\
      ((0 < n)%nat -> ro_done r = false).
Proof.
  induction n as [|n IH]; intros rs s0 Hscript Hn.
  - exists s0, [], []. simpl. rewrite !app_nil_r. repeat split; auto. lia.
  - destruct rs as [|x rs]; [simpl in Hn; lia|].
    simpl for_nat. unfold rollout_body at 1.
    destruct (act net (ro_state s0) (ro_hx s0) rec (ro_rate s0) (ro_rng s0))
      as [[[a lp] hx] g].
    simpl in Hscript. specialize (Hscript a).
    destruct (env_step (ro_env s0) a) as [e1 [[st rw] d]] eqn:Hstep.
    simpl in Hscript. destruct Hscript as [Heq Hrest]. injection Heq as -> ->.
    match goal with |- context [for_nat n _ ?s1] =>
      destruct (IH rs s1 Hrest ltac:(simpl in Hn; lia))
        as (r & acts & lps & Hfor & Hr & Ha & Hla & Hl & Hll & Hs & Hd) end.
    simpl in *. exists r, (a :: acts), (lp :: lps). rewrite Hfor.
    rewrite Hr, Ha, Hl, <- !app_assoc. simpl. repeat split; auto.
    intros _. destruct n as [|n'].
    + injection Hfor as <-. reflexivity.
    + apply Hd. lia.
Qed.

(** A pass whose inner loop does not end on [done] goes straight to the
    next one. *)
Lemma iteration_not_done self (a : Args) (s : Outer) opt w :
  ro_done (rollout a s) = false ->
  train_step a s (rollout a s) = Ok (opt, w) ->
  iteration self a s = Ok (Continue (bookkeeping s (rollout a s) opt w)).
Proof.
  intros Hd Ht. unfold iteration. rewrite Ht. simpl.
  pose proof (bookkeeping_done s (rollout a s) opt w) as Hbd.
  rewrite Hd in Hbd. unfold print_step. rewrite Hbd.
  cbn [andb bind]. unfold early_stopping_step. rewrite Hbd. reflexivity.
Qed.

Lemma train_step_ok (a : Args) (s : Outer) (r : Rollout) :
  length (ro_log_probs r) = length (ro_rewards r) ->
  train a = false \/ ro_log_probs r <> [] ->
  exists opt w, train_step a s r = Ok (opt, w).
Proof.
  intros Hlen Hcase. unfold train_step. destruct (train a) eqn:Ht.
  - destruct Hcase as [Hc|Hc]; [discriminate|].
    destruct (get_policy_loss_ok (ro_rewards r) (ro_log_probs r) Hlen Hc)
      as [l Hl].
    rewrite Hl. simpl. destruct optimize. eexists _, _. reflexivity.
  - eexists _, _. reflexivity.
Qed.

Variables (a : Args) (rs : list Q).
Let mm := Z.to_nat (max_episode_length a).

Lemma rollout_in_progress (j : nat) (s : Outer) :
  in_progress a rs j s -> (S j * mm <= length rs)%nat -> (1 <= mm)%nat ->
  let r := rollout a s in
  ro_done r = false /\
  ro_rewards r = firstn mm (skipn (j * mm) rs) /\
  length (ro_actions r) = mm /\ length (ro_log_probs r) = mm /\
  runs_script (skipn (S j * mm) rs) (ro_env r).
Proof.
  intros (Hs & _) Hlen Hm r. fold mm in Hs. subst r. rewrite rollout_nat.
  fold mm.
  match goal with |- context [for_nat mm (rollout_body ?net ?rc ?dc ?em) ?s0] =>
    destruct (rollout_script_prefix net rc dc em mm (skipn (j * mm) rs) s0)
      as (r & acts & lps & Hfor & Hr & Ha & Hla & Hl & Hll & Hsk & Hd) end.
  - exact Hs.
  - rewrite length_skipn. simpl in Hlen. lia.
  - rewrite Hfor. simpl in Hr, Ha, Hl. rewrite Ha, Hl, Hla, Hll.
    split; [apply Hd; lia|]. split; [exact Hr|].
    split; [reflexivity|]. split; [reflexivity|].
    replace (S j * mm)%nat with (j * mm + mm)%nat by (simpl; lia).
    rewrite skipn_plus. exact Hsk.
Qed.

Lemma pass_in_progress self (j : nat) (s : Outer) :
  in_progress a rs j s -> (S j * mm <= length rs)%nat -> (1 <= mm)%nat ->
  exists s', iteration self a s = Ok (Continue s') /\ in_progress a rs (S j) s'.
Proof.
  intros Hin Hlen Hm.
  destruct (rollout_in_progress j s Hin Hlen Hm) as (Hd & Hr & Hla & Hll & Hsk).
  destruct Hin as (_ & Htr & Hta & Hrh & Hah & _). fold mm in Htr, Hta.
  destruct (train_step_ok a s (rollout a s)) as (opt & w & Ht).
  - rewrite Hll, Hr, length_firstn, length_skipn. simpl in Hlen. lia.
  - right. intros Hnil. rewrite Hnil in Hll. simpl in Hll. lia.
  - exists (bookkeeping s (rollout a s) opt w).
    split; [now apply iteration_not_done|].
    unfold in_progress, bookkeeping. fold mm. rewrite Hd. simpl.
    rewrite Htr, Hr, length_app, Hta, Hla.
    replace (mm + j * mm)%nat with (j * mm + mm)%nat by lia.
    rewrite firstn_plus. repeat split; auto.
    replace (j * mm + mm)%nat with (S j * mm)%nat by (simpl; lia). exact Hsk.
Qed.

Lemma passes_in_progress self (k : nat) :
  forall (j : nat) (s : Outer),
    in_progress a rs j s -> ((j + k) * mm <= length rs)%nat -> (1 <= mm)%nat ->
    exists s',
      for_nat k (fun s => lift_ctl (iteration self a s)) s = Continue s' /\
      in_progress a rs (j + k) s'.
Proof.
  induction k as [|k IH]; intros j s Hin Hlen Hm.
  - exists s. rewrite Nat.add_0_r. now split.
  - destruct (pass_in_progress self j s Hin ltac:(nia) Hm) as (s1 & Hit & H1).
    destruct (IH (S j) s1 H1 ltac:(nia) Hm) as (s' & Hfor & H').
    exists s'. simpl. rewrite Hit. simpl. rewrite Hfor.
    split; [reflexivity|].
    now replace (j + S k)%nat with (S j + k)%nat by lia.
Qed.

Lemma setup_in_progress e v w :
  first_episode rs e -> in_progress a rs O (setup a e v w).
Proof.
  intros Hfirst.
  destruct (setup_fields a e v w) as (E1 & E2 & E3 & E4 & _ & _ & E7 & _).
  unfold in_progress. rewrite setup_env, E1, E2, E3, E4, E7. simpl.
  now repeat split.
Qed.

(** The pass in which the episode ends. *)
Lemma rollout_last_pass (j : nat) (s : Outer) :
  in_progress a rs j s -> (j * mm <= length rs)%nat ->
  (length rs < S j * mm)%nat ->
  let r := rollout a s in
  ro_done r = true /\ ro_rewards r = skipn (j * mm) rs /\
  length (ro_actions r) = (length rs - j * mm)%nat /\
  length (ro_log_probs r) = (length rs - j * mm)%nat.
Proof.
  intros (Hs & _) Hle Hlt r. fold mm in Hs. subst r. rewrite rollout_nat.
  fold mm.
  match goal with |- context [for_nat mm (rollout_body ?net ?rc ?dc ?em) ?s0] =>
    destruct (rollout_script net rc dc em (skipn (j * mm) rs) mm s0)
      as (r & acts & lps & Hfor & Hdone & Hr & Ha & Hla & Hl & Hll) end.
  - exact Hs.
  - rewrite length_skipn. simpl in Hlt. lia.
  - rewrite Hfor. simpl in Hr, Ha, Hl. rewrite Ha, Hl, Hla, Hll, length_skipn.
    now repeat split.
Qed.

End TruncatedEpisodes.

Section TruncatedEpisodeResults.
Context {C : Collaborators}.

#[local] Arguments reinforce_fuel : simpl never.

Lemma iteration_done_ok self (a : Args) (s : Outer) opt w :
  train_step a s (rollout a s) = Ok (opt, w) ->
  early_stopping a = false -> (print_res a = false \/ print_freq a <> 0%Z) ->
  exists s', iteration self a s = Ok (Continue s').
Proof.
  intros Ht Hes Hprint. unfold iteration. rewrite Ht. simpl.
  assert (Hp : exists s2, print_step a (bookkeeping s (rollout a s) opt w) = Ok s2).
  { unfold print_step. destruct (_ && _) eqn:Hb; [|eexists; reflexivity].
    destruct Hprint as [Hp|Hp].
    - rewrite Hp, andb_false_r in Hb. discriminate.
    - apply Z.eqb_neq in Hp. rewrite Hp. clear Hp.
      destruct (_ =? 0)%Z; eexists; reflexivity. }
  destruct Hp as [s2 ->]. simpl.
  rewrite early_stopping_step_off by exact Hes. eexists; reflexivity.
Qed.

(** X11. An episode cut short by [max_episode_length] is not lost and not
    returned early: as long as the passes made so far cover no more steps
    than the episode has rewards, the call returns empty histories, and the
    rewards collected so far wait in the running total. *)
Theorem truncated_episode_not_appended (a : Args) e venv w (rs : list Q) :
  first_episode rs e ->
  (1 <= max_episode_length a)%Z ->
  (Z.to_nat (num_episodes a) * Z.to_nat (max_episode_length a)
   <= length rs)%nat ->
  exists o,
    reinforce a e venv w = Ok o /\
    reward_history o = [] /\ action_history o = [] /\
    total_rewards o =
      firstn (Z.to_nat (num_episodes a) * Z.to_nat (max_episode_length a)) rs.
Proof.
  intros Hfirst Hm Hlen.
  change (reinforce a e venv w)
    with (reinforce_body (reinforce_fuel 1) a e venv w).
  unfold reinforce_body. rewrite for_range_nat.
  destruct (passes_in_progress a rs (reinforce_fuel 1)
              (Z.to_nat (num_episodes a)) O (setup a e venv w))
    as (s' & Hfor & Hin).
  - now apply setup_in_progress.
  - exact Hlen.
  - lia.
  - rewrite Hfor. exists s'. destruct Hin as (_ & Htr & _ & Hrh & Hah & _).
    now repeat split.
Qed.

(** X12. An episode longer than [max_episode_length] is completed over
    several passes and its parts are merged: with just enough passes to reach
    the terminal step, the call returns one entry in each history, the sum of
    all the rewards of the episode and all its actions.  (With [train] true
    this needs the terminal step not to be the first step of its pass.) *)
Theorem truncated_episode_merged (a : Args) e venv w (rs : list Q) :
  first_episode rs e ->
  (1 <= max_episode_length a)%Z ->
  Z.to_nat (num_episodes a) =
    S (length rs / Z.to_nat (max_episode_length a)) ->
  (train a = false \/
   (length rs mod Z.to_nat (max_episode_length a) <> 0)%nat) ->
  early_stopping a = false -> (print_res a = false \/ print_freq a <> 0%Z) ->
  exists o acts,
    reinforce a e venv w = Ok o /\
    reward_history o = [pysum rs] /\
    action_history o = [acts] /\ length acts = length rs.
Proof.
  intros Hfirst Hm HN Hcase Hes Hprint.
  set (mm := Z.to_nat (max_episode_length a)) in *.
  set (q := (length rs / mm)%nat) in *.
  assert (Hmm : (1 <= mm)%nat) by (unfold mm; lia).
  pose proof (Nat.div_mod_eq (length rs) mm) as Hdiv. fold q in Hdiv.
  pose proof (Nat.mod_upper_bound (length rs) mm ltac:(lia)) as Hmod.
  change (reinforce a e venv w)
    with (reinforce_body (reinforce_fuel 1) a e venv w).
  unfold reinforce_body. rewrite for_range_nat, HN.
  replace (S q) with (q + 1)%nat by lia. rewrite for_nat_add.
  destruct (passes_in_progress a rs (reinforce_fuel 1) q O (setup a e venv w))
    as (s & Hfor & Hin).
  - now apply setup_in_progress.
  - simpl. fold mm. nia.
  - exact Hmm.
  - rewrite Hfor. simpl in Hin.
    destruct (rollout_last_pass a rs q s Hin) as (Hd & Hr & Hla & Hll);
      fold mm; try nia.
    destruct Hin as (_ & Htr & Hta & Hrh & Hah & _). fold mm in Htr, Hta.
    destruct (train_step_ok a s (rollout a s)) as (opt & w' & Ht).
    + rewrite Hll, Hr, length_skipn. reflexivity.
    + destruct Hcase as [Hc|Hc]; [now left|right].
      intros Hnil. rewrite Hnil in Hll. simpl in Hll. fold mm in Hll. nia.
    + destruct (iteration_done_ok (reinforce_fuel 1) a s opt w' Ht Hes Hprint)
        as (s' & Hit).
      pose proof (iteration_fields (reinforce_fuel 1) a s) as Hf.
      rewrite Hit in Hf. cbv zeta in Hf. rewrite Hd in Hf.
      destruct Hf as (_ & _ & _ & _ & E1 & E2 & _).
      simpl. rewrite Hit. simpl.
      exists s', (total_actions s ++ ro_actions (rollout a s)).
      split; [reflexivity|]. rewrite E1, E2, Hrh, Hah, Htr, Hr, firstn_skipn.
      repeat split. rewrite length_app, Hta, Hla. fold mm. nia.
Qed.

(** X13. With [train] true an episode whose length in rewards is a multiple
    of [max_episode_length] cannot be completed: its terminal step comes
    first in a pass, that pass collects nothing, and [get_policy_loss] raises
    on the empty lists.  A call with enough passes to reach that step fails
    with [RuntimeError], whatever was collected before. *)
Theorem truncated_episode_raises (a : Args) e venv w (rs : list Q) :
  first_episode rs e -> train a = true ->
  (1 <= max_episode_length a)%Z ->
  (length rs mod Z.to_nat (max_episode_length a) = 0)%nat ->
  (length rs / Z.to_nat (max_episode_length a)
   < Z.to_nat (num_episodes a))%nat ->
  reinforce a e venv w = Raise RuntimeError.
Proof.
  intros Hfirst Htrain Hm Hrem HN.
  set (mm := Z.to_nat (max_episode_length a)) in *.
  set (q := (length rs / mm)%nat) in *.
  assert (Hmm : (1 <= mm)%nat) by (unfold mm; lia).
  pose proof (Nat.div_mod_eq (length rs) mm) as Hdiv. fold q in Hdiv.
  change (reinforce a e venv w)
    with (reinforce_body (reinforce_fuel 1) a e venv w).
  unfold reinforce_body. rewrite for_range_nat.
  replace (Z.to_nat (num_episodes a))
    with (q + S (Z.to_nat (num_episodes a) - S q))%nat by lia.
  rewrite for_nat_add.
  destruct (passes_in_progress a rs (reinforce_fuel 1) q O (setup a e venv w))
    as (s & Hfor & Hin).
  - now apply setup_in_progress.
  - simpl. fold mm. nia.
  - exact Hmm.
  - rewrite Hfor. simpl in Hin.
    destruct (rollout_last_pass a rs q s Hin) as (_ & _ & _ & Hll);
      fold mm; try nia.
    fold mm in Hll.
    assert (Hnil : ro_log_probs (rollout a s) = []).
    { apply length_zero_iff_nil. rewrite Hll. nia. }
    rewrite (for_nat_first_stop _ _ _ (Raise RuntimeError)); [reflexivity|lia|].
    unfold iteration. rewrite train_step_empty; [reflexivity|exact Htrain|exact Hnil].
Qed.

End TruncatedEpisodeResults.

(** *** The exploration schedule in closed form *)

Section ClosedForm.
Context {C : Collaborators}.

Lemma pymax_cases (x y : Q) :
  ((y <= x)%Q /\ pymax x y = x) \/ ((x < y)%Q /\ pymax x y = y).
Proof.
  unfold pymax. destruct (Qle_bool y x) eqn:E.
  - left. split; [now apply Qle_bool_iff|reflexivity].
  - right. split; [|reflexivity]. apply Qnot_le_lt. intros H.
    apply Qle_bool_iff in H. congruence.
Qed.

Lemma pymax_floor (x y : Q) : (x <= y)%Q -> (pymax x y == y)%Q.
Proof.
  intros H. destruct (pymax_cases x y) as [[Hle ->]|[_ ->]]; [|reflexivity].
  now apply Qle_antisym.
Qed.

Lemma pymax_compat (x x' y : Q) : (x == x')%Q -> (pymax x y == pymax x' y)%Q.
Proof.
  intros H.
  destruct (pymax_cases x y) as [[H1 ->]|[H1 ->]];
    destruct (pymax_cases x' y) as [[H2 ->]|[H2 ->]]; try exact H;
    try reflexivity.
  - rewrite H in H1. exfalso. exact (Qlt_not_le _ _ H2 H1).
  - rewrite H in H1. exfalso. exact (Qlt_not_le _ _ H1 H2).
Qed.

(** One decay step on a floored rate is the floored decay step. *)
Lemma schedule_step (x rate d m : Q) :
  (0 <= m)%Q -> (0 <= d)%Q -> (d <= 1)%Q ->
  (rate == pymax x m)%Q ->
  (pymax (rate * d) m == pymax (x * d) m)%Q.
Proof.
  intros Hm Hd0 Hd1 Hr.
  destruct (pymax_cases x m) as [[Hle E]|[Hlt E]]; rewrite E in Hr.
  - apply pymax_compat. now rewrite Hr.
  - assert (Hmd : (m * d <= m)%Q).
    { rewrite <- (Qmult_1_r m) at 2. rewrite !(Qmult_comm m).
      now apply Qmult_le_compat_r. }
    assert (Hxd : (x * d <= m)%Q).
    { destruct (Qlt_le_dec x 0) as [Hneg|Hpos].
      - apply Qle_trans with 0%Q; [|exact Hm].
        setoid_replace 0%Q with (0 * d)%Q by ring.
        apply Qmult_le_compat_r; [now apply Qlt_le_weak|exact Hd0].
      - apply Qle_trans with x; [|now apply Qlt_le_weak].
        rewrite <- (Qmult_1_r x) at 2. rewrite !(Qmult_comm x).
        now apply Qmult_le_compat_r. }
    rewrite (pymax_compat (rate * d) (m * d) m) by now rewrite Hr.
    rewrite (pymax_floor (m * d) m Hmd), (pymax_floor (x * d) m Hxd).
    reflexivity.
Qed.

Variables (r0 d m : Q).
Hypothesis m_nonneg : (0 <= m)%Q.
Hypothesis d_nonneg : (0 <= d)%Q.
Hypothesis d_le_1 : (d <= 1)%Q.

Lemma rollout_body_schedule net rec (b : nat) (s : Rollout) :
  (ro_rate s == pymax (decayed r0 d (b + length (ro_actions s))) m)%Q ->
  match rollout_body net rec d m s with
  | Continue r | Stop r =>
      (ro_rate r == pymax (decayed r0 d (b + length (ro_actions r))) m)%Q
  end.
Proof.
  intros H. unfold rollout_body.
  destruct (act net (ro_state s) (ro_hx s) rec (ro_rate s) (ro_rng s))
    as [[[a lp] hx] g].
  destruct (env_step (ro_env s) a) as [e1 [[st rw] dn]].
  destruct dn; simpl; [exact H|].
  rewrite length_app. simpl.
  replace (b + (length (ro_actions s) + 1))%nat
    with (S (b + length (ro_actions s))) by lia.
  simpl. now apply schedule_step.
Qed.

End ClosedForm.

Section ClosedFormCall.
Context {C : Collaborators}.

(** X14. The exploration rate follows a closed form: with a floor that is
    not negative and at most the initial rate, and a decay factor in [0,1],
    the rate a call ends with is the initial rate multiplied by the decay
    factor once for every step recorded during the call (terminal steps are
    not recorded and do not decay it), floored at [exploration_min]; the
    initial rate and the floor are the configured ones when [train] is true
    and 0 when it is false. *)
Theorem exploration_rate_closed_form (a : Args) e venv w :
  (0 <= effective_min a)%Q -> (effective_min a <= effective_rate a)%Q ->
  (0 <= exploration_decay a)%Q -> (exploration_decay a <= 1)%Q ->
  match reinforce a e venv w with
  | Ok o =>
      (cur_exploration_rate o ==
       pymax (decayed (effective_rate a) (exploration_decay a)
                (length (concat (action_history o)) + length (total_actions o)))
         (effective_min a))%Q
  | _ => True
  end.
Proof.
  intros Hm Hle Hd0 Hd1.
  pose proof (reinforce_body_inv (reinforce_fuel 1) a e venv w
    (fun s => cur_exploration_min s = effective_min a /\
              (cur_exploration_rate s ==
               pymax (decayed (effective_rate a) (exploration_decay a)
                        (length (concat (action_history s)) +
                         length (total_actions s)))
                 (effective_min a))%Q)) as H.
  change (reinforce a e venv w)
    with (reinforce_body (reinforce_fuel 1) a e venv w).
  destruct (reinforce_body (reinforce_fuel 1) a e venv w) as [o| |]; try exact I.
  apply H.
  - destruct (setup_fields a e venv w) as
      (_ & E2 & _ & E4 & _ & _ & _ & _ & _ & Er & Em & _).
    rewrite E2, E4, Er, Em. split; [reflexivity|]. simpl.
    destruct (pymax_cases (effective_rate a) (effective_min a)) as [[_ ->]|[Hlt _]];
      [reflexivity|]. exfalso. exact (Qlt_not_le _ _ Hlt Hle).
  - intros s [Hmin Hrate].
    assert (Hro :
      (ro_rate (rollout a s) ==
       pymax (decayed (effective_rate a) (exploration_decay a)
                (length (concat (action_history s)) + length (total_actions s) +
                 length (ro_actions (rollout a s))))
         (effective_min a))%Q).
    { rewrite rollout_nat, Hmin.
      match goal with |- context [for_nat ?n ?b ?s0] =>
        pose proof (for_nat_inv b
          (fun r => (ro_rate r ==
                     pymax (decayed (effective_rate a) (exploration_decay a)
                              (length (concat (action_history s)) +
                               length (total_actions s) +
                               length (ro_actions r)))
                       (effective_min a))%Q)
          (fun r => (ro_rate r ==
                     pymax (decayed (effective_rate a) (exploration_decay a)
                              (length (concat (action_history s)) +
                               length (total_actions s) +
                               length (ro_actions r)))
                       (effective_min a))%Q)
          (rollout_body_schedule _ _ _ Hm Hd0 Hd1 _ _ _) n s0) as Hl;
        destruct (for_nat n b s0) end; apply Hl; simpl;
        rewrite Nat.add_0_r; exact Hrate. }
    pose proof (iteration_fields (reinforce_fuel 1) a s) as Hf.
    destruct (iteration (reinforce_fuel 1) a s) as [[s'|s']| |]; try exact I;
      cbv zeta in Hf; destruct Hf as (_ & _ & Er & Em & Hh);
      rewrite Er, Em; (split; [exact Hmin|]);
      (destruct (ro_done (rollout a s));
       destruct Hh as (_ & E2 & _ & E4 & _); rewrite E2, E4;
       [rewrite concat_snoc, !length_app; simpl; rewrite Nat.add_0_r
       |rewrite !length_app];
       rewrite Hro; apply pymax_compat;
       match goal with |- (decayed _ _ ?n1 == decayed _ _ ?n2)%Q =>
         replace n2 with n1 by lia end; reflexivity).
Qed.

End ClosedFormCall.

(** *** Configuration errors and silent calls *)

Section ConfigurationErrors.
Context {C : Collaborators}.

#[local] Arguments reinforce_fuel : simpl never.

(** The first pass on an episode that fits in it: the training step goes
    through and lines 103-112 record the first completed episode. *)
Lemma first_pass_completes (a : Args) e venv w (rs : list Q) :
  first_episode rs e -> (Z.of_nat (length rs) < max_episode_length a)%Z ->
  (train a = false \/ rs <> []) ->
  exists opt w1,
    train_step a (setup a e venv w) (rollout a (setup a e venv w))
    = Ok (opt, w1) /\
    let s1 := bookkeeping (setup a e venv w) (rollout a (setup a e venv w))
                opt w1 in
    done s1 = true /\ completed_episodes_counter s1 = 1%Z /\
    val_env s1 = venv.
Proof.
  intros Hfirst Hlen Hcase.
  destruct (rollout_first_episode a e venv w rs Hfirst Hlen)
    as (Hdone & Hr & Hla & Hll).
  destruct (train_step_ok a (setup a e venv w) (rollout a (setup a e venv w)))
    as (opt & w1 & Ht).
  - rewrite Hll, Hr. reflexivity.
  - destruct Hcase as [Hc|Hc]; [now left|right].
    intros Hnil. rewrite Hnil in Hll. destruct rs; [congruence|discriminate].
  - exists opt, w1. split; [exact Ht|]. cbv zeta.
    pose proof (bookkeeping_histories (setup a e venv w)
                  (rollout a (setup a e venv w)) opt w1) as Hh.
    cbv zeta in Hh. rewrite Hdone in Hh. destruct Hh as (_ & _ & _ & _ & Ec).
    destruct (setup_fields a e venv w) as (_&_&_&_&_& E6 &_&_& E9 & _).
    destruct (bookkeeping_world (setup a e venv w)
                (rollout a (setup a e venv w)) opt w1) as (_ & Ev & _).
    rewrite bookkeeping_done, Hdone, Ec, E6, Ev, E9. now repeat split.
Qed.

Lemma reinforce_first_pass_raises (a : Args) e venv w (x : exn) :
  (1 <= num_episodes a)%Z ->
  iteration (reinforce_fuel 1) a (setup a e venv w) = Raise x ->
  reinforce a e venv w = Raise x.
Proof.
  intros Hn Hit.
  change (reinforce a e venv w)
    with (reinforce_body (reinforce_fuel 1) a e venv w).
  unfold reinforce_body. rewrite for_range_nat.
  rewrite (for_nat_first_stop _ _ _ (Raise x)); [reflexivity|lia|].
  now rewrite Hit.
Qed.

(** X15. [print_freq = 0] with printing on is a division by zero at
    line 114: the call fails with [ZeroDivisionError] as soon as the first
    episode completes. *)
Theorem zero_print_freq_raises (a : Args) e venv w (rs : list Q) :
  first_episode rs e -> (Z.of_nat (length rs) < max_episode_length a)%Z ->
  (train a = false \/ rs <> []) -> (1 <= num_episodes a)%Z ->
  print_res a = true -> print_freq a = 0%Z ->
  reinforce a e venv w = Raise ZeroDivisionError.
Proof.
  intros Hfirst Hlen Hcase Hn Hp Hf.
  destruct (first_pass_completes a e venv w rs Hfirst Hlen Hcase)
    as (opt & w1 & Ht & Hd & _).
  apply reinforce_first_pass_raises; [exact Hn|].
  unfold iteration. rewrite Ht. cbn [bind]. unfold print_step.
  rewrite Hd, Hp, Hf. reflexivity.
Qed.

Lemma print_step_ok (a : Args) (s : Outer) :
  (print_res a = false \/ print_freq a <> 0%Z) ->
  exists s2, print_step a s = Ok s2 /\ core s2 = core s /\
             val_env s2 = val_env s.
Proof.
  intros Hprint. pose proof (print_step_core a s) as Hc.
  unfold print_step in *. destruct (_ && _) eqn:Hb.
  - destruct Hprint as [Hp|Hp].
    + rewrite Hp, andb_false_r in Hb. discriminate.
    + apply Z.eqb_neq in Hp. rewrite Hp in *. clear Hp.
      destruct (_ =? 0)%Z; eexists; (split; [reflexivity|]);
        destruct Hc as (H1 & H2 & _); now split.
  - exists s. now repeat split.
Qed.

(** X16. [early_stopping_freq = 0] with early stopping on is a division by
    zero at line 121: the call fails with [ZeroDivisionError] as soon as the
    first episode completes (printing being off or [print_freq] not 0). *)
Theorem zero_early_stopping_freq_raises (a : Args) e venv w (rs : list Q) :
  first_episode rs e -> (Z.of_nat (length rs) < max_episode_length a)%Z ->
  (train a = false \/ rs <> []) -> (1 <= num_episodes a)%Z ->
  (print_res a = false \/ print_freq a <> 0%Z) ->
  early_stopping a = true -> early_stopping_freq a = 0%Z ->
  reinforce a e venv w = Raise ZeroDivisionError.
Proof.
  intros Hfirst Hlen Hcase Hn Hprint He Hf.
  destruct (first_pass_completes a e venv w rs Hfirst Hlen Hcase)
    as (opt & w1 & Ht & Hd & _).
  apply reinforce_first_pass_raises; [exact Hn|].
  unfold iteration. rewrite Ht. cbn [bind].
  destruct (print_step_ok a
              (bookkeeping (setup a e venv w) (rollout a (setup a e venv w))
                 opt w1) Hprint) as (s2 & Hps & Hcore & _).
  rewrite Hps. cbn [bind].
  unfold core in Hcore. injection Hcore as _ _ _ _ _ _ _ Ed _ _ _ _.
  unfold early_stopping_step. rewrite Ed, Hd, He, Hf. reflexivity.
Qed.

(** X17. Early stopping without a validation environment ([val_env] left at
    [None]) fails when the first validation is due: with a validation after
    every episode, the call raises [AttributeError] as soon as the first
    episode completes. *)
Theorem missing_val_env_raises (a : Args) e w (rs : list Q) :
  first_episode rs e -> (Z.of_nat (length rs) < max_episode_length a)%Z ->
  (train a = false \/ rs <> []) -> (1 <= num_episodes a)%Z ->
  (print_res a = false \/ print_freq a <> 0%Z) ->
  early_stopping a = true -> early_stopping_freq a = 1%Z ->
  reinforce a e None w = Raise AttributeError.
Proof.
  intros Hfirst Hlen Hcase Hn Hprint He Hf.
  destruct (first_pass_completes a e None w rs Hfirst Hlen Hcase)
    as (opt & w1 & Ht & Hd & Hc & Hv).
  apply reinforce_first_pass_raises; [exact Hn|].
  unfold iteration. rewrite Ht. cbn [bind].
  destruct (print_step_ok a
              (bookkeeping (setup a e None w) (rollout a (setup a e None w))
                 opt w1) Hprint) as (s2 & Hps & Hcore & Hv2).
  rewrite Hps. cbn [bind].
  unfold core in Hcore. injection Hcore as _ _ _ _ _ _ Ec Ed _ _ _ _.
  unfold early_stopping_step. rewrite Ed, Hd, He, Hf, Hv2, Hv.
  cbn [andb]. rewrite Z.mod_1_r. reflexivity.
Qed.

End ConfigurationErrors.

Section SilentCalls.
Context {C : Collaborators}.

Lemma print_step_silent (a : Args) (s : Outer) :
  print_res a = false -> print_step a s = Ok s.
Proof. intros H. unfold print_step. now rewrite H, andb_false_r. Qed.

Lemma silent_call (k : nat) (a : Args) e v w :
  print_res a = false -> early_stopping a = false ->
  match reinforce_fuel (S k) a e v w with
  | Ok o => stdout (world o) = stdout w
  | _ => True
  end.
Proof.
  intros Hp He. cbn [reinforce_fuel].
  apply (reinforce_body_inv (reinforce_fuel k) a e v w
           (fun x => stdout (world x) = stdout w)).
  - unfold setup. destruct (env_reset e) as [e1 st1].
    destruct (env_reset e1) as [e2 st2]. reflexivity.
  - intros x Hx.
    pose proof (iteration_steps (reinforce_fuel k) a x) as Hi.
    destruct (iteration (reinforce_fuel k) a x) as [c'| |]; try exact I.
    destruct Hi as (opt' & w' & x2 & Ht' & Hp' & He').
    rewrite early_stopping_step_off in He' by exact He.
    injection He' as <-.
    rewrite print_step_silent in Hp' by exact Hp. injection Hp' as <-.
    pose proof (train_step_world a x (rollout a x)) as Hw'.
    rewrite Ht' in Hw'. destruct Hw' as (_ & Hs & _).
    destruct (bookkeeping_world x (rollout a x) opt' w') as (Ew' & _).
    rewrite Ew', Hs. exact Hx.
Qed.

(** X18. With [print_res] false nothing is printed, by the call or by the
    validation calls nested in it (line 122 passes [print_res=False]). *)
Theorem no_print_res_no_output (a : Args) e venv w :
  print_res a = false ->
  match reinforce a e venv w with
  | Ok o => stdout (world o) = stdout w
  | _ => True
  end.
Proof.
  intros Hp.
  pose proof (reinforce_body_inv (reinforce_fuel 1) a e venv w
    (fun s => stdout (world s) = stdout w)) as H.
  change (reinforce a e venv w)
    with (reinforce_body (reinforce_fuel 1) a e venv w).
  destruct (reinforce_body (reinforce_fuel 1) a e venv w) as [o| |]; try exact I.
  apply H.
  - unfold setup. destruct (env_reset e) as [e1 st1].
    destruct (env_reset e1) as [e2 st2]. reflexivity.
  - intros s Hs.
    pose proof (iteration_steps (reinforce_fuel 1) a s) as Hi.
    destruct (iteration (reinforce_fuel 1) a s) as [c| |]; try exact I.
    destruct Hi as (opt & w1 & s2 & Ht & Hp2 & He).
    rewrite print_step_silent in Hp2 by exact Hp. injection Hp2 as <-.
    pose proof (train_step_world a s (rollout a s)) as Hw.
    rewrite Ht in Hw. destruct Hw as (_ & Hst & _).
    destruct (bookkeeping_world s (rollout a s) opt w1) as (Ew & _).
    pose proof (early_stopping_step_cases (reinforce_fuel 1) a
                  (bookkeeping s (rollout a s) opt w1)) as Hc.
    rewrite He in Hc.
    destruct Hc as [->|(venv' & v & _ & _ & _ & Hself & Hc)].
    + rewrite Ew, Hst. exact Hs.
    + pose proof (silent_call O (validation_args a) venv'
                    None (world (bookkeeping s (rollout a s) opt w1))
                    eq_refl eq_refl) as Hsil.
      rewrite Hself in Hsil. rewrite Ew in Hsil.
      destruct c as [s'|s']; destruct Hc as (Ewv & _); rewrite Ewv, Hsil, Hst;
        exact Hs.
Qed.

End SilentCalls.

(** *** Degenerate losses and reports *)

Section DegenerateLoss.
Context {C : Collaborators}.

Lemma standardize_short (l : list R) :
  (length l <= 1)%nat -> standardize (map Fin l) = map (fun _ => NaN) l.
Proof.
  intros H. unfold standardize. rewrite t_std_short by exact H.
  destruct l as [|x [|y l]]; [reflexivity| |simpl in H; lia].
  rewrite t_mean_fin by discriminate. reflexivity.
Qed.

Lemma get_policy_loss_single (x : Q) (lp : LogProb) :
  exists l, get_policy_loss [x] [lp] = Ok l /\ is_finite (loss_item l) = false.
Proof.
  unfold get_policy_loss. rewrite FloatTensor_fin.
  rewrite (standardize_short (map Q2R [x])) by (simpl; lia).
  simpl. eexists. split; [reflexivity|]. simpl.
  destruct (lp_item lp); reflexivity.
Qed.

(** X19. With [train] true a pass that records exactly one step steps the
    optimizer with a loss that is not a finite number: the loss of a single
    reward is NaN, and nothing between [get_policy_loss] and [optimize]
    looks at it. *)
Theorem single_step_pass_optimizes_nan (a : Args) (s : Outer) :
  train a = true -> length (ro_rewards (rollout a s)) = 1%nat ->
  length (ro_log_probs (rollout a s)) = 1%nat ->
  match iteration (reinforce_fuel 1) a s with
  | Ok c =>
      let s' := match c with Continue s' | Stop s' => s' end in
      exists l,
        optimize_calls (world s') = optimize_calls (world s) ++ [l] /\
        is_finite (loss_item l) = false
  | _ => True
  end.
Proof.
  intros Ht Hr Hl.
  pose proof (iteration_steps (reinforce_fuel 1) a s) as H.
  destruct (iteration (reinforce_fuel 1) a s) as [c| |]; try exact I.
  destruct H as (opt & w & s2 & Hts & Hp & He). cbv zeta.
  destruct (ro_rewards (rollout a s)) as [|x [|? ?]] eqn:Er; try discriminate.
  destruct (ro_log_probs (rollout a s)) as [|lp [|? ?]] eqn:El; try discriminate.
  destruct (get_policy_loss_single x lp) as (l & Hloss & Hnan).
  unfold train_step in Hts. rewrite Ht, Er, El, Hloss in Hts. simpl in Hts.
  destruct optimize as [opt' p']. injection Hts as <- <-.
  pose proof (print_step_core a (bookkeeping s (rollout a s) opt'
     (MkWorld (Network p' (training (policy_network (world s))))
        (ro_rng (rollout a s)) (stdout (world s))
        (optimize_calls (world s) ++ [l])))) as Hpc.
  rewrite Hp in Hpc. destruct Hpc as (_ & _ & _ & _ & Ho).
  match type of Ho with _ = optimize_calls (world (bookkeeping ?s0 ?r ?o ?w0)) =>
    destruct (bookkeeping_world s0 r o w0) as (Ew & _) end.
  rewrite Ew in Ho. simpl in Ho.
  pose proof (early_stopping_step_cases (reinforce_fuel 1) a s2) as Hc.
  rewrite He in Hc. exists l. split; [|exact Hnan].
  destruct Hc as [->|(venv & v & _ & _ & _ & Hself & Hc)]; [exact Ho|].
  pose proof (validation_untrained a venv (world s2)) as Hu.
  rewrite Hself in Hu. destruct Hu as [Hu _].
  destruct c as [s'|s']; destruct Hc as (Ewv & _); rewrite Ewv, Hu; exact Ho.
Qed.

End DegenerateLoss.

Section Reports.
Context {C : Collaborators}.

Lemma last_nth_error {A} (l : list A) (d : A) :
  l <> [] -> nth_error l (length l - 1) = Some (last l d).
Proof.
  intros H. destruct (exists_last H) as (l' & x & ->).
  rewrite last_last, length_app. simpl.
  replace (length l' + 1 - 1)%nat with (length l') by lia.
  rewrite nth_error_app2, Nat.sub_diag by lia. reflexivity.
Qed.

Lemma report_ok_grows (a : Args) (s s' : Outer) (r : report) :
  report_ok a s r -> histories_aligned s ->
  (exists t, reward_history s' = reward_history s ++ t) ->
  (exists t, action_history s' = action_history s ++ t) ->
  (completed_episodes_counter s <= completed_episodes_counter s')%Z ->
  report_ok a s' r.
Proof.
  intros (H1 & H2 & H3 & H4) [Ha Hb] [t1 E1] [t2 E2] Hc.
  unfold report_ok. rewrite E1, E2.
  repeat split; try lia; try exact H1;
    (rewrite nth_error_app1; [assumption|lia]).
Qed.

Lemma setup_stdout (a : Args) e v w : stdout (world (setup a e v w)) = stdout w.
Proof.
  unfold setup. destruct (env_reset e) as [e1 st1].
  destruct (env_reset e1) as [e2 st2]. reflexivity.
Qed.

Lemma setup_counter (a : Args) e v w :
  completed_episodes_counter (setup a e v w) = 0%Z.
Proof. now destruct (setup_fields a e v w) as (_ & _ & _ & _ & _ & E & _). Qed.

(** With printing on, a pass keeps the reports complete: the report of the
    episode it completes is printed when its number calls for one. *)
Lemma iteration_reports_complete (a : Args) (w : World) (s : Outer) :
  print_res a = true ->
  reports_complete a w s ->
  match iteration (reinforce_fuel 1) a s with
  | Ok (Continue s') | Ok (Stop s') => reports_complete a w s'
  | _ => True
  end.
Proof.
  intros Hpr (new & Hnew & Hall).
  pose proof (iteration_steps (reinforce_fuel 1) a s) as Hi.
  destruct (iteration (reinforce_fuel 1) a s) as [c| |]; try exact I.
  destruct Hi as (opt & w1 & s2 & Ht & Hp & He).
  pose proof (train_step_world a s (rollout a s)) as Hw.
  rewrite Ht in Hw. destruct Hw as (_ & Hst & _).
  destruct (bookkeeping_world s (rollout a s) opt w1) as (Ew & _).
  pose proof (bookkeeping_done s (rollout a s) opt w1) as Hd.
  pose proof (bookkeeping_histories s (rollout a s) opt w1) as Hh.
  cbv zeta in Hh.
  set (s1 := bookkeeping s (rollout a s) opt w1) in *.
  assert (Hs2 : completed_episodes_counter s2 = completed_episodes_counter s1 /\
                exists new2,
                  stdout (world s2) = stdout w ++ new2 /\
                  forall k, (1 <= k <= completed_episodes_counter s1)%Z ->
                            ((k - 1) mod print_freq a = 0)%Z ->
                            exists r, In r new2 /\ rep_completed r = k).
  { pose proof (print_step_core a s1) as Hpc. rewrite Hp in Hpc.
    destruct Hpc as (Hcore & _). unfold core in Hcore.
    injection Hcore as _ _ _ _ _ _ E5 _ _ _ _ _. split; [exact E5|].
    unfold print_step in Hp. rewrite Hpr, andb_true_r, Hd in Hp.
    destruct (ro_done (rollout a s)) eqn:Hdone.
    - destruct Hh as (_ & _ & _ & _ & H5).
      destruct (print_freq a =? 0)%Z; [discriminate|].
      destruct ((completed_episodes_counter s1 - 1) mod print_freq a =? 0)%Z
        eqn:Hmod.
      + injection Hp as <-. cbn [world stdout]. rewrite Ew, Hst, Hnew, <- app_assoc.
        eexists. split; [reflexivity|]. intros k Hk Hkm.
        destruct (Z.eq_dec k (completed_episodes_counter s1)) as [->|Hne].
        * eexists. split; [apply in_or_app; right; left; reflexivity|].
          reflexivity.
        * destruct (Hall k ltac:(lia) Hkm) as (r & Hin & Hr).
          exists r. split; [apply in_or_app; now left|exact Hr].
      + injection Hp as <-. rewrite Ew, Hst, Hnew. exists new.
        split; [reflexivity|]. intros k Hk Hkm.
        destruct (Z.eq_dec k (completed_episodes_counter s1)) as [->|Hne].
        * apply Z.eqb_neq in Hmod. contradiction.
        * apply Hall; [lia|exact Hkm].
    - destruct Hh as (_ & _ & _ & _ & H5). injection Hp as <-.
      rewrite Ew, Hst, Hnew. exists new. split; [reflexivity|].
      intros k Hk Hkm. apply Hall; [lia|exact Hkm]. }
  destruct Hs2 as (Ecnt & new2 & Hnew2 & Hall2).
  pose proof (early_stopping_step_cases (reinforce_fuel 1) a s2) as Hc.
  rewrite He in Hc.
  destruct Hc as [->|(venv' & v & _ & _ & _ & Hself & Hc)].
  - exists new2. split; [exact Hnew2|]. intros k Hk. apply Hall2. lia.
  - pose proof (silent_call O (validation_args a) venv' None (world s2)
                  eq_refl eq_refl) as Hsil.
    rewrite Hself in Hsil.
    destruct c as [s'|s']; destruct Hc as (Ewv & _ & Hcs & _);
      unfold core in Hcs; injection Hcs as _ _ _ _ _ _ E5 _ _ _ _ _;
      exists new2; (split; [rewrite Ewv, Hsil; exact Hnew2|]);
      intros k Hk; apply Hall2; lia.
Qed.

(** X20. What is printed: when [print_freq] is not 0, every report printed
    during a call is about a completed episode whose number is one more than
    a multiple of [print_freq], and shows the sum of rewards and the actions
    that the histories hold for that episode; validation calls print
    nothing.  With [print_res] true no such episode is left out: every
    completed episode whose number is one more than a multiple of
    [print_freq], the first among them, has its report. *)
Theorem reports_follow_histories (a : Args) e venv w :
  match reinforce a e venv w with
  | Ok o =>
      exists new,
        stdout (world o) = stdout w ++ new /\
        Forall (fun r =>
                  ((rep_completed r - 1) mod print_freq a = 0)%Z /\
                  (1 <= rep_completed r <= completed_episodes_counter o)%Z /\
                  nth_error (reward_history o) (Z.to_nat (rep_completed r - 1))
                  = Some (rep_sum r) /\
                  nth_error (action_history o) (Z.to_nat (rep_completed r - 1))
                  = Some (rep_actions r)) new /\
        (print_res a = true ->
         forall c, (1 <= c <= completed_episodes_counter o)%Z ->
                   ((c - 1) mod print_freq a = 0)%Z ->
                   exists r, In r new /\ rep_completed r = c)
  | _ => True
  end.
Proof.
  pose proof (reinforce_body_inv (reinforce_fuel 1) a e venv w
                (reports_ok a w)) as H.
  change (reinforce a e venv w)
    with (reinforce_body (reinforce_fuel 1) a e venv w).
  assert (Hcompl : print_res a = true ->
            match reinforce_body (reinforce_fuel 1) a e venv w with
            | Ok o => reports_complete a w o
            | _ => True
            end).
  { intros Hpr. apply reinforce_body_inv.
    - exists []. split; [now rewrite setup_stdout, app_nil_r|].
      intros c Hc _. rewrite setup_counter in Hc. lia.
    - intros s Hs. now apply iteration_reports_complete. }
  destruct (reinforce_body (reinforce_fuel 1) a e venv w) as [o| |]; try exact I.
  destruct H as (_ & new & Hnew & Hall);
    [| |exists new; split; [exact Hnew|split; [exact Hall|]];
        intros Hpr; destruct (Hcompl Hpr) as (new' & Hnew' & Hall');
        rewrite Hnew in Hnew'; apply app_inv_head in Hnew'; subst new';
        exact Hall'].
  - split.
    + destruct (setup_fields a e venv w) as (E1 & E2 & _ & _ & _ & E6 & _).
      unfold histories_aligned. rewrite E1, E2, E6. split; reflexivity.
    + exists []. rewrite app_nil_r. split; [|constructor].
      unfold setup. destruct (env_reset e) as [e1 st1].
      destruct (env_reset e1) as [e2 st2]. reflexivity.
  - intros s (Hal & new & Hnew & Hall).
    pose proof (iteration_aligned (reinforce_fuel 1) a s Hal) as Hal'.
    pose proof (iteration_fields (reinforce_fuel 1) a s) as Hf.
    pose proof (iteration_steps (reinforce_fuel 1) a s) as Hi.
    destruct (iteration (reinforce_fuel 1) a s) as [c| |]; try exact I.
    destruct Hi as (opt & w1 & s2 & Ht & Hp & He).
    pose proof (train_step_world a s (rollout a s)) as Hw.
    rewrite Ht in Hw. destruct Hw as (_ & Hst & _).
    destruct (bookkeeping_world s (rollout a s) opt w1) as (Ew & _).
    set (s1 := bookkeeping s (rollout a s) opt w1) in *.
    (* the state the pass ends in has the histories of [s1] *)
    assert (Hgrow : forall s', core s' = core s1 ->
              histories_aligned s' ->
              Forall (report_ok a s') new /\
              reward_history s' = reward_history s1 /\
              action_history s' = action_history s1 /\
              completed_episodes_counter s' = completed_episodes_counter s1).
    { intros s' Hcore Hal2. unfold core in Hcore.
      injection Hcore as _ _ E1 E2 _ _ E5 _ _ _ _ _.
      pose proof (bookkeeping_histories s (rollout a s) opt w1) as Hh.
      cbv zeta in Hh. fold s1 in Hh.
      split; [|now repeat split].
      eapply Forall_impl; [|exact Hall]. intros r Hr.
      apply (report_ok_grows a s s' r Hr Hal); rewrite ?E1, ?E2, ?E5;
        destruct (ro_done (rollout a s));
        destruct Hh as (H1 & H2 & _ & _ & H5); rewrite ?H1, ?H2, ?H5;
        try (eexists; reflexivity); try (exists []; now rewrite app_nil_r);
        lia. }
    (* line 114-119 *)
    assert (Hs2 : core s2 = core s1 /\
                  exists new2, stdout (world s2) = stdout w ++ new2 /\
                    forall s', core s' = core s1 -> histories_aligned s' ->
                               Forall (report_ok a s') new2).
    { pose proof (print_step_core a s1) as Hpc. rewrite Hp in Hpc.
      destruct Hpc as (Hcore & _). split; [exact Hcore|].
      unfold print_step in Hp.
      destruct (done s1 && print_res a) eqn:Hb.
      - destruct (print_freq a =? 0)%Z; [discriminate|].
        destruct ((completed_episodes_counter s1 - 1) mod print_freq a =? 0)%Z
          eqn:Hmod.
        + injection Hp as <-. simpl. rewrite Ew, Hst, Hnew, <- app_assoc.
          eexists. split; [reflexivity|]. intros s' Hc' Hal2.
          destruct (Hgrow s' Hc' Hal2) as (Hold & E1 & E2 & E5).
          apply Forall_app. split; [exact Hold|].
          constructor; [|constructor].
          apply andb_true_iff in Hb. destruct Hb as [Hd _].
          unfold s1 in Hd. rewrite bookkeeping_done in Hd.
          pose proof (bookkeeping_histories s (rollout a s) opt w1) as Hh.
          cbv zeta in Hh. fold s1 in Hh. rewrite Hd in Hh.
          destruct Hh as (H1 & H2 & _ & _ & H5).
          destruct Hal2 as [Ha2 Hb2]. destruct Hal as [Ha Hb0].
          unfold report_ok. simpl. rewrite E1, E2, E5 in *.
          apply Z.eqb_eq in Hmod.
          assert (Hlen1 : length (reward_history s1)
                          = S (length (reward_history s)))
            by (rewrite H1, length_app; simpl; lia).
          assert (Hlen2 : length (action_history s1)
                          = S (length (action_history s)))
            by (rewrite H2, length_app; simpl; lia).
          rewrite Hlen1 in Hb2.
          repeat split; try exact Hmod; try lia.
          * replace (Z.to_nat (completed_episodes_counter s1 - 1))
              with (length (reward_history s1) - 1)%nat by lia.
            apply last_nth_error. rewrite H1. intros Hn.
            apply app_eq_nil in Hn. destruct Hn; discriminate.
          * replace (Z.to_nat (completed_episodes_counter s1 - 1))
              with (length (action_history s1) - 1)%nat by lia.
            apply last_nth_error. rewrite H2. intros Hn.
            apply app_eq_nil in Hn. destruct Hn; discriminate.
        + injection Hp as <-. rewrite Ew, Hst, Hnew. exists new.
          split; [reflexivity|]. intros s' Hc' Hal2.
          now destruct (Hgrow s' Hc' Hal2).
      - injection Hp as <-. rewrite Ew, Hst, Hnew. exists new.
        split; [reflexivity|]. intros s' Hc' Hal2.
        now destruct (Hgrow s' Hc' Hal2). }
    destruct Hs2 as (Hcore2 & new2 & Hnew2 & Hall2).
    pose proof (early_stopping_step_cases (reinforce_fuel 1) a s2) as Hc.
    rewrite He in Hc.
    destruct Hc as [->|(venv' & v & _ & _ & _ & Hself & Hc)].
    + split; [exact Hal'|]. exists new2. split; [exact Hnew2|].
      apply Hall2; [exact Hcore2|exact Hal'].
    + pose proof (silent_call O (validation_args a) venv' None (world s2)
                    eq_refl eq_refl) as Hsil.
      rewrite Hself in Hsil.
      destruct c as [s'|s']; destruct Hc as (Ewv & _ & Hcs & _);
        (split; [exact Hal'|]); exists new2;
        (split; [rewrite Ewv, Hsil; exact Hnew2|]);
        (apply Hall2; [congruence|exact Hal']).
Qed.

End Reports.

(** *** Further concrete runs *)

Section FurtherRuns.
Import Toy.

Ltac toy_script :=
  unfold first_episode; cbn;
  repeat (intros ?; split; [reflexivity|]); intros ?; reflexivity.


Lemma no_early_stopping_no_validation_witness :
  exists o,
    reinforce (C := collaborators) (args 3 10 true false 1 (1 # 2) (1 # 10))
      (fixed [1; 2]%Q) (Some countdown) world0 = Ok o /\
    val_env o = Some countdown /\ validation_rewards o = [].
Proof.
  pose proof (no_early_stopping_no_validation (C := collaborators)
                (args 3 10 true false 1 (1 # 2) (1 # 10)) (fixed [1; 2]%Q)
                (Some countdown) world0 eq_refl) as H.
  match type of H with match ?t with _ => _ end =>
    destruct t as [o| |] eqn:E end.
  - exists o. split; [first [exact E|reflexivity]|exact H].
  - vm_compute in E. discriminate.
  - vm_compute in E. discriminate.
Defined.

Lemma truncated_episode_not_appended_witness :
  exists o,
    reinforce (C := collaborators) (args 1 2 true false 1 (1 # 2) (1 # 10))
      (fixed [1; 2; 3]%Q) None world0 = Ok o /\
    reward_history o = [] /\ action_history o = [] /\
    total_rewards o = [1; 2]%Q.
Proof.
  apply (truncated_episode_not_appended (C := collaborators)
           (args 1 2 true false 1 (1 # 2) (1 # 10)) (fixed [1; 2; 3]%Q)
           None world0 [1; 2; 3]%Q).
  - toy_script.
  - simpl. lia.
  - simpl. lia.
Defined.

Lemma truncated_episode_merged_witness :
  exists o acts,
    reinforce (C := collaborators) (args 2 2 true false 1 (1 # 2) (1 # 10))
      (fixed [1; 2; 3]%Q) None world0 = Ok o /\
    reward_history o = [pysum [1; 2; 3]%Q] /\
    action_history o = [acts] /\ length acts = 3%nat.
Proof.
  apply (truncated_episode_merged (C := collaborators)
           (args 2 2 true false 1 (1 # 2) (1 # 10)) (fixed [1; 2; 3]%Q)
           None world0 [1; 2; 3]%Q).
  - toy_script.
  - simpl. lia.
  - reflexivity.
  - right. simpl. lia.
  - reflexivity.
  - right. simpl. lia.
Defined.

Lemma truncated_episode_raises_witness :
  reinforce (C := collaborators) (args 3 2 true false 1 (1 # 2) (1 # 10))
    (fixed [1; 2]%Q) None world0 = Raise RuntimeError.
Proof.
  apply (truncated_episode_raises (C := collaborators)
           (args 3 2 true false 1 (1 # 2) (1 # 10)) (fixed [1; 2]%Q)
           None world0 [1; 2]%Q).
  - toy_script.
  - reflexivity.
  - simpl. lia.
  - reflexivity.
  - simpl. lia.
Defined.

Lemma exploration_rate_closed_form_witness :
  exists o,
    reinforce (C := collaborators) (args 3 10 true false 1 (1 # 2) (1 # 10))
      (fixed [1; 2]%Q) None world0 = Ok o /\
    (cur_exploration_rate o ==
     pymax (decayed 1 (1 # 2)
              (length (concat (action_history o)) + length (total_actions o)))
       (1 # 10))%Q.
Proof.
  pose proof (exploration_rate_closed_form (C := collaborators)
                (args 3 10 true false 1 (1 # 2) (1 # 10)) (fixed [1; 2]%Q)
                None world0) as H.
  match type of H with _ -> _ -> _ -> _ -> match ?t with _ => _ end =>
    destruct t as [o| |] eqn:E end.
  - exists o. split; [first [exact E|reflexivity]|]. apply H.
    + vm_compute. discriminate.
    + vm_compute. discriminate.
    + vm_compute. discriminate.
    + vm_compute. discriminate.
  - vm_compute in E. discriminate.
  - vm_compute in E. discriminate.
Defined.

Lemma zero_print_freq_raises_witness :
  reinforce (C := collaborators)
    (MkArgs (1 # 1000) (1 # 100000) 1 (1 # 2) 0 1 10 true true 0 false false 100)
    (fixed [1]%Q) None world0 = Raise ZeroDivisionError.
Proof.
  apply (zero_print_freq_raises (C := collaborators) _ (fixed [1]%Q) None
           world0 [1]%Q).
  - toy_script.
  - simpl. lia.
  - right. discriminate.
  - simpl. lia.
  - reflexivity.
  - reflexivity.
Defined.

Lemma zero_early_stopping_freq_raises_witness :
  reinforce (C := collaborators)
    (MkArgs (1 # 1000) (1 # 100000) 1 (1 # 2) 0 1 10 true false 100 false true 0)
    (fixed [1]%Q) (Some countdown) world0 = Raise ZeroDivisionError.
Proof.
  apply (zero_early_stopping_freq_raises (C := collaborators) _ (fixed [1]%Q)
           (Some countdown) world0 [1]%Q).
  - toy_script.
  - simpl. lia.
  - right. discriminate.
  - simpl. lia.
  - left. reflexivity.
  - reflexivity.
  - reflexivity.
Defined.

Lemma missing_val_env_raises_witness :
  reinforce (C := collaborators) (args 1 10 true true 1 (1 # 2) (1 # 10))
    (fixed [1]%Q) None world0 = Raise AttributeError.
Proof.
  apply (missing_val_env_raises (C := collaborators) _ (fixed [1]%Q)
           world0 [1]%Q).
  - toy_script.
  - simpl. lia.
  - right. discriminate.
  - simpl. lia.
  - right. simpl. lia.
  - reflexivity.
  - reflexivity.
Defined.

Lemma no_print_res_no_output_witness :
  exists o,
    reinforce (C := collaborators)
      (MkArgs (1 # 1000) (1 # 100000) 1 (1 # 2) 0 2 10 true false 100 false
         true 1)
      (fixed [1; 2]%Q) (Some countdown) world0 = Ok o /\
    stdout (world o) = stdout world0.
Proof.
  pose proof (no_print_res_no_output (C := collaborators)
                (MkArgs (1 # 1000) (1 # 100000) 1 (1 # 2) 0 2 10 true false
                   100 false true 1)
                (fixed [1; 2]%Q) (Some countdown) world0 eq_refl) as H.
  match type of H with match ?t with _ => _ end =>
    destruct t as [o| |] eqn:E end.
  - exists o. split; [first [exact E|reflexivity]|exact H].
  - vm_compute in E. discriminate.
  - vm_compute in E. discriminate.
Defined.

Lemma single_step_pass_optimizes_nan_witness :
  exists c l,
    iteration (C := collaborators) (reinforce_fuel 1)
      (args 1 10 true false 1 (1 # 2) (1 # 10))
      (setup (C := collaborators) (args 1 10 true false 1 (1 # 2) (1 # 10))
         (fixed [1]%Q) None world0) = Ok c /\
    optimize_calls (world match c with Continue s' | Stop s' => s' end) = [l] /\
    is_finite (loss_item l) = false.
Proof.
  pose proof (single_step_pass_optimizes_nan (C := collaborators)
                (args 1 10 true false 1 (1 # 2) (1 # 10))
                (setup (C := collaborators)
                   (args 1 10 true false 1 (1 # 2) (1 # 10))
                   (fixed [1]%Q) None world0) eq_refl eq_refl eq_refl) as H.
  match type of H with match ?t with _ => _ end =>
    destruct t as [c| |] eqn:E end.
  - destruct H as (l & Hl & Hn). exists c, l.
    split; [first [exact E|reflexivity]|]. split; [exact Hl|exact Hn].
  - vm_compute in E. discriminate.
  - vm_compute in E. discriminate.
Defined.

(** A training call with two validations ends with the network in
    evaluation mode. *)
Example eval_mode_after_validation_run :
  exists o,
    reinforce (C := collaborators) (args 5 10 true true 1 (1 # 2) (1 # 10))
      (fixed [1; 2]%Q) (Some countdown) world0 = Ok o /\
    train (args 5 10 true true 1 (1 # 2) (1 # 10)) = true /\
    training (policy_network (world o)) = false /\
    length (act_calls o) = 6%nat /\
    length (concat (action_history o)) = 4%nat.
Proof. eexists. split; [vm_compute; reflexivity|]. repeat split. Qed.

Lemma reports_follow_histories_witness :
  exists o new r,
    reinforce (C := collaborators) (args 3 10 true false 1 (1 # 2) (1 # 10))
      (fixed [1; 2]%Q) None world0 = Ok o /\
    stdout (world o) = stdout world0 ++ new /\
    In r new /\ rep_completed r = 1%Z.
Proof.
  pose proof (reports_follow_histories (C := collaborators)
                (args 3 10 true false 1 (1 # 2) (1 # 10)) (fixed [1; 2]%Q)
                None world0) as H.
  match type of H with match ?t with _ => _ end =>
    destruct t as [o| |] eqn:E end.
  - destruct H as (new & Hnew & _ & Hc).
    assert (Hcnt : completed_episodes_counter o = 3%Z).
    { vm_compute in E. injection E as <-. reflexivity. }
    destruct (Hc eq_refl 1%Z ltac:(rewrite Hcnt; lia) eq_refl)
      as (r & Hin & Hr).
    exists o, new, r. split; [first [exact E|reflexivity]|].
    split; [exact Hnew|]. split; assumption.
  - vm_compute in E. discriminate.
  - vm_compute in E. discriminate.
Defined.

End FurtherRuns.
